(** * read_many: packing and framing engine of pi-read-many

    A shallow embedding of [read-many.ts] and the properties its
    specification states about it.

    Conventions of the embedding.
    - A JavaScript string is the list of its UTF-16 code units
      ([jsstring], a [list N]); [length] is [String.prototype.length] and
      [charCodeAt] is list lookup.
    - A JavaScript number that holds an integer is a [Z]; array indexes and
      loop counters that only count upwards from 0 are [nat].
    - [Set<string>] and [Set<number>] are [gset]s; arrays are lists.
    - A function that can throw returns a [Result]. *)

From Stdlib Require Import ZArith Lia String Ascii.
From stdpp Require Import base list gmap sets sorting.

Local Open Scope Z_scope.

(** ** JavaScript strings *)

Abbreviation jsstring := (list N).

(** A literal: the code units of an ASCII Rocq string. *)
Definition js (s : string) : jsstring :=
  (fun a => N_of_ascii a) <$> list_ascii_of_string s.

Definition LF : N := 10%N.
Definition CR : N := 13%N.

(** [s.split("\n")] for a one-unit separator: never empty, one more
    element than there are separators. *)
Fixpoint split (sep : N) (s : jsstring) : list jsstring :=
  match s with
  | [] => [[]]
  | c :: rest =>
      if N.eqb c sep then [] :: split sep rest
      else match split sep rest with
           | line :: lines => (c :: line) :: lines
           | [] => [[c]]
           end
  end.

(** [parts.join(sep)]. *)
Fixpoint join (sep : jsstring) (parts : list jsstring) : jsstring :=
  match parts with
  | [] => []
  | [p] => p
  | p :: rest => p ++ sep ++ join sep rest
  end.

(** [line.replace(/\r$/, "")]: drops one carriage return at the very end. *)
Definition stripCR (line : jsstring) : jsstring :=
  match last line with
  | Some c => if N.eqb c CR then removelast line else line
  | None => line
  end.

(** [Buffer.byteLength(text, "utf-8")] on UTF-16 code units: one, two or
    three bytes for a unit of the basic plane, four for a surrogate pair;
    an unpaired surrogate is encoded as U+FFFD, three bytes.  The flag
    remembers that the previous unit was a high surrogate still waiting for
    its low half: that half then adds the fourth byte of the pair. *)
Definition isHighSurrogate (c : N) : bool := (N.leb 55296 c && N.ltb c 56320)%N.
Definition isLowSurrogate (c : N) : bool := (N.leb 56320 c && N.ltb c 57344)%N.

Fixpoint utf8From (pendingHigh : bool) (s : jsstring) : Z :=
  match s with
  | [] => 0
  | c :: rest =>
      if pendingHigh && isLowSurrogate c then 1 + utf8From false rest
      else if N.ltb c 128 then 1 + utf8From false rest
      else if N.ltb c 2048 then 2 + utf8From false rest
      else 3 + utf8From (isHighSurrogate c) rest
  end.

Definition byteLength (text : jsstring) : Z := utf8From false text.

(** ** Numbers as text *)

(** Digits of [n] in [radix], least significant first.  The fuel bounds the
    number of digits; [N.size_nat n] (the bit length) is enough for every
    radix from 2 on, see [digitsLE_value]. *)
Fixpoint digitsLE (fuel : nat) (radix n : N) : list N :=
  match fuel with
  | O => [n `mod` radix]%N
  | S f =>
      if N.ltb n radix then [n]
      else (n `mod` radix)%N :: digitsLE f radix (n `div` radix)%N
  end.

(** The digit characters of [Number.prototype.toString]: 0-9 then a-z. *)
Definition digitChar (d : N) : N :=
  if N.ltb d 10 then (48 + d)%N else (87 + d)%N.

(** [n.toString(radix)] for a non-negative integer [n]. *)
Definition toStringRadix (radix n : N) : jsstring :=
  digitChar <$> reverse (digitsLE (N.size_nat n) radix n).

(** [`${z}`] and [String(z)] for an integer (below 10^21 in size, where
    JavaScript still writes all the digits; positions, counts and suffixes
    are far below). *)
Definition numberToString (z : Z) : jsstring :=
  if z <? 0 then js "-" ++ toStringRadix 10 (Z.to_N (- z))
  else toStringRadix 10 (Z.to_N z).

(** [s.toUpperCase()] on the Latin letters; it is only ever applied to
    the output of [toStringRadix]. *)
Definition toUpperCase (s : jsstring) : jsstring :=
  (fun c => if (N.leb 97 c && N.leb c 122)%N then (c - 32)%N else c) <$> s.

(** [s.padStart(width, "0")]. *)
Definition padStart0 (width : nat) (s : jsstring) : jsstring :=
  replicate (width - length s) 48%N ++ s.

(** ** createPathHash *)

(** [ToUint32] and [ToInt32]. *)
Definition toUint32 (z : Z) : Z := z mod 2 ^ 32.
Definition toInt32 (z : Z) : Z :=
  let u := toUint32 z in if u <? 2 ^ 31 then u else u - 2 ^ 32.

(** [a << k]: both operands pass through 32 bits, the result is signed. *)
Definition shl32 (a k : Z) : Z := toInt32 (Z.shiftl (toInt32 a) (toUint32 k mod 32)).
(** [a >>> 0]. *)
Definition ushr0 (a : Z) : Z := toUint32 a.

Definition hashStep (hash : Z) (charCode : N) : Z :=
  ushr0 (shl32 hash 5 + hash + Z.of_N charCode).

(** The [for] loop of [createPathHash]: one step per code unit, left to
    right. *)
Definition hashLoop (hash : Z) (path : jsstring) : Z :=
  foldl hashStep hash path.

Definition createPathHash (path : jsstring) : jsstring :=
  let hash := hashLoop 5381 path in
  take 6 (padStart0 6 (toUpperCase (toStringRadix 16 (Z.to_N hash)))).

(** ** Delimiter allocation *)

Definition DELIMITER_WORDS : list jsstring :=
  js <$> [ "PINE"; "MANGO"; "ORBIT"; "RAVEN"; "CEDAR"; "LOTUS"; "EMBER";
           "NOVA"; "DUNE"; "KITE"; "TIDAL"; "QUARTZ"; "ACORN"; "BLAZE";
           "FJORD"; "GLYPH"; "HARBOR"; "IVORY"; "JUNIPER"; "SIERRA";
           "UMBRA"; "VIOLET"; "WILLOW"; "XENON"; "YARROW"; "ZEPHYR" ]%string.

(** [array[i]] for an integer [i]: [undefined] outside the array. *)
Definition arrayGet {A} (array : list A) (i : Z) : option A :=
  if i <? 0 then None else array !! Z.to_nat i.

Definition buildLineSet (content : jsstring) : gset jsstring :=
  foldl (fun set line => {[ stripCR line ]} ∪ set) ∅ (split LF content).

(** [lineSet.has(token)]. *)
Definition has (lineSet : gset jsstring) (token : jsstring) : bool :=
  bool_decide (token ∈ lineSet).

(** The two probing loops of [pickDelimiter] have one body: try
    [`${base}_${attempt}`] and return it when it is free, else go on with
    the next number.  [iterations] is how many times the body may still run:
    257 - attempt for the [for] loop, the fuel for the [while (true)] loop.
    [None]: the loop ran [iterations] times without returning. *)
Fixpoint probeSuffixes (iterations : nat) (lineSet : gset jsstring)
    (base : jsstring) (attempt : Z) : option jsstring :=
  match iterations with
  | O => None
  | S k =>
      let candidate := base ++ js "_" ++ numberToString attempt in
      if negb (has lineSet candidate) then Some candidate
      else probeSuffixes k lineSet base (attempt + 1)
  end.

(** [pickDelimiter], with [fuel] bounding the iterations of the final
    [while (true)] loop; [None] only when that fuel runs out. *)
Definition pickDelimiterFuel (fuel : nat) (path : jsstring) (index : Z)
    (content : jsstring) : option jsstring :=
  let lineSet := buildLineSet content in
  let word :=
    match arrayGet DELIMITER_WORDS (index - 1) with
    | Some w => w
    | None => js "FILE" ++ numberToString index
    end in
  let hash := createPathHash path in
  let base := word ++ js "_" ++ numberToString index ++ js "_" ++ hash in
  if negb (has lineSet base) then Some base
  else
    match probeSuffixes 256 lineSet base 1 with
    | Some candidate => Some candidate
    | None =>
        let fallbackBase :=
          base ++ js "_"
               ++ toUpperCase (toStringRadix 36 (N.of_nat (length content))) in
        if negb (has lineSet fallbackBase) then Some fallbackBase
        else probeSuffixes fuel lineSet fallbackBase 1
    end.

(** The [while (true)] loop returns within [size lineSet + 1] iterations
    ([pickDelimiter_fuel]), so that much fuel gives the delimiter the
    program returns; the empty default is never taken. *)
Definition pickDelimiter (path : jsstring) (index : Z) (content : jsstring)
    : jsstring :=
  default [] (pickDelimiterFuel (S (size (buildLineSet content))) path index content).

(** ** Block formatting and metrics *)

Definition formatContentBlock (path body : jsstring) (index : Z) : jsstring :=
  let delimiter := pickDelimiter path index body in
  js "@" ++ path ++ [LF] ++ js "<<'" ++ delimiter ++ js "'" ++ [LF]
     ++ body ++ [LF] ++ delimiter.

Record TextMetrics := { bytes : Z; lines : Z }.

Definition measureText (text : jsstring) : TextMetrics :=
  {| bytes := byteLength text;
     lines := Z.of_nat (length (split LF text)) |}.


(** ** The host environment *)

(** [TruncationResult] of the host: the fields this program reads. *)
Module TruncationResult.
Record t := mk { content : jsstring; truncated : bool }.
End TruncationResult.

(** What [read-many.ts] imports from [@mariozechner/pi-coding-agent] and
    uses at run time: the two output ceilings and [truncateHead]
    ([truncateHead text maxLines maxBytes] is
    [truncateHead(text, { maxLines, maxBytes })]). *)
Class Host := {
  DEFAULT_MAX_BYTES : Z;
  DEFAULT_MAX_LINES : Z;
  truncateHead : jsstring -> Z -> Z -> TruncationResult.t;
}.

(** ** Data model *)

Module FileCandidate.
Record t := mk {
  index : nat;
  path : jsstring;
  ok : bool;
  fullText : jsstring;
  fullMetrics : TextMetrics;
  body : option jsstring;
}.
End FileCandidate.

Module PackedSection.
Record t := mk { index : nat; text : jsstring; metrics : TextMetrics }.
End PackedSection.

Inductive PackingStrategy := RequestOrder | SmallestFirst.

#[global] Instance PackingStrategy_eq_dec : EqDecision PackingStrategy.
Proof. solve_decision. Defined.

Module PackingPlan.
Record t := mk {
  strategy : PackingStrategy;
  fullIncluded : gset nat;
  partialSection : option PackedSection.t;
  omittedIndexes : list nat;
  usedBytes : Z;
  usedLines : Z;
  sectionCount : Z;
  fullCount : nat;
  fullSuccessCount : Z;
}.
End PackingPlan.

(** The mutable [state] object of [buildPlan]. *)
Module PackState.
Record t := mk { usedBytes : Z; usedLines : Z; sectionCount : Z }.
End PackState.

(** A call that may throw. *)
Inductive Result (A : Type) :=
  | Ok (value : A)
  | Throw (message : jsstring).
Arguments Ok {A} value.
Arguments Throw {A} message.

#[global] Instance Result_bind : MBind Result := fun A B k r =>
  match r with
  | Ok a => k a
  | Throw message => Throw message
  end.

(** [!s] for a string that may be [undefined]: true when absent or empty. *)
Definition falsy (s : option jsstring) : bool :=
  match s with
  | Some (_ :: _) => false
  | _ => true
  end.

Section Planner.
Context `{Host}.

(** ** Budget accounting *)

Definition sepBytesOf (state : PackState.t) : Z :=
  if state.(PackState.sectionCount) >? 0 then 2 else 0.
Definition sepLinesOf (state : PackState.t) : Z :=
  if state.(PackState.sectionCount) >? 0 then 1 else 0.

Definition canFitSection (state : PackState.t) (metrics : TextMetrics) : bool :=
  let sepBytes := sepBytesOf state in
  let sepLines := sepLinesOf state in
  (state.(PackState.usedBytes) + sepBytes + metrics.(bytes) <=? DEFAULT_MAX_BYTES)
  && (state.(PackState.usedLines) + sepLines + metrics.(lines) <=? DEFAULT_MAX_LINES).

Definition addSection (state : PackState.t) (metrics : TextMetrics) : PackState.t :=
  let sepBytes := sepBytesOf state in
  let sepLines := sepLinesOf state in
  {| PackState.usedBytes := state.(PackState.usedBytes) + (sepBytes + metrics.(bytes));
     PackState.usedLines := state.(PackState.usedLines) + (sepLines + metrics.(lines));
     PackState.sectionCount := state.(PackState.sectionCount) + 1 |}.

(** ** buildPartialSection *)

(** The [for (attempt = 0; attempt < 16; attempt++)] loop, with
    [attempts] iterations still to run. *)
Fixpoint shrinkToFit (attempts : nat) (candidate : FileCandidate.t)
    (body : jsstring) (remainingLines remainingBytes : Z)
    (maxBodyLines maxBodyBytes : Z) : option jsstring :=
  match attempts with
  | O => None
  | S attempts' =>
      let trunc := truncateHead body maxBodyLines maxBodyBytes in
      if falsy (Some trunc.(TruncationResult.content)) then None
      else
        let partialText :=
          formatContentBlock candidate.(FileCandidate.path)
            trunc.(TruncationResult.content)
            (Z.of_nat candidate.(FileCandidate.index) + 1) in
        let metrics := measureText partialText in
        if (metrics.(lines) <=? remainingLines) && (metrics.(bytes) <=? remainingBytes)
        then Some partialText
        else
          let maxBodyLines' :=
            if (metrics.(lines) >? remainingLines) && (maxBodyLines >? 1)
            then Z.max 1 (maxBodyLines - (metrics.(lines) - remainingLines))
            else maxBodyLines in
          let maxBodyBytes' :=
            if (metrics.(bytes) >? remainingBytes) && (maxBodyBytes >? 1)
            then Z.max 1 (maxBodyBytes - (metrics.(bytes) - remainingBytes) - 8)
            else maxBodyBytes in
          shrinkToFit attempts' candidate body remainingLines remainingBytes
            maxBodyLines' maxBodyBytes'
  end.

Definition buildPartialSection (candidate : FileCandidate.t)
    (remainingLines remainingBytes : Z) : option jsstring :=
  if falsy candidate.(FileCandidate.body) then None
  else
    let body := default [] candidate.(FileCandidate.body) in
    let maxBodyLines := remainingLines - 3 in
    if (maxBodyLines <? 1) || (remainingBytes <? 32) then None
    else
      let maxBodyBytes := Z.max 1 (remainingBytes - 96) in
      shrinkToFit 16 candidate body remainingLines remainingBytes
        maxBodyLines maxBodyBytes.

(** ** buildPlan *)

(** What the full-block pass has accumulated. *)
Record FullPass := {
  fp_state : PackState.t;
  fp_fullIncluded : gset nat;
  fp_fullSuccessCount : Z;
}.

Definition fullPassStart : FullPass :=
  {| fp_state := {| PackState.usedBytes := 0; PackState.usedLines := 0;
                    PackState.sectionCount := 0 |};
     fp_fullIncluded := ∅;
     fp_fullSuccessCount := 0 |}.

(** The first loop of [buildPlan], [for (const index of order)].  An
    index outside [candidates] makes [candidate.fullMetrics] throw a
    [TypeError]. *)
Fixpoint fullPass (strategy : PackingStrategy) (candidates : list FileCandidate.t)
    (order : list nat) (acc : FullPass) : Result FullPass :=
  match order with
  | [] => Ok acc
  | index :: order' =>
      match candidates !! index with
      | None => Throw (js "TypeError")
      | Some candidate =>
          if canFitSection acc.(fp_state) candidate.(FileCandidate.fullMetrics) then
            fullPass strategy candidates order'
              {| fp_state := addSection acc.(fp_state) candidate.(FileCandidate.fullMetrics);
                 fp_fullIncluded := {[ index ]} ∪ acc.(fp_fullIncluded);
                 fp_fullSuccessCount :=
                   if candidate.(FileCandidate.ok) then acc.(fp_fullSuccessCount) + 1
                   else acc.(fp_fullSuccessCount) |}
          else if decide (strategy = RequestOrder) then Ok acc
          else fullPass strategy candidates order' acc
      end
  end.

(** The second loop, [for (index = 0; index < candidates.length; index++)]:
    [rest] holds [candidates[index]], [candidates[index + 1]], ... *)
Fixpoint partialPass (state : PackState.t) (fullIncluded : gset nat)
    (index : nat) (rest : list FileCandidate.t) : option PackedSection.t :=
  match rest with
  | [] => None
  | candidate :: rest' =>
      if bool_decide (index ∈ fullIncluded) then
        partialPass state fullIncluded (S index) rest'
      else
        let sepBytes := sepBytesOf state in
        let sepLines := sepLinesOf state in
        let remainingBytes := DEFAULT_MAX_BYTES - state.(PackState.usedBytes) - sepBytes in
        let remainingLines := DEFAULT_MAX_LINES - state.(PackState.usedLines) - sepLines in
        if (remainingBytes <=? 0) || (remainingLines <=? 0) then None
        else
          let partialText := buildPartialSection candidate remainingLines remainingBytes in
          if falsy partialText then
            partialPass state fullIncluded (S index) rest'
          else
            let text := default [] partialText in
            Some {| PackedSection.index := index;
                    PackedSection.text := text;
                    PackedSection.metrics := measureText text |}
  end.

(** [partialSection?.index === i]. *)
Definition isPartialIndex (partialSection : option PackedSection.t) (i : nat) : bool :=
  match partialSection with
  | Some section => bool_decide (section.(PackedSection.index) = i)
  | None => false
  end.

Definition omitted (fullIncluded : gset nat)
    (partialSection : option PackedSection.t) (count : nat) : list nat :=
  filter (fun i => ~ (i ∈ fullIncluded \/ isPartialIndex partialSection i = true))
         (seq 0 count).

Definition buildPlan (strategy : PackingStrategy) (order : list nat)
    (candidates : list FileCandidate.t) : Result PackingPlan.t :=
  full ← fullPass strategy candidates order fullPassStart;
  let partialSection :=
    partialPass full.(fp_state) full.(fp_fullIncluded) 0 candidates in
  let state :=
    match partialSection with
    | Some section => addSection full.(fp_state) section.(PackedSection.metrics)
    | None => full.(fp_state)
    end in
  Ok {| PackingPlan.strategy := strategy;
        PackingPlan.fullIncluded := full.(fp_fullIncluded);
        PackingPlan.partialSection := partialSection;
        PackingPlan.omittedIndexes :=
          omitted full.(fp_fullIncluded) partialSection (length candidates);
        PackingPlan.usedBytes := state.(PackState.usedBytes);
        PackingPlan.usedLines := state.(PackState.usedLines);
        PackingPlan.sectionCount := state.(PackState.sectionCount);
        PackingPlan.fullCount := size full.(fp_fullIncluded);
        PackingPlan.fullSuccessCount := full.(fp_fullSuccessCount) |}.

End Planner.

(** ** The orchestrator *)

Module FileRequest.
Record t := mk { path : jsstring; offset : option Z; limit : option Z }.
End FileRequest.

Module ReadManyInput.
Record t := mk { files : list FileRequest.t; stopOnError : option bool }.
End ReadManyInput.

Module ReadToolInput.
Record t := mk { path : jsstring; offset : option Z; limit : option Z }.
End ReadToolInput.

(** One item of a read result's [content]. *)
Inductive ContentItem :=
  | TextContent (text : jsstring)
  | ImageContent (data mimeType : jsstring).

Module ReadToolResult.
Record t := mk {
  content : list ContentItem;
  (** [details?.truncation] *)
  truncation : option TruncationResult.t;
}.
End ReadToolResult.

Module ReadManyFileDetail.
Record t := mk {
  path : jsstring;
  ok : bool;
  error : option jsstring;
  imageCount : option Z;
  truncation : option TruncationResult.t;
}.
End ReadManyFileDetail.

Module Packing.
Record t := mk {
  strategy : PackingStrategy;
  switchedForCoverage : bool;
  fullIncludedCount : nat;
  fullIncludedSuccessCount : Z;
  partialIncludedPath : option jsstring;
  omittedPaths : list jsstring;
}.
End Packing.

Module ReadManyDetails.
Record t := mk {
  processedCount : nat;
  successCount : nat;
  errorCount : nat;
  files : list ReadManyFileDetail.t;
  packing : Packing.t;
  combinedTruncation : option TruncationResult.t;
}.
End ReadManyDetails.

(** What [execute] returns: the single text item and the details. *)
Module ReadManyResult.
Record t := mk { text : jsstring; details : ReadManyDetails.t }.
End ReadManyResult.

(** The built-in read tool as [execute] sees it: the outcome of the call
    made for the file at position [i] ([`${toolCallId}:${i}`]) with the
    given input, either a result or a thrown error, of which only the
    message ([error.message] or [String(error)]) is used. *)
Definition ReadTool := nat -> ReadToolInput.t -> Result ReadToolResult.t.

(** The abort signal: [aborted i] is [signal?.aborted] as read at the
    start of iteration [i]. *)
Definition AbortSignal := nat -> bool.

(** The arrays the read loop fills, and the trace of the read calls made
    so far, oldest first. *)
Record ReadLoop := {
  candidates : list FileCandidate.t;
  fileDetails : list ReadManyFileDetail.t;
  reads : list (nat * ReadToolInput.t);
}.

Definition imageSummary (imageCount : Z) : jsstring :=
  js "[" ++ numberToString imageCount
     ++ js " image attachment(s) omitted; use read on this file for image payload.]".

Definition textChunksOf (content : list ContentItem) : list jsstring :=
  omap (fun item => match item with TextContent text => Some text | _ => None end) content.

(** [item.type === "image"]. *)
Definition isImage (item : ContentItem) : bool :=
  match item with ImageContent _ _ => true | TextContent _ => false end.

Definition imageCountOf (content : list ContentItem) : Z :=
  Z.of_nat (length (filter (fun item => isImage item = true) content)).

(** The body of a successful read. *)
Definition bodyOf (content : list ContentItem) : jsstring :=
  let imageCount := imageCountOf content in
  let body := join [LF] (textChunksOf content) in
  if falsy (Some body) then
    if imageCount >? 0 then imageSummary imageCount
    else js "[No text content returned]"
  else if imageCount >? 0 then body ++ [LF] ++ imageSummary imageCount
  else body.

(** [array.sort(compare)]: the stable sort, by insertion. *)
Fixpoint insertBy {A} (compare : A -> A -> Z) (x : A) (sorted : list A) : list A :=
  match sorted with
  | [] => [x]
  | y :: rest =>
      if compare x y <=? 0 then x :: y :: rest else y :: insertBy compare x rest
  end.

Definition sortBy {A} (compare : A -> A -> Z) (array : list A) : list A :=
  foldr (insertBy compare) [] array.

Definition zeroMetrics : TextMetrics := {| bytes := 0; lines := 0 |}.

(** [candidates[i].fullMetrics]; the comparator is only ever called on
    indexes of [candidates]. *)
Definition fullMetricsAt (candidates : list FileCandidate.t) (i : nat) : TextMetrics :=
  from_option FileCandidate.fullMetrics zeroMetrics (candidates !! i).

(** The comparator of the smallest-first sort. *)
Definition compareSize (candidates : list FileCandidate.t) (a b : nat) : Z :=
  let sizeDelta := (fullMetricsAt candidates a).(bytes) - (fullMetricsAt candidates b).(bytes) in
  if negb (sizeDelta =? 0) then sizeDelta
  else
    let lineDelta := (fullMetricsAt candidates a).(lines) - (fullMetricsAt candidates b).(lines) in
    if negb (lineDelta =? 0) then lineDelta
    else Z.of_nat a - Z.of_nat b.

Definition requestOrderOf (candidates : list FileCandidate.t) : list nat :=
  seq 0 (length candidates).

Definition smallestFirstOrderOf (candidates : list FileCandidate.t) : list nat :=
  sortBy (compareSize candidates) (requestOrderOf candidates).

(** The strategy switch: [(switchedForCoverage, plan)]. *)
Definition choosePlan (requestPlan smallestPlan : PackingPlan.t) : bool * PackingPlan.t :=
  let switchedForCoverage :=
    smallestPlan.(PackingPlan.fullSuccessCount) >? requestPlan.(PackingPlan.fullSuccessCount) in
  (switchedForCoverage, if switchedForCoverage then smallestPlan else requestPlan).

(** The rendering loop, [for (i = 0; i < candidates.length; i++)]: [rest]
    holds [candidates[i]], [candidates[i + 1]], ... *)
Fixpoint renderSections (plan : PackingPlan.t) (i : nat)
    (rest : list FileCandidate.t) : list jsstring :=
  match rest with
  | [] => []
  | candidate :: rest' =>
      if bool_decide (i ∈ plan.(PackingPlan.fullIncluded)) then
        candidate.(FileCandidate.fullText) :: renderSections plan (S i) rest'
      else
        match plan.(PackingPlan.partialSection) with
        | Some section =>
            if bool_decide (section.(PackedSection.index) = i) then
              section.(PackedSection.text) :: renderSections plan (S i) rest'
            else renderSections plan (S i) rest'
        | None => renderSections plan (S i) rest'
        end
  end.

Definition plannedOutputTextOf (plan : PackingPlan.t)
    (candidates : list FileCandidate.t) : jsstring :=
  join [LF; LF] (renderSections plan 0 candidates).

#[global] Instance Result_ret : MRet Result := fun A a => Ok a.

(** [candidates[index].path], a [TypeError] outside the array. *)
Definition pathAt (candidates : list FileCandidate.t) (index : nat) : Result jsstring :=
  match candidates !! index with
  | Some candidate => Ok candidate.(FileCandidate.path)
  | None => Throw (js "TypeError")
  end.

(** The input of the read call made for a request. *)
Definition inputOf (request : FileRequest.t) : ReadToolInput.t :=
  {| ReadToolInput.path := request.(FileRequest.path);
     ReadToolInput.offset := request.(FileRequest.offset);
     ReadToolInput.limit := request.(FileRequest.limit) |}.

Section Orchestrator.
Context `{Host}.
Context (readTool : ReadTool) (aborted : AbortSignal).

(** One iteration of the read loop for a request that was read
    successfully. *)
Definition recordSuccess (i : nat) (request : FileRequest.t)
    (result : ReadToolResult.t) (loop : ReadLoop) : ReadLoop :=
  let imageCount := imageCountOf result.(ReadToolResult.content) in
  let body := bodyOf result.(ReadToolResult.content) in
  let fullText := formatContentBlock request.(FileRequest.path) body (Z.of_nat i + 1) in
  {| candidates := loop.(candidates) ++
       [ {| FileCandidate.index := i;
            FileCandidate.path := request.(FileRequest.path);
            FileCandidate.ok := true;
            FileCandidate.fullText := fullText;
            FileCandidate.fullMetrics := measureText fullText;
            FileCandidate.body := Some body |} ];
     fileDetails := loop.(fileDetails) ++
       [ {| ReadManyFileDetail.path := request.(FileRequest.path);
            ReadManyFileDetail.ok := true;
            ReadManyFileDetail.error := None;
            ReadManyFileDetail.imageCount := Some imageCount;
            ReadManyFileDetail.truncation := result.(ReadToolResult.truncation) |} ];
     reads := loop.(reads) |}.

(** The [catch] block. *)
Definition recordFailure (i : nat) (request : FileRequest.t)
    (message : jsstring) (loop : ReadLoop) : ReadLoop :=
  let fullText :=
    formatContentBlock request.(FileRequest.path)
      (js "[Error: " ++ message ++ js "]") (Z.of_nat i + 1) in
  {| candidates := loop.(candidates) ++
       [ {| FileCandidate.index := i;
            FileCandidate.path := request.(FileRequest.path);
            FileCandidate.ok := false;
            FileCandidate.fullText := fullText;
            FileCandidate.fullMetrics := measureText fullText;
            FileCandidate.body := None |} ];
     fileDetails := loop.(fileDetails) ++
       [ {| ReadManyFileDetail.path := request.(FileRequest.path);
            ReadManyFileDetail.ok := false;
            ReadManyFileDetail.error := Some message;
            ReadManyFileDetail.imageCount := None;
            ReadManyFileDetail.truncation := None |} ];
     reads := loop.(reads) |}.

(** The read loop, [for (i = 0; i < params.files.length; i++)]: [rest]
    holds [params.files[i]], [params.files[i + 1]], ...  Every call of the
    read tool is appended to [reads] before its outcome is looked at. *)
Fixpoint readFiles (stopOnError : option bool) (i : nat)
    (rest : list FileRequest.t) (loop : ReadLoop) : Result ReadLoop :=
  match rest with
  | [] => Ok loop
  | request :: rest' =>
      if aborted i then Throw (js "Operation aborted")
      else
        let input := inputOf request in
        let called :=
          {| candidates := loop.(candidates);
             fileDetails := loop.(fileDetails);
             reads := loop.(reads) ++ [(i, input)] |} in
        match readTool i input with
        | Ok result =>
            readFiles stopOnError (S i) rest' (recordSuccess i request result called)
        | Throw message =>
            let failed := recordFailure i request message called in
            if default false stopOnError then Ok failed
            else readFiles stopOnError (S i) rest' failed
        end
  end.

(** Everything [execute] does after the read loop. *)
Definition packAndRender (loop : ReadLoop) : Result ReadManyResult.t :=
  let candidates := loop.(candidates) in
  let fileDetails := loop.(fileDetails) in
  let requestOrder := requestOrderOf candidates in
  let smallestFirstOrder := smallestFirstOrderOf candidates in
  requestPlan ← buildPlan RequestOrder requestOrder candidates;
  smallestPlan ← buildPlan SmallestFirst smallestFirstOrder candidates;
  let '(switchedForCoverage, plan) := choosePlan requestPlan smallestPlan in
  let plannedOutputText := plannedOutputTextOf plan candidates in
  let outputTruncation :=
    truncateHead plannedOutputText DEFAULT_MAX_LINES DEFAULT_MAX_BYTES in
  let outputText := outputTruncation.(TruncationResult.content) in
  omittedPaths ← mapM (pathAt candidates) plan.(PackingPlan.omittedIndexes);
  Ok {| ReadManyResult.text := outputText;
        ReadManyResult.details :=
          {| ReadManyDetails.processedCount := length fileDetails;
             ReadManyDetails.successCount :=
               length (filter (fun f => f.(ReadManyFileDetail.ok) = true) fileDetails);
             ReadManyDetails.errorCount :=
               length (filter (fun f => f.(ReadManyFileDetail.ok) = false) fileDetails);
             ReadManyDetails.files := fileDetails;
             ReadManyDetails.packing :=
               {| Packing.strategy := plan.(PackingPlan.strategy);
                  Packing.switchedForCoverage := switchedForCoverage;
                  Packing.fullIncludedCount := plan.(PackingPlan.fullCount);
                  Packing.fullIncludedSuccessCount := plan.(PackingPlan.fullSuccessCount);
                  Packing.partialIncludedPath :=
                    section ← plan.(PackingPlan.partialSection);
                    FileCandidate.path <$> candidates !! section.(PackedSection.index);
                  Packing.omittedPaths := omittedPaths |};
             ReadManyDetails.combinedTruncation :=
               if outputTruncation.(TruncationResult.truncated)
               then Some outputTruncation else None |} |}.

Definition startLoop : ReadLoop :=
  {| candidates := []; fileDetails := []; reads := [] |}.

(** [execute]: the trace of read calls it made, and what it returned. *)
Definition execute (params : ReadManyInput.t)
    : Result (list (nat * ReadToolInput.t) * ReadManyResult.t) :=
  loop ← readFiles params.(ReadManyInput.stopOnError) 0
           params.(ReadManyInput.files) startLoop;
  result ← packAndRender loop;
  Ok (loop.(reads), result).

End Orchestrator.

(** ** Reading a framed block back *)

(** The consumer's side of the wire format
    [@<path> / <<'<delimiter>' / <body> / <delimiter>] is not part of
    [read-many.ts]; the round trip is stated against the two readers
    below.  [sliceBlock] is the reader of the unit test "formats heredoc
    blocks with matching closing delimiter" in [test/unit]: [lines[0]],
    [lines[1].slice(3, -1)], [lines.slice(2, -1).join("\n")] and
    [lines.at(-1)].  [splitBlock] follows the words of the specification and
    scans the way a heredoc is read: header line, opening marker line, then
    body lines up to the first line that is exactly the delimiter, which
    must close the block. *)

Definition stripPrefix (prefix s : jsstring) : option jsstring :=
  if decide (take (length prefix) s = prefix) then Some (drop (length prefix) s)
  else None.

Definition stripSuffix (suffix s : jsstring) : option jsstring :=
  reverse <$> stripPrefix (reverse suffix) (reverse s).

(** The lines before the first line equal to [delimiter], and the lines
    after it. *)
Fixpoint untilLine (delimiter : jsstring) (lines : list jsstring)
    : option (list jsstring * list jsstring) :=
  match lines with
  | [] => None
  | line :: rest =>
      if decide (line = delimiter) then Some ([], rest)
      else '(bodyLines, after) ← untilLine delimiter rest;
           Some (line :: bodyLines, after)
  end.

(** [(path, delimiter, body)] of a block. *)
Definition splitBlock (block : jsstring) : option (jsstring * jsstring * jsstring) :=
  match split LF block with
  | header :: marker :: rest =>
      path ← stripPrefix (js "@") header;
      quoted ← stripPrefix (js "<<'") marker;
      delimiter ← stripSuffix (js "'") quoted;
      '(bodyLines, after) ← untilLine delimiter rest;
      if decide (after = []) then Some (path, delimiter, join [LF] bodyLines)
      else None
  | _ => None
  end.

Definition sliceBlock (block : jsstring) : option (jsstring * jsstring * jsstring) :=
  match split LF block with
  | header :: marker :: rest =>
      path ← stripPrefix (js "@") header;
      quoted ← stripPrefix (js "<<'") marker;
      delimiter ← stripSuffix (js "'") quoted;
      closing ← last rest;
      if decide (closing = delimiter)
      then Some (path, delimiter, join [LF] (removelast rest))
      else None
  | _ => None
  end.

(** ** The host's contract, and a host to run the model on *)

(** What the planner relies on from the host: ceilings that leave room
    for the empty text, and a [truncateHead] that returns a text that is
    within both limits unchanged and not marked as truncated. *)
Class HostLaws `{Host} : Prop := {
  max_bytes_nonneg : 0 <= DEFAULT_MAX_BYTES;
  max_lines_pos : 1 <= DEFAULT_MAX_LINES;
  truncateHead_within text maxLines maxBytes :
    (measureText text).(lines) <= maxLines ->
    (measureText text).(bytes) <= maxBytes ->
    truncateHead text maxLines maxBytes
    = {| TruncationResult.content := text; TruncationResult.truncated := false |};
}.

(** The leading lines that fit [maxBytes], at most [count] of them; every
    line but the first costs one more byte for its line feed. *)
Fixpoint collectLines (maxBytes : Z) (isFirst : bool) (outputBytes : Z)
    (count : nat) (rest : list jsstring) : list jsstring :=
  match count, rest with
  | S count', line :: rest' =>
      let lineBytes := byteLength line + (if isFirst then 0 else 1) in
      if outputBytes + lineBytes >? maxBytes then []
      else line :: collectLines maxBytes false (outputBytes + lineBytes) count' rest'
  | _, _ => []
  end.

(** A head truncation in the manner of the host's: a text within both
    limits is returned as it is, a first line over the byte limit gives the
    empty text, otherwise the leading whole lines that fit are kept.  It
    stands for the host's function when the model is run on concrete
    inputs; the theorems hold for every [Host]. *)
Definition truncateHeadByLines (text : jsstring) (maxLines maxBytes : Z)
    : TruncationResult.t :=
  let totalBytes := byteLength text in
  let allLines := split LF text in
  if (Z.of_nat (length allLines) <=? maxLines) && (totalBytes <=? maxBytes) then
    {| TruncationResult.content := text; TruncationResult.truncated := false |}
  else if byteLength (default [] (head allLines)) >? maxBytes then
    {| TruncationResult.content := []; TruncationResult.truncated := true |}
  else
    {| TruncationResult.content :=
         join [LF] (collectLines maxBytes true 0 (Z.to_nat maxLines) allLines);
       TruncationResult.truncated := true |}.

(** The ceilings of the pi coding agent, 50 KB and 2000 lines. *)
Definition piHost : Host :=
  {| DEFAULT_MAX_BYTES := 50 * 1024;
     DEFAULT_MAX_LINES := 2000;
     truncateHead := truncateHeadByLines |}.

(** A host with small ceilings, 120 bytes and 12 lines. *)
Definition smallHost : Host :=
  {| DEFAULT_MAX_BYTES := 120;
     DEFAULT_MAX_LINES := 12;
     truncateHead := truncateHeadByLines |}.

(** [makeCandidate] of the unit tests. *)
Definition makeCandidate (path text : jsstring) (ok : bool) (index : nat)
    (body : option jsstring) : FileCandidate.t :=
  {| FileCandidate.index := index;
     FileCandidate.path := path;
     FileCandidate.ok := ok;
     FileCandidate.fullText := text;
     FileCandidate.fullMetrics := measureText text;
     FileCandidate.body := body |}.

(** ** Quantities the properties speak of *)

(** The sum of [weight] over the candidates whose index is in [included];
    [rest] holds the candidates from [index] on. *)
Fixpoint sumIncluded (weight : FileCandidate.t -> Z) (included : gset nat)
    (index : nat) (rest : list FileCandidate.t) : Z :=
  match rest with
  | [] => 0
  | candidate :: rest' =>
      (if bool_decide (index ∈ included) then weight candidate else 0)
      + sumIncluded weight included (S index) rest'
  end.

(** How many candidates are fully included and come from a successful
    read. *)
Definition successfulFullCount (plan : PackingPlan.t)
    (candidates : list FileCandidate.t) : Z :=
  sumIncluded (fun candidate => if candidate.(FileCandidate.ok) then 1 else 0)
    plan.(PackingPlan.fullIncluded) 0 candidates.

(** What the file at position [i] contributes to the output under a plan:
    its full block, the partial section, or nothing. *)
Definition sectionText (plan : PackingPlan.t) (candidates : list FileCandidate.t)
    (i : nat) : option jsstring :=
  candidate ← candidates !! i;
  if bool_decide (i ∈ plan.(PackingPlan.fullIncluded)) then
    Some candidate.(FileCandidate.fullText)
  else
    section ← plan.(PackingPlan.partialSection);
    if bool_decide (section.(PackedSection.index) = i)
    then Some section.(PackedSection.text) else None.

(** The sections of the given positions, each followed by the blank-line
    separator. *)
Definition sectionsWithSeparator (plan : PackingPlan.t)
    (candidates : list FileCandidate.t) (positions : list nat) : jsstring :=
  mjoin ((fun text => text ++ [LF; LF]) <$> omap (sectionText plan candidates) positions).

(** The number of blank-line separators between [count] sections. *)
Definition separators (count : Z) : Z := Z.max 0 (count - 1).

(** The sum of [measure] over a list of texts. *)
Definition sumList (measure : jsstring -> Z) (texts : list jsstring) : Z :=
  foldr (fun text total => measure text + total) 0 texts.

Definition lineCount (text : jsstring) : Z := Z.of_nat (length (split LF text)).

(** The candidate's metrics are those of its full text, as for every
    candidate [execute] builds. *)
Definition measured (candidate : FileCandidate.t) : Prop :=
  candidate.(FileCandidate.fullMetrics) = measureText candidate.(FileCandidate.fullText).

Section Accounted.
Context `{Host}.

(** The books of the full-block pass are in order: the counters are the
    sums over the fully included candidates plus the separators between
    them. *)
Record Accounted (candidates : list FileCandidate.t) (acc : FullPass) : Prop := {
  acc_count :
    acc.(fp_state).(PackState.sectionCount)
    = sumIncluded (fun _ => 1) acc.(fp_fullIncluded) 0 candidates;
  acc_bytes :
    acc.(fp_state).(PackState.usedBytes)
    = sumIncluded (fun c => c.(FileCandidate.fullMetrics).(bytes))
        acc.(fp_fullIncluded) 0 candidates
      + 2 * separators acc.(fp_state).(PackState.sectionCount);
  acc_lines :
    acc.(fp_state).(PackState.usedLines)
    = sumIncluded (fun c => c.(FileCandidate.fullMetrics).(lines))
        acc.(fp_fullIncluded) 0 candidates
      + separators acc.(fp_state).(PackState.sectionCount);
  acc_success :
    acc.(fp_fullSuccessCount)
    = sumIncluded (fun c => if c.(FileCandidate.ok) then 1 else 0)
        acc.(fp_fullIncluded) 0 candidates;
}.
End Accounted.

(** ** Quantities the properties of the delimiter speak of *)

(** The value of a little-endian digit list. *)
Fixpoint digitsValue (radix : N) (ds : list N) : N :=
  match ds with
  | [] => 0
  | d :: rest => d + radix * digitsValue radix rest
  end%N.

(** A string made of characters from ['-'] upwards: the minus sign,
    digits, letters and the underscore qualify, the line terminators do
    not. *)
Definition tokenChars (s : jsstring) : Prop := Forall (fun c => 45 <= c)%N s.

#[local] Instance tokenChars_dec s : Decision (tokenChars s).
Proof. unfold tokenChars. apply _. Defined.

(** ** createPathHash in the words of the specification *)

(** The hash as the specification words it: seed 5381, step
    [hash * 33 + charCode], unsigned 32-bit wrap-around. *)
Definition rollingHash (path : jsstring) : Z :=
  foldl (fun hash charCode => (hash * 33 + Z.of_N charCode) mod 2 ^ 32) 5381 path.

(** Reading an uppercase hexadecimal numeral. *)
Definition isUpperHexDigit (c : N) : Prop :=
  (48 <= c <= 57 \/ 65 <= c <= 70)%N.
Definition upperHexDigitValue (c : N) : N :=
  if N.leb c 57 then (c - 48)%N else (c - 55)%N.
Definition upperHexValue (s : jsstring) : N :=
  foldl (fun v c => v * 16 + upperHexDigitValue c)%N 0%N s.

(** [s] is the uppercase hexadecimal rendering of [z]: hexadecimal digits
    0-9 and A-F, no leading zero except for zero itself, value [z]. *)
Definition upperHexOf (z : Z) (s : jsstring) : Prop :=
  Forall isUpperHexDigit s /\ Z.of_N (upperHexValue s) = z
  /\ (head s = Some 48%N -> s = [48%N]) /\ s <> [].

(** The result the specification describes for a rendering [digits]:
    zero-padded on the left to 6 characters, cut to the first 6. *)
Definition padAndCut6 (digits : jsstring) : jsstring :=
  take 6 (replicate (6 - length digits) 48%N ++ digits).


(** ** Concrete runs *)

(** A signal that is never aborted. *)
Definition neverAborted : AbortSignal := fun _ => false.

(** [createToolWithMap] of the unit tests: the read tool answers from a
    table keyed by path and throws for a path without an entry. *)
Fixpoint stubLookup (table : list (jsstring * Result ReadToolResult.t))
    (path : jsstring) : Result ReadToolResult.t :=
  match table with
  | [] => Throw (js "No stub for path: " ++ path)
  | (key, outcome) :: table' =>
      if decide (key = path) then outcome else stubLookup table' path
  end.

Definition createToolWithMap (table : list (jsstring * Result ReadToolResult.t))
    : ReadTool :=
  fun _ input => stubLookup table input.(ReadToolInput.path).

Definition textResult (text : jsstring) : Result ReadToolResult.t :=
  Ok {| ReadToolResult.content := [TextContent text];
        ReadToolResult.truncation := None |}.

Definition requestFor (path : string) : FileRequest.t :=
  {| FileRequest.path := js path; FileRequest.offset := None; FileRequest.limit := None |}.

(** [count] lines [x], joined by line feeds. *)
Definition manyLines (count : nat) : jsstring :=
  join [LF] (replicate count (js "x")).

(** Three candidates, the middle one too large for the small host. *)
Definition threeCandidates : list FileCandidate.t :=
  [ makeCandidate (js "/a") (js "small-a") true 0 None;
    makeCandidate (js "/b") (replicate 200 72%N) true 1 None;
    makeCandidate (js "/c") (js "small-c") true 2 None ].

(** One candidate of thirty lines, with its body for a partial section. *)
Definition longCandidate : list FileCandidate.t :=
  [ {| FileCandidate.index := 0;
       FileCandidate.path := js "/long";
       FileCandidate.ok := true;
       FileCandidate.fullText := formatContentBlock (js "/long") (manyLines 30) 1;
       FileCandidate.fullMetrics :=
         measureText (formatContentBlock (js "/long") (manyLines 30) 1);
       FileCandidate.body := Some (manyLines 30) |} ].

(** A plan that fully includes the positions 0 and 2. *)
Definition planZeroAndTwo : PackingPlan.t :=
  {| PackingPlan.strategy := SmallestFirst;
     PackingPlan.fullIncluded := {[ 0%nat; 2%nat ]};
     PackingPlan.partialSection := None;
     PackingPlan.omittedIndexes := [1%nat];
     PackingPlan.usedBytes := 16;
     PackingPlan.usedLines := 3;
     PackingPlan.sectionCount := 2;
     PackingPlan.fullCount := 2;
     PackingPlan.fullSuccessCount := 2 |}.

(** A large file followed by two small ones. *)
Definition largeThenSmall : ReadTool :=
  createToolWithMap
    [ (js "/a", textResult (manyLines 20));
      (js "/b", textResult (js "small-b"));
      (js "/c", textResult (js "small-c")) ].

Definition largeThenSmallParams : ReadManyInput.t :=
  {| ReadManyInput.files := [requestFor "/a"; requestFor "/b"; requestFor "/c"];
     ReadManyInput.stopOnError := None |}.

(** A good file, a failing one, and one more. *)
Definition goodBadGood : ReadTool :=
  createToolWithMap
    [ (js "/good", textResult (js "ok"));
      (js "/bad", Throw (js "boom"));
      (js "/more", textResult (js "more")) ].

Definition goodBadGoodFiles : list FileRequest.t :=
  [requestFor "/good"; requestFor "/bad"; requestFor "/more"].

(** A read that fails with a message of two thousand line feeds. *)
Definition longErrorTool : ReadTool :=
  fun _ _ => Throw (replicate 2000 LF).

Definition longErrorParams : ReadManyInput.t :=
  {| ReadManyInput.files := [requestFor "/bad"];
     ReadManyInput.stopOnError := None |}.

(** A good file with an image, for the image summary. *)
Definition imageTool : ReadTool :=
  createToolWithMap
    [ (js "/img",
       Ok {| ReadToolResult.content :=
               [TextContent (js "Read image file [image/png]");
                ImageContent (js "abc") (js "image/png")];
             ReadToolResult.truncation := None |}) ].

(** A large file followed by two failing reads. *)
Definition largeThenErrors : ReadTool :=
  createToolWithMap
    [ (js "/a", textResult (manyLines 20));
      (js "/e1", Throw (js "missing e1"));
      (js "/e2", Throw (js "missing e2")) ].

Definition goodBadGoodParams : ReadManyInput.t :=
  {| ReadManyInput.files := goodBadGoodFiles; ReadManyInput.stopOnError := None |}.

(** A small file, a failed read with a long message, and a long file. *)
Definition smallErrorLong : list FileCandidate.t :=
  [ makeCandidate (js "/a") (formatContentBlock (js "/a") (js "small-a") 1) true 0
      (Some (js "small-a"));
    makeCandidate (js "/e")
      (formatContentBlock (js "/e") (js "[Error: " ++ replicate 200 72%N ++ js "]") 2)
      false 1 None;
    makeCandidate (js "/long") (formatContentBlock (js "/long") (manyLines 30) 3) true 2
      (Some (manyLines 30)) ].

(** A small file followed by three long ones. *)
Definition smallThenLarge : ReadTool :=
  createToolWithMap
    [ (js "/s", textResult (js "small-s"));
      (js "/l", textResult (manyLines 20));
      (js "/m", textResult (manyLines 15));
      (js "/n", textResult (manyLines 16)) ].

Definition smallThenLargeParams : ReadManyInput.t :=
  {| ReadManyInput.files :=
       [requestFor "/s"; requestFor "/l"; requestFor "/m"; requestFor "/n"];
     ReadManyInput.stopOnError := None |}.

(** ** Names for parts of the code the further properties speak of *)

(** The [word] of [pickDelimiter]: the dictionary word of the position,
    or [FILE<index>] outside the dictionary. *)
Definition delimiterWord (index : Z) : jsstring :=
  match arrayGet DELIMITER_WORDS (index - 1) with
  | Some w => w
  | None => js "FILE" ++ numberToString index
  end.

(** The [base] of [pickDelimiter], [`${word}_${index}_${hash}`]. *)
Definition delimiterBase (path : jsstring) (index : Z) : jsstring :=
  delimiterWord index ++ js "_" ++ numberToString index ++ js "_" ++ createPathHash path.

(** How many line feeds a text holds. *)
Definition countLF (text : jsstring) : nat :=
  length (filter (fun c => c = LF) text).

(** The [fallbackBase] of [pickDelimiter],
    [`${base}_${content.length.toString(36).toUpperCase()}`]. *)
Definition delimiterFallback (path : jsstring) (index : Z) (content : jsstring) : jsstring :=
  delimiterBase path index ++ js "_"
    ++ toUpperCase (toStringRadix 36 (N.of_nat (length content))).

(** [`${base}_${suffix}`]. *)
Definition suffixed (base : jsstring) (suffix : Z) : jsstring :=
  base ++ js "_" ++ numberToString suffix.

(** A text of ASCII characters only. *)
Definition asciiChars (s : jsstring) : Prop := Forall (fun c => c < 128)%N s.

#[local] Instance asciiChars_dec s : Decision (asciiChars s).
Proof. unfold asciiChars. apply _. Defined.

(** How many partial sections a plan holds: one or none. *)
Definition partialCount (partialSection : option PackedSection.t) : nat :=
  match partialSection with Some _ => 1 | None => 0 end.

(** The order of the smallest-first sort: fewer bytes first, then fewer
    lines, then the earlier position. *)
Definition smallerOrEarlier (candidates : list FileCandidate.t) (a b : nat) : Prop :=
  let ma := fullMetricsAt candidates a in
  let mb := fullMetricsAt candidates b in
  ma.(bytes) < mb.(bytes) \/
  (ma.(bytes) = mb.(bytes) /\
   (ma.(lines) < mb.(lines) \/ (ma.(lines) = mb.(lines) /\ (a <= b)%nat))).

(** ** What the read loop records for one file *)

(** Whether a read returned. *)
Definition succeeded {A} (outcome : Result A) : bool :=
  match outcome with Ok _ => true | Throw _ => false end.

(** The body of the block of a read: that of a successful read, the
    framed message of a failed one. *)
Definition blockBodyOf (outcome : Result ReadToolResult.t) : jsstring :=
  match outcome with
  | Ok result => bodyOf result.(ReadToolResult.content)
  | Throw message => js "[Error: " ++ message ++ js "]"
  end.

(** The full block of the file at position [i]. *)
Definition blockOf (readTool : ReadTool) (i : nat) (request : FileRequest.t) : jsstring :=
  formatContentBlock request.(FileRequest.path)
    (blockBodyOf (readTool i (inputOf request))) (Z.of_nat i + 1).

(** The candidate of the file at position [i]. *)
Definition candidateOf (readTool : ReadTool) (i : nat) (request : FileRequest.t)
    : FileCandidate.t :=
  {| FileCandidate.index := i;
     FileCandidate.path := request.(FileRequest.path);
     FileCandidate.ok := succeeded (readTool i (inputOf request));
     FileCandidate.fullText := blockOf readTool i request;
     FileCandidate.fullMetrics := measureText (blockOf readTool i request);
     FileCandidate.body :=
       match readTool i (inputOf request) with
       | Ok result => Some (bodyOf result.(ReadToolResult.content))
       | Throw _ => None
       end |}.

(** The detail record of the file at position [i]. *)
Definition detailOf (readTool : ReadTool) (i : nat) (request : FileRequest.t)
    : ReadManyFileDetail.t :=
  match readTool i (inputOf request) with
  | Ok result =>
      {| ReadManyFileDetail.path := request.(FileRequest.path);
         ReadManyFileDetail.ok := true;
         ReadManyFileDetail.error := None;
         ReadManyFileDetail.imageCount :=
           Some (imageCountOf result.(ReadToolResult.content));
         ReadManyFileDetail.truncation := result.(ReadToolResult.truncation) |}
  | Throw message =>
      {| ReadManyFileDetail.path := request.(FileRequest.path);
         ReadManyFileDetail.ok := false;
         ReadManyFileDetail.error := Some message;
         ReadManyFileDetail.imageCount := None;
         ReadManyFileDetail.truncation := None |}
  end.

(** The read call made for the file at position [i]. *)
Definition readCallOf (i : nat) (request : FileRequest.t) : nat * ReadToolInput.t :=
  (i, inputOf request).

(** The read loop, started at position [i] on the files [rest], comes
    to the file [k] places on and finds the signal aborted there: the
    signal was live at every file before it and, with [stopOnError] set,
    every read before it succeeded. *)
Definition abortPoint (readTool : ReadTool) (aborted : AbortSignal)
    (stopOnError : option bool) (i : nat) (rest : list FileRequest.t) (k : nat) : Prop :=
  (k < length rest)%nat /\
  aborted (i + k)%nat = true /\
  (forall j, (j < k)%nat -> aborted (i + j)%nat = false) /\
  (default false stopOnError = true ->
   forall j request, (j < k)%nat -> rest !! j = Some request ->
     succeeded (readTool (i + j)%nat (inputOf request)) = true).

(** ** Proof steps that recur *)

(** Case analysis on every [>?] test in sight. *)
Ltac case_gtb :=
  repeat match goal with
         | |- context [?a >? ?b] => destruct (Z.gtb_spec a b)
         | H : context [?a >? ?b] |- _ => destruct (Z.gtb_spec a b)
         end;
  cbn [andb] in *.

(** One more iteration in front of what the rest of the read loop
    recorded; [imap_shift] is the lemma that moves [imap] past the first
    element. *)
Ltac glue_records imap_shift Hc Hd Hr Hread :=
  cbn [recordSuccess recordFailure candidates fileDetails reads] in Hc, Hd, Hr;
  rewrite Hc, Hd, Hr, <- !app_assoc; cbn [take]; rewrite !imap_shift;
  unfold candidateOf, detailOf, blockOf, readCallOf, blockBodyOf, succeeded;
  rewrite Hread; do 3 (split; [done|]).
(** ** The embedding on the inputs of the unit tests *)

Example createPathHash_empty : createPathHash (js "") = js "001505".
Proof. vm_compute. reflexivity. Qed.

Example createPathHash_a : createPathHash (js "a") = js "02B606".
Proof. vm_compute. reflexivity. Qed.

Example toStringRadix_36 : toUpperCase (toStringRadix 36 1295) = js "ZZ".
Proof. vm_compute. reflexivity. Qed.

Example numberToString_ex :
  numberToString 1024 = js "1024" /\ numberToString (-7) = js "-7"
  /\ numberToString 0 = js "0".
Proof. vm_compute. auto. Qed.

Example split_ex : split LF (js "a" ++ [LF] ++ js "b" ++ [LF]) = [js "a"; js "b"; js ""].
Proof. vm_compute. reflexivity. Qed.

Example pickDelimiter_plain :
  pickDelimiter (js "a") 1 (js "hello") = js "PINE_1_02B606".
Proof. vm_compute. reflexivity. Qed.

Example pickDelimiter_collide :
  pickDelimiter (js "a") 1 (js "hello" ++ [LF] ++ js "PINE_1_02B606" ++ [CR; LF] ++ js "x")
  = js "PINE_1_02B606_1".
Proof. vm_compute. reflexivity. Qed.

Example pickDelimiter_27 :
  pickDelimiter (js "a") 27 (js "hello") = js "FILE27_27_02B606".
Proof. vm_compute. reflexivity. Qed.

Example formatContentBlock_ex :
  formatContentBlock (js "a") (js "x") 1
  = js "@a" ++ [LF] ++ js "<<'PINE_1_02B606'" ++ [LF] ++ js "x" ++ [LF] ++ js "PINE_1_02B606".
Proof. vm_compute. reflexivity. Qed.


Example measureText_ex :
  measureText (js "") = {| bytes := 0; lines := 1 |}
  /\ measureText (js "a" ++ [LF]) = {| bytes := 2; lines := 2 |}
  /\ measureText [233%N; 8364%N; 55357%N; 56832%N; 55357%N]
     = {| bytes := 2 + 3 + 4 + 3; lines := 1 |}.
Proof. vm_compute. auto. Qed.

(** "formats heredoc blocks with matching closing delimiter". *)
Example formatContentBlock_test :
  split LF (formatContentBlock (js "/tmp/file.txt") (js "line 1" ++ [LF] ++ js "line 2") 3)
  = [js "@/tmp/file.txt"; js "<<'ORBIT_3_D5AF90'"; js "line 1"; js "line 2";
     js "ORBIT_3_D5AF90"].
Proof. vm_compute. reflexivity. Qed.

(** * Properties *)

(** ** Lines and bytes *)

Lemma split_nonempty sep s : split sep s <> [].
Proof. destruct s as [|c s]; cbn; [done|]. destruct (N.eqb c sep); [done|]. by destruct (split sep s). Qed.

(** Splitting at a separator splits the list of lines. *)
Lemma split_app_sep sep a b :
  split sep (a ++ sep :: b) = split sep a ++ split sep b.
Proof.
  induction a as [|c a IH].
  - cbn. by rewrite N.eqb_refl.
  - cbn [app split]. rewrite IH. destruct (N.eqb c sep); [done|].
    destruct (split sep a) eqn:Ha; [by apply split_nonempty in Ha|done].
Qed.

Lemma split_single sep a : sep ∉ a -> split sep a = [a].
Proof.
  induction a as [|c a IH]; [done|]. intros Hnin.
  apply not_elem_of_cons in Hnin as [Hne Hnin]. cbn [split].
  destruct (N.eqb_spec c sep); [done|]. by rewrite IH.
Qed.

Lemma join_cons_cons sep x y rest :
  join sep (x :: y :: rest) = x ++ sep ++ join sep (y :: rest).
Proof. done. Qed.

Lemma join_split sep s : join [sep] (split sep s) = s.
Proof.
  induction s as [|c s IH]; [done|]. cbn [split].
  destruct (N.eqb_spec c sep) as [->|Hne].
  - destruct (split sep s) as [|l ls] eqn:Hs; [by apply split_nonempty in Hs|].
    rewrite join_cons_cons, IH. done.
  - destruct (split sep s) as [|l ls] eqn:Hs; [by apply split_nonempty in Hs|].
    destruct ls as [|l' ls]; [cbn in *; by rewrite IH|].
    rewrite join_cons_cons in *. by rewrite <- IH.
Qed.

(** A character of the ASCII range costs one byte wherever it stands, and
    cuts the text in two parts that are measured on their own. *)
Lemma utf8From_app_ascii pendingHigh a c b :
  (c < 128)%N ->
  utf8From pendingHigh (a ++ c :: b) = utf8From pendingHigh a + 1 + utf8From false b.
Proof.
  intros Hc. revert pendingHigh. induction a as [|x a IH]; intros pendingHigh.
  - cbn [app utf8From]. unfold isLowSurrogate.
    destruct (N.leb_spec 56320 c); [lia|]. rewrite andb_false_r.
    destruct (N.ltb_spec c 128); lia.
  - cbn [app utf8From].
    repeat match goal with |- context [if ?b then _ else _] => destruct b end;
      rewrite IH; lia.
Qed.

Lemma byteLength_app_LF a b :
  byteLength (a ++ LF :: b) = byteLength a + 1 + byteLength b.
Proof. apply utf8From_app_ascii. done. Qed.
(** ** Number rendering *)

Lemma digitsLE_value fuel radix n :
  (2 <= radix)%N -> (n < 2 ^ N.of_nat fuel)%N ->
  digitsValue radix (digitsLE fuel radix n) = n.
Proof.
  intros Hr. revert n. induction fuel as [|fuel IH]; intros n Hn.
  - cbn in Hn. assert (n = 0%N) as -> by lia.
    cbn [digitsLE digitsValue]. rewrite N.Div0.mod_0_l. lia.
  - cbn [digitsLE]. destruct (N.ltb_spec n radix) as [Hlt|Hge].
    + cbn. lia.
    + cbn [digitsValue]. rewrite IH.
      * pose proof (N.div_mod n radix ltac:(lia)). lia.
      * rewrite Nat2N.inj_succ, N.pow_succ_r' in Hn.
        apply N.Div0.div_lt_upper_bound. nia.
Qed.

Lemma digitsLE_bound fuel radix n d :
  (0 < radix)%N -> d ∈ digitsLE fuel radix n -> (d < radix)%N.
Proof.
  intros Hr. revert n. induction fuel as [|fuel IH]; intros n; cbn [digitsLE].
  - intros ->%list_elem_of_singleton. apply N.mod_lt. lia.
  - destruct (N.ltb_spec n radix) as [Hlt|Hge].
    + intros ->%list_elem_of_singleton. exact Hlt.
    + intros [->|Hin]%elem_of_cons; [apply N.mod_lt; lia | eauto].
Qed.

Lemma digitsLE_nonempty fuel radix n : digitsLE fuel radix n <> [].
Proof. destruct fuel; cbn; [|destruct (N.ltb n radix)]; discriminate. Qed.

Lemma size_nat_bound n : (n < 2 ^ N.of_nat (N.size_nat n))%N.
Proof.
  destruct n as [|p]; [cbn; lia|].
  cbn [N.size_nat]. induction p as [p IH|p IH|]; cbn [Pos.size_nat].
  - rewrite Nat2N.inj_succ, N.pow_succ_r'. lia.
  - rewrite Nat2N.inj_succ, N.pow_succ_r'. lia.
  - cbn. lia.
Qed.

Lemma digitChar_inj radix d d' :
  (radix <= 36)%N -> (d < radix)%N -> (d' < radix)%N ->
  digitChar d = digitChar d' -> d = d'.
Proof.
  unfold digitChar. intros.
  destruct (N.ltb_spec d 10), (N.ltb_spec d' 10); lia.
Qed.

Lemma digitChar_ge d : (48 <= digitChar d)%N.
Proof. unfold digitChar. destruct (N.ltb d 10); lia. Qed.

Lemma toStringRadix_inj radix n m :
  (2 <= radix <= 36)%N ->
  toStringRadix radix n = toStringRadix radix m -> n = m.
Proof.
  intros Hr Heq. unfold toStringRadix in Heq.
  assert (digitsLE (N.size_nat n) radix n = digitsLE (N.size_nat m) radix m) as Hd.
  { apply (inj reverse).
    assert (forall ds ds' : list N,
               Forall (fun d => d < radix)%N ds -> Forall (fun d => d < radix)%N ds' ->
               digitChar <$> ds = digitChar <$> ds' -> ds = ds') as Hmap.
    { induction ds as [|d ds IH]; intros [|d' ds'] H1 H2 H; try discriminate; [done|].
      cbn in H. injection H as Hd Hds.
      apply Forall_cons in H1 as [? ?]. apply Forall_cons in H2 as [? ?].
      f_equal; [eapply digitChar_inj; eauto; lia | eauto]. }
    apply Hmap; [| |exact Heq];
      apply Forall_reverse, Forall_forall; intros d Hd;
      eapply digitsLE_bound; eauto; lia. }
  rewrite <- (digitsLE_value (N.size_nat n) radix n), <- (digitsLE_value (N.size_nat m) radix m);
    try lia; try apply size_nat_bound.
  by rewrite Hd.
Qed.

Lemma numberToString_inj x y :
  0 <= x -> 0 <= y -> numberToString x = numberToString y -> x = y.
Proof.
  unfold numberToString. intros Hx Hy.
  destruct (Z.ltb_spec x 0); [lia|]. destruct (Z.ltb_spec y 0); [lia|].
  intros Heq%toStringRadix_inj; lia.
Qed.

Lemma tokenChars_app s t : tokenChars s -> tokenChars t -> tokenChars (s ++ t).
Proof. apply Forall_app_2. Qed.

Lemma tokenChars_toStringRadix radix n : tokenChars (toStringRadix radix n).
Proof.
  unfold tokenChars, toStringRadix. apply Forall_fmap, Forall_forall.
  intros d _. pose proof (digitChar_ge d). unfold compose. lia.
Qed.

Lemma tokenChars_toUpperCase s : tokenChars s -> tokenChars (toUpperCase s).
Proof.
  unfold tokenChars, toUpperCase. intros H. apply Forall_fmap.
  eapply Forall_impl; [exact H|]. intros c Hc. unfold compose. cbn beta in *.
  destruct (N.leb_spec 97 c), (N.leb_spec c 122); cbn [andb]; lia.
Qed.

Lemma tokenChars_numberToString z : tokenChars (numberToString z).
Proof.
  unfold numberToString. destruct (z <? 0); [apply tokenChars_app|];
    try apply tokenChars_toStringRadix.
  repeat constructor. cbn. lia.
Qed.

Lemma tokenChars_no_LF s : tokenChars s -> LF ∉ s.
Proof.
  unfold tokenChars. rewrite Forall_forall. intros H Hin.
  apply H in Hin. unfold LF in Hin. lia.
Qed.


(** ** createPathHash against the specification's wording *)

Lemma toInt32_congr z : exists k, toInt32 z = z + k * 2 ^ 32.
Proof.
  unfold toInt32, toUint32. change (2 ^ 32) with 4294967296.
  change (2 ^ 31) with 2147483648.
  pose proof (Z.div_mod z 4294967296 ltac:(lia)) as Hdm.
  destruct (Z.ltb (z mod 4294967296) 2147483648).
  - exists (- (z / 4294967296)). lia.
  - exists (- (z / 4294967296) - 1). lia.
Qed.

Lemma hashStep_spec hash charCode :
  hashStep hash charCode = (hash * 33 + Z.of_N charCode) mod 2 ^ 32.
Proof.
  unfold hashStep, ushr0, shl32.
  change (toUint32 5 mod 32) with 5.
  destruct (toInt32_congr hash) as [k1 Hk1].
  destruct (toInt32_congr (Z.shiftl (toInt32 hash) 5)) as [k2 Hk2].
  rewrite Hk2, Z.shiftl_mul_pow2, Hk1 by lia. unfold toUint32.
  replace ((hash + k1 * 2 ^ 32) * 2 ^ 5 + k2 * 2 ^ 32 + hash + Z.of_N charCode)
    with (hash * 33 + Z.of_N charCode + (k1 * 2 ^ 5 + k2) * 2 ^ 32) by lia.
  apply Z_mod_plus_full.
Qed.

Lemma hashLoop_spec path : hashLoop 5381 path = rollingHash path.
Proof.
  unfold hashLoop, rollingHash. generalize 5381.
  induction path as [|c path IH]; intros h; cbn [foldl]; [done|].
  by rewrite hashStep_spec, IH.
Qed.

Lemma rollingHash_range path : 0 <= rollingHash path < 2 ^ 32.
Proof.
  unfold rollingHash.
  assert (forall h, 0 <= h < 2 ^ 32 ->
    0 <= foldl (fun hash charCode => (hash * 33 + Z.of_N charCode) mod 2 ^ 32) h path < 2 ^ 32)
    as H.
  { induction path as [|c path IH]; intros h Hh; cbn [foldl]; [done|].
    apply IH, Z.mod_pos_bound. lia. }
  apply H. lia.
Qed.

Lemma digitsLE_leading fuel radix n :
  (2 <= radix)%N -> (n < 2 ^ N.of_nat fuel)%N ->
  last (digitsLE fuel radix n) = Some 0%N -> digitsLE fuel radix n = [0%N].
Proof.
  intros Hr. revert n. induction fuel as [|fuel IH]; intros n Hn.
  - cbn in Hn. assert (n = 0%N) as -> by lia.
    cbn [digitsLE]. rewrite N.Div0.mod_0_l. done.
  - cbn [digitsLE]. destruct (N.ltb_spec n radix) as [Hlt|Hge].
    + cbn. by intros [= ->].
    + rewrite last_cons.
      destruct (last (digitsLE fuel radix (n `div` radix))) as [d|] eqn:Hlast.
      * intros [= ->]. apply IH in Hlast.
        -- assert (digitsValue radix (digitsLE fuel radix (n `div` radix)) = 0%N) as Hv
             by (rewrite Hlast; cbn; lia).
           rewrite digitsLE_value in Hv; [| lia |].
           ++ apply N.div_small_iff in Hv; lia.
           ++ rewrite Nat2N.inj_succ, N.pow_succ_r' in Hn.
              apply N.Div0.div_lt_upper_bound. nia.
        -- rewrite Nat2N.inj_succ, N.pow_succ_r' in Hn.
           apply N.Div0.div_lt_upper_bound. nia.
      * apply last_None in Hlast. by apply digitsLE_nonempty in Hlast.
Qed.

Lemma upperHexValue_snoc s c :
  upperHexValue (s ++ [c]) = (upperHexValue s * 16 + upperHexDigitValue c)%N.
Proof. unfold upperHexValue. by rewrite foldl_app. Qed.

Lemma upperHex_digit d :
  (d < 16)%N ->
  let c := (if (N.leb 97 (digitChar d) && N.leb (digitChar d) 122)%N
            then (digitChar d - 32)%N else digitChar d) in
  isUpperHexDigit c /\ upperHexDigitValue c = d /\ (c = 48%N -> d = 0%N).
Proof.
  intros Hd. unfold digitChar, isUpperHexDigit, upperHexDigitValue.
  destruct (N.ltb_spec d 10).
  - destruct (N.leb_spec 97 (48 + d)); cbn [andb]; [lia|].
    cbn zeta. destruct (N.leb_spec (48 + d) 57); lia.
  - destruct (N.leb_spec 97 (87 + d)); [|lia].
    destruct (N.leb_spec (87 + d) 122); [|lia]. cbn [andb]. cbn zeta.
    destruct (N.leb_spec (87 + d - 32) 57); lia.
Qed.

Lemma upperHexOf_toString n :
  upperHexOf (Z.of_N n) (toUpperCase (toStringRadix 16 n)).
Proof.
  unfold toStringRadix, toUpperCase.
  pose proof (digitsLE_value (N.size_nat n) 16 n ltac:(lia) (size_nat_bound n)) as Hval.
  pose proof (digitsLE_leading (N.size_nat n) 16 n ltac:(lia) (size_nat_bound n)) as Hlead.
  pose proof (digitsLE_nonempty (N.size_nat n) 16 n) as Hne.
  assert (Forall (fun d => d < 16)%N (digitsLE (N.size_nat n) 16 n)) as Hb.
  { apply Forall_forall. intros d Hd. eapply digitsLE_bound; eauto. lia. }
  revert Hval Hlead Hne Hb. generalize (digitsLE (N.size_nat n) 16 n) as ds.
  intros ds Hval Hlead Hne Hb. rewrite <- list_fmap_compose.
  set (up := _ ∘ digitChar).
  assert (forall d, (d < 16)%N ->
            isUpperHexDigit (up d) /\ upperHexDigitValue (up d) = d
            /\ (up d = 48%N -> d = 0%N)) as Hup
    by (intros d Hd; apply (upperHex_digit d Hd)).
  clearbody up. repeat split.
  - apply Forall_fmap, Forall_reverse. eapply Forall_impl; [exact Hb|].
    intros d Hd. by apply Hup.
  - f_equal. rewrite <- Hval. clear Hval Hlead Hne.
    induction ds as [|d ds IH]; [done|].
    apply Forall_cons in Hb as [Hd Hds].
    rewrite reverse_cons, fmap_app. change (up <$> [d]) with [up d].
    rewrite upperHexValue_snoc. cbn [digitsValue].
    rewrite IH by done. destruct (Hup d Hd) as (_ & -> & _). lia.
  - assert (head (up <$> reverse ds) = up <$> last ds) as ->.
    { rewrite <- head_reverse. by destruct (reverse ds). }
    destruct (last ds) as [d|] eqn:Hlast; [|done].
    cbn. intros [= H0].
    assert (d ∈ ds) as Hin by (by apply last_Some_elem_of).
    rewrite Forall_forall in Hb. destruct (Hup d (Hb d Hin)) as (_ & _ & Hz).
    pose proof (Hz H0) as ->. rewrite (Hlead eq_refl). cbn.
    by rewrite H0.
  - intros H%fmap_nil_inv. apply (f_equal reverse) in H.
    rewrite reverse_involutive in H. done.
Qed.

(** C10. [createPathHash path] is the rolling hash the specification
    describes (seed 5381, step [hash * 33 + charCode] modulo 2^32), written
    in uppercase hexadecimal, zero-padded on the left to 6 characters and cut
    to the first 6 characters. *)
Theorem createPathHash_spec (path : jsstring) :
  exists digits,
    upperHexOf (rollingHash path) digits /\
    createPathHash path = padAndCut6 digits.
Proof.
  exists (toUpperCase (toStringRadix 16 (Z.to_N (rollingHash path)))). split.
  - pose proof (rollingHash_range path).
    rewrite <- (Z2N.id (rollingHash path)) at 1 by lia.
    apply upperHexOf_toString.
  - unfold createPathHash, padAndCut6, padStart0. by rewrite hashLoop_spec.
Qed.

(** ** Shape of the delimiters *)

(** A token is not changed by stripping a trailing carriage return. *)
Lemma stripCR_token s : tokenChars s -> stripCR s = s.
Proof.
  intros Hs. unfold stripCR. destruct (last s) as [c|] eqn:Hlast; [|done].
  destruct (N.eqb_spec c CR) as [->|]; [|done].
  apply last_Some_elem_of in Hlast. unfold tokenChars in Hs.
  rewrite Forall_forall in Hs. apply Hs in Hlast. unfold CR in Hlast. lia.
Qed.

Lemma createPathHash_length path : length (createPathHash path) = 6%nat.
Proof.
  unfold createPathHash, padStart0.
  rewrite length_take, length_app, length_replicate. lia.
Qed.

Lemma tokenChars_createPathHash path : tokenChars (createPathHash path).
Proof.
  unfold createPathHash, padStart0. apply Forall_take, Forall_app. split.
  - apply Forall_replicate. lia.
  - apply tokenChars_toUpperCase, tokenChars_toStringRadix.
Qed.

Lemma tokenChars_js_token (s : string) :
  bool_decide (tokenChars (js s)) = true -> tokenChars (js s).
Proof. intros H. by apply bool_decide_eq_true in H. Qed.

Lemma tokenChars_word index :
  tokenChars (match arrayGet DELIMITER_WORDS (index - 1) with
              | Some w => w
              | None => js "FILE" ++ numberToString index
              end).
Proof.
  destruct (arrayGet DELIMITER_WORDS (index - 1)) as [w|] eqn:Hw.
  - assert (Forall tokenChars DELIMITER_WORDS) as Hall
      by (apply (bool_decide_eq_true (Forall tokenChars DELIMITER_WORDS));
          vm_compute; reflexivity).
    rewrite Forall_forall in Hall. apply Hall.
    unfold arrayGet in Hw. destruct (index - 1 <? 0); [discriminate|].
    by eapply list_elem_of_lookup_2.
  - apply tokenChars_app; [|apply tokenChars_numberToString].
    by apply (tokenChars_js_token "FILE").
Qed.

(** ** The probing loops *)

Lemma has_true lineSet token : has lineSet token = true <-> token ∈ lineSet.
Proof. unfold has. apply bool_decide_eq_true. Qed.

Lemma has_false lineSet token : has lineSet token = false <-> token ∉ lineSet.
Proof. unfold has. apply bool_decide_eq_false. Qed.

(** What a returning loop returns: the first free candidate. *)
Lemma probeSuffixes_Some iterations lineSet base attempt d :
  probeSuffixes iterations lineSet base attempt = Some d ->
  exists k : nat, (k < iterations)%nat /\
    d = base ++ js "_" ++ numberToString (attempt + Z.of_nat k) /\
    (d ∉ lineSet) /\
    forall i : nat, (i < k)%nat ->
      base ++ js "_" ++ numberToString (attempt + Z.of_nat i) ∈ lineSet.
Proof.
  revert attempt. induction iterations as [|n IH]; intros attempt; cbn [probeSuffixes];
    [discriminate|].
  destruct (has lineSet (base ++ js "_" ++ numberToString attempt)) eqn:Hhas; cbn [negb].
  - intros (k & Hk & -> & Hfree & Hbusy)%IH. exists (S k).
    split; [lia|]. split; [f_equal; f_equal; f_equal; lia|]. split; [done|].
    intros [|i] Hi.
    + rewrite Z.add_0_r. by apply has_true.
    + replace (attempt + Z.of_nat (S i)) with (attempt + 1 + Z.of_nat i) by lia.
      apply Hbusy. lia.
  - intros [= <-]. exists 0%nat. rewrite Z.add_0_r.
    split; [lia|]. split; [done|]. split; [by apply has_false|]. lia.
Qed.

(** A loop that used up its iterations found every candidate taken. *)
Lemma probeSuffixes_None iterations lineSet base attempt :
  probeSuffixes iterations lineSet base attempt = None ->
  forall i : nat, (i < iterations)%nat ->
    base ++ js "_" ++ numberToString (attempt + Z.of_nat i) ∈ lineSet.
Proof.
  revert attempt. induction iterations as [|n IH]; intros attempt; cbn [probeSuffixes];
    [lia|].
  destruct (has lineSet (base ++ js "_" ++ numberToString attempt)) eqn:Hhas; cbn [negb];
    [|discriminate].
  intros Hnone [|i] Hi.
  - rewrite Z.add_0_r. by apply has_true.
  - replace (attempt + Z.of_nat (S i)) with (attempt + 1 + Z.of_nat i) by lia.
    apply IH; [done|lia].
Qed.

(** More iterations do not change what a returning loop returns. *)
Lemma probeSuffixes_more iterations extra lineSet base attempt d :
  probeSuffixes iterations lineSet base attempt = Some d ->
  probeSuffixes (iterations + extra) lineSet base attempt = Some d.
Proof.
  revert attempt. induction iterations as [|n IH]; intros attempt; cbn [probeSuffixes Nat.add];
    [discriminate|].
  destruct (negb (has lineSet (base ++ js "_" ++ numberToString attempt))); [done|].
  apply IH.
Qed.

(** The candidates [base_a], [base_(a+1)], ... are pairwise different, so
    a finite set cannot hold more of them than it has elements. *)
Lemma probeSuffixes_finds lineSet base attempt :
  0 <= attempt ->
  is_Some (probeSuffixes (S (size lineSet)) lineSet base attempt).
Proof.
  intros Ha.
  destruct (probeSuffixes (S (size lineSet)) lineSet base attempt) eqn:Hp; [by eexists|].
  exfalso.
  pose proof (probeSuffixes_None _ _ _ _ Hp) as Hall.
  set (cand := fun i : nat => base ++ js "_" ++ numberToString (attempt + Z.of_nat i)).
  assert (NoDup (cand <$> seq 0 (S (size lineSet)))) as Hnd.
  { apply NoDup_fmap_2_strong; [|apply NoDup_seq].
    intros i j _ _ Heq. unfold cand in Heq.
    apply app_inv_head, app_inv_head, numberToString_inj in Heq; lia. }
  assert (list_to_set (cand <$> seq 0 (S (size lineSet))) ⊆ lineSet) as Hsub.
  { intros x [i [-> Hi%elem_of_seq]]%elem_of_list_to_set%list_elem_of_fmap.
    apply Hall. lia. }
  apply subseteq_size in Hsub.
  rewrite size_list_to_set, length_fmap, length_seq in Hsub by done. lia.
Qed.

(** ** pickDelimiter *)

Lemma elem_of_buildLineSet content token :
  token ∈ buildLineSet content <->
  exists line, line ∈ split LF content /\ token = stripCR line.
Proof.
  unfold buildLineSet.
  assert (forall (ls : list jsstring) (acc : gset jsstring),
    token ∈ foldl (fun set line => {[ stripCR line ]} ∪ set) acc ls <->
    token ∈ acc \/ exists line, line ∈ ls /\ token = stripCR line) as H.
  { induction ls as [|l ls IH]; intros acc; cbn [foldl].
    - setoid_rewrite elem_of_nil. split; [auto|]. by intros [?|(? & [] & _)].
    - rewrite IH, elem_of_union, elem_of_singleton.
      setoid_rewrite elem_of_cons.
      split; [intros [[->|?]|(x & ? & ?)] | intros [?|(x & [->|?] & ?)]]; eauto 6. }
  rewrite H. split; [intros [[]%not_elem_of_empty|?]|]; auto.
Qed.

(** Every value [pickDelimiterFuel] returns is absent from the line set
    and made of token characters. *)
Lemma pickDelimiterFuel_Some fuel path index content d :
  pickDelimiterFuel fuel path index content = Some d ->
  (d ∉ buildLineSet content) /\ tokenChars d /\ d <> [].
Proof.
  unfold pickDelimiterFuel.
  set (lineSet := buildLineSet content).
  pose proof (tokenChars_word index) as Hword.
  set (word := match arrayGet DELIMITER_WORDS (index - 1) with
               | Some w => w | None => js "FILE" ++ numberToString index end) in *.
  set (base := word ++ js "_" ++ numberToString index ++ js "_" ++ createPathHash path).
  set (fallbackBase := base ++ js "_" ++ _).
  assert (tokenChars (js "_")) as Hus by (by apply (tokenChars_js_token "_")).
  assert (tokenChars base) as Hbase.
  { unfold base. repeat apply tokenChars_app; auto using tokenChars_numberToString,
      tokenChars_createPathHash. }
  assert (tokenChars fallbackBase) as Hfallback.
  { unfold fallbackBase. apply tokenChars_app; [exact Hbase|].
    apply tokenChars_app; [exact Hus|].
    apply tokenChars_toUpperCase, tokenChars_toStringRadix. }
  assert (base <> []) as Hbne.
  { unfold base. intros H. apply (f_equal length) in H.
    rewrite !length_app, createPathHash_length in H. cbn in H. lia. }
  assert (forall n b a x, tokenChars b -> probeSuffixes n lineSet b a = Some x ->
            (x ∉ lineSet) /\ tokenChars x /\ x <> []) as Hprobe.
  { intros n b a x Hb (k & _ & -> & Hfree & _)%probeSuffixes_Some. split; [done|].
    split; [|by destruct b].
    repeat apply tokenChars_app; auto using tokenChars_numberToString. }
  destruct (has lineSet base) eqn:Hb; cbn [negb].
  2:{ intros [= <-]. split; [by apply has_false|done]. }
  destruct (probeSuffixes 256 lineSet base 1) as [c|] eqn:H256.
  { intros [= <-]. eauto. }
  destruct (has lineSet fallbackBase) eqn:Hf; cbn [negb].
  2:{ intros [= <-]. split; [by apply has_false|]. split; [done|].
      unfold fallbackBase. by destruct base. }
  eauto.
Qed.

(** With [size lineSet + 1] iterations or more for the last loop,
    [pickDelimiterFuel] returns, and returns [pickDelimiter]. *)
Lemma pickDelimiter_fuel extra path index content :
  pickDelimiterFuel (S (size (buildLineSet content)) + extra) path index content
  = Some (pickDelimiter path index content).
Proof.
  unfold pickDelimiter, pickDelimiterFuel.
  set (lineSet := buildLineSet content).
  destruct (negb (has lineSet _)); [done|].
  destruct (probeSuffixes 256 lineSet _ 1); [done|].
  destruct (negb (has lineSet _)); [done|].
  match goal with |- probeSuffixes _ _ ?b _ = _ =>
    destruct (probeSuffixes_finds lineSet b 1 ltac:(lia)) as [d Hd] end.
  rewrite Hd. cbn [default]. by apply probeSuffixes_more.
Qed.

Lemma pickDelimiter_free path index content :
  (pickDelimiter path index content ∉ buildLineSet content)
  /\ tokenChars (pickDelimiter path index content)
  /\ pickDelimiter path index content <> [].
Proof.
  eapply pickDelimiterFuel_Some. apply (pickDelimiter_fuel 0).
Qed.

(** C9. [pickDelimiter] terminates on every input.  The final
    [while (true)] loop, started at suffix 1 on any finite line set, returns
    within [size lineSet + 1] iterations a token [<fallback>_<k>] that is
    not in the set, all smaller suffixes being taken; and the whole function
    returns the same delimiter for every fuel from [size lineSet + 1] on. *)
Theorem pickDelimiter_terminates (path : jsstring) (index : Z) (content : jsstring) :
  (forall (lineSet : gset jsstring) (fallbackBase : jsstring),
     exists k : nat, (k <= size lineSet)%nat /\
       (fallbackBase ++ js "_" ++ numberToString (1 + Z.of_nat k) ∉ lineSet) /\
       (forall i : nat, (i < k)%nat ->
          fallbackBase ++ js "_" ++ numberToString (1 + Z.of_nat i) ∈ lineSet) /\
       forall extra : nat,
         probeSuffixes (S (size lineSet) + extra) lineSet fallbackBase 1
         = Some (fallbackBase ++ js "_" ++ numberToString (1 + Z.of_nat k)))
  /\
  exists d, (d ∉ buildLineSet content) /\
    forall extra : nat,
      pickDelimiterFuel (S (size (buildLineSet content)) + extra) path index content
      = Some d.
Proof.
  split.
  - intros lineSet fallbackBase.
    destruct (probeSuffixes_finds lineSet fallbackBase 1 ltac:(lia)) as [d Hd].
    destruct (probeSuffixes_Some _ _ _ _ _ Hd) as (k & Hk & -> & Hfree & Hbusy).
    exists k. split; [lia|]. split; [done|]. split; [done|].
    intros extra. by apply probeSuffixes_more.
  - exists (pickDelimiter path index content). split.
    + apply pickDelimiter_free.
    + intros extra. apply pickDelimiter_fuel.
Qed.

(** The delimiter is not among the lines of the content. *)
Lemma pickDelimiter_not_among_lines path index content :
  pickDelimiter path index content ∉ split LF content.
Proof.
  destruct (pickDelimiter_free path index content) as (Hfree & Htok & _).
  intros Hin. apply Hfree, elem_of_buildLineSet.
  exists (pickDelimiter path index content). split; [done|].
  symmetry. by apply stripCR_token.
Qed.

(** C1. For every path, every position and every content, the delimiter
    [pickDelimiter] returns is not an exact line of the content: no element
    of [content.split("\n")] equals it.  Nor does any line equal it once a
    trailing carriage return is dropped.  The delimiter is the one the
    function returns when its last loop is given [size lineSet + 1]
    iterations. *)
Theorem pickDelimiter_not_a_line (path : jsstring) (index : Z) (content : jsstring) :
  pickDelimiterFuel (S (size (buildLineSet content))) path index content
    = Some (pickDelimiter path index content) /\
  (pickDelimiter path index content ∉ split LF content) /\
  forall line, line ∈ split LF content ->
    stripCR line <> pickDelimiter path index content.
Proof.
  split; [|split].
  - pose proof (pickDelimiter_fuel 0 path index content) as Hfuel.
    by rewrite Nat.add_0_r in Hfuel.
  - apply pickDelimiter_not_among_lines.
  - intros line Hline Heq.
    destruct (pickDelimiter_free path index content) as (Hfree & _).
    apply Hfree, elem_of_buildLineSet. by exists line.
Qed.

(** ** Framed blocks *)

Lemma no_LF_js (s : string) : bool_decide (LF ∉ js s) = true -> LF ∉ js s.
Proof. intros H. by apply bool_decide_eq_true in H. Qed.

(** The lines of a block: those of the header, the opening marker, those
    of the body, the closing delimiter. *)
Lemma formatContentBlock_lines path body index :
  let delimiter := pickDelimiter path index body in
  split LF (formatContentBlock path body index)
  = split LF (js "@" ++ path) ++ [js "<<'" ++ delimiter ++ js "'"]
      ++ split LF body ++ [delimiter].
Proof.
  intros delimiter. unfold formatContentBlock. fold delimiter.
  destruct (pickDelimiter_free path index body) as (_ & Htok & _). fold delimiter in Htok.
  assert (LF ∉ delimiter) as Hd by (by apply tokenChars_no_LF).
  replace (js "@" ++ path ++ [LF] ++ js "<<'" ++ delimiter ++ js "'" ++ [LF]
             ++ body ++ [LF] ++ delimiter)
    with ((js "@" ++ path) ++ LF :: ((js "<<'" ++ delimiter ++ js "'")
             ++ LF :: (body ++ LF :: delimiter)))
    by (by rewrite <- !app_assoc).
  rewrite !split_app_sep. f_equal. f_equal; [|by rewrite (split_single LF delimiter)].
  apply split_single. rewrite !elem_of_app. intros [Hin|[Hin|Hin]]; [|done|].
  - by apply (no_LF_js "<<'") in Hin.
  - by apply (no_LF_js "'") in Hin.
Qed.

Lemma stripPrefix_app prefix s : stripPrefix prefix (prefix ++ s) = Some s.
Proof.
  unfold stripPrefix. rewrite take_app_length, drop_app_length.
  by destruct (decide (prefix = prefix)).
Qed.

Lemma stripSuffix_app suffix s : stripSuffix suffix (s ++ suffix) = Some s.
Proof.
  unfold stripSuffix. rewrite reverse_app, stripPrefix_app. cbn.
  by rewrite reverse_involutive.
Qed.

Lemma untilLine_app delimiter bodyLines after :
  delimiter ∉ bodyLines ->
  untilLine delimiter (bodyLines ++ delimiter :: after) = Some (bodyLines, after).
Proof.
  induction bodyLines as [|l ls IH]; intros Hnin; cbn [app untilLine].
  - by destruct (decide (delimiter = delimiter)).
  - apply not_elem_of_cons in Hnin as [Hne Hnin].
    destruct (decide (l = delimiter)); [done|]. by rewrite IH.
Qed.

(** C2, as amended.  For every path without a line feed, every body and
    every position, reading the block [formatContentBlock] builds gives back
    the path, the delimiter and the body unchanged; the body is found
    between the opening marker line and the first line equal to the
    delimiter, which is the last line of the block, and is not unescaped in
    any way. *)
Theorem formatContentBlock_roundtrip (path body : jsstring) (index : Z) :
  LF ∉ path ->
  splitBlock (formatContentBlock path body index)
    = Some (path, pickDelimiter path index body, body)
  /\ sliceBlock (formatContentBlock path body index)
    = Some (path, pickDelimiter path index body, body).
Proof.
  intros Hpath.
  pose proof (formatContentBlock_lines path body index) as Hlines. cbn zeta in Hlines.
  rewrite (split_single LF (js "@" ++ path)) in Hlines.
  2:{ rewrite elem_of_app. intros [Hin|Hin]; [|done].
      by apply (no_LF_js "@") in Hin. }
  unfold splitBlock, sliceBlock. rewrite Hlines. cbn [app].
  rewrite (stripPrefix_app (js "@") path). cbn [mbind option_bind].
  rewrite (stripPrefix_app (js "<<'")). cbn [mbind option_bind].
  rewrite stripSuffix_app. cbn [mbind option_bind]. split.
  - rewrite untilLine_app by apply pickDelimiter_not_among_lines.
    cbn [mbind option_bind]. by rewrite join_split.
  - rewrite last_snoc. cbn [mbind option_bind].
    destruct (decide _); [|done]. by rewrite removelast_last, join_split.
Qed.

Lemma formatContentBlock_roundtrip_witness :
  splitBlock (formatContentBlock (js "/tmp/file.txt") (js "line 1" ++ [LF] ++ js "line 2") 3)
    = Some (js "/tmp/file.txt",
            pickDelimiter (js "/tmp/file.txt") 3 (js "line 1" ++ [LF] ++ js "line 2"),
            js "line 1" ++ [LF] ++ js "line 2")
  /\ sliceBlock (formatContentBlock (js "/tmp/file.txt") (js "line 1" ++ [LF] ++ js "line 2") 3)
    = Some (js "/tmp/file.txt",
            pickDelimiter (js "/tmp/file.txt") 3 (js "line 1" ++ [LF] ++ js "line 2"),
            js "line 1" ++ [LF] ++ js "line 2").
Proof.
  apply formatContentBlock_roundtrip.
  apply (no_LF_js "/tmp/file.txt"). vm_compute. reflexivity.
Defined.

(** C2 as stated fails for a path that holds a line feed: the block of
    path ["a\nb"] and body ["x"] has the lines [@a], [b], [<<'PINE_1_...'],
    [x] and the delimiter; its second line is not an opening marker, and
    neither reader gets the body back. *)
Lemma formatContentBlock_roundtrip_fails_on_newline_path :
  split LF (formatContentBlock (js "a" ++ [LF] ++ js "b") (js "x") 1)
    = [js "@a"; js "b"; js "<<'PINE_1_B88513'"; js "x"; js "PINE_1_B88513"]
  /\ splitBlock (formatContentBlock (js "a" ++ [LF] ++ js "b") (js "x") 1) = None
  /\ sliceBlock (formatContentBlock (js "a" ++ [LF] ++ js "b") (js "x") 1) = None.
Proof. vm_compute. auto. Qed.

(** ** The planner *)

Section PlannerProperties.
Context `{Host}.

Implicit Types (candidates : list FileCandidate.t) (order : list nat).

(** *** The full-block pass *)

(** Only indexes of the order are ever added. *)
Lemma fullPass_included strategy candidates order acc acc' :
  fullPass strategy candidates order acc = Ok acc' ->
  forall j, j ∈ acc'.(fp_fullIncluded) -> j ∈ order \/ j ∈ acc.(fp_fullIncluded).
Proof.
  revert acc. induction order as [|index order IH]; intros acc; cbn [fullPass].
  - intros [= <-] j Hj. by right.
  - destruct (candidates !! index) as [candidate|]; [|discriminate].
    destruct (canFitSection _ _).
    + intros Hpass j Hj. destruct (IH _ Hpass j Hj) as [Hin|Hin].
      * left. by right.
      * cbn in Hin. apply elem_of_union in Hin as [->%elem_of_singleton|Hin];
          [left; by left | by right].
    + destruct (decide (strategy = RequestOrder)).
      * intros [= <-] j Hj. by right.
      * intros Hpass j Hj. destruct (IH _ Hpass j Hj) as [Hin|Hin];
          [left; by right | by right].
Qed.

(** In request order the pass ends at the first candidate that does not
    fit: what it returns is what it had when it reached that candidate. *)
Lemma fullPass_request_stops candidates pre index post candidate acc before final :
  fullPass RequestOrder candidates pre acc = Ok before ->
  candidates !! index = Some candidate ->
  canFitSection before.(fp_state) candidate.(FileCandidate.fullMetrics) = false ->
  fullPass RequestOrder candidates (pre ++ index :: post) acc = Ok final ->
  final = before.
Proof.
  intros Hpre Hcand Hmiss. revert acc Hpre.
  induction pre as [|i pre IH]; intros acc; cbn [app fullPass].
  - intros [= ->]. rewrite Hcand, Hmiss.
    destruct (decide (RequestOrder = RequestOrder)); [|done]. by intros [= <-].
  - destruct (candidates !! i) as [c|]; [|discriminate].
    destruct (canFitSection (fp_state acc) _); [apply IH|].
    destruct (decide (RequestOrder = RequestOrder)); [|done]. congruence.
Qed.

Lemma buildPlan_fullPass strategy order candidates plan :
  buildPlan strategy order candidates = Ok plan ->
  exists full,
    fullPass strategy candidates order fullPassStart = Ok full /\
    plan.(PackingPlan.strategy) = strategy /\
    plan.(PackingPlan.fullIncluded) = full.(fp_fullIncluded) /\
    plan.(PackingPlan.fullSuccessCount) = full.(fp_fullSuccessCount) /\
    plan.(PackingPlan.fullCount) = size full.(fp_fullIncluded) /\
    plan.(PackingPlan.partialSection)
      = partialPass full.(fp_state) full.(fp_fullIncluded) 0 candidates /\
    plan.(PackingPlan.omittedIndexes)
      = omitted full.(fp_fullIncluded) plan.(PackingPlan.partialSection) (length candidates) /\
    {| PackState.usedBytes := plan.(PackingPlan.usedBytes);
       PackState.usedLines := plan.(PackingPlan.usedLines);
       PackState.sectionCount := plan.(PackingPlan.sectionCount) |}
      = match plan.(PackingPlan.partialSection) with
        | Some section => addSection full.(fp_state) section.(PackedSection.metrics)
        | None => full.(fp_state)
        end.
Proof.
  unfold buildPlan.
  destruct (fullPass strategy candidates order fullPassStart) as [full|] eqn:Hfull;
    cbn [mbind Result_bind]; [|discriminate].
  intros [= <-]. exists full. cbn. repeat split; try done.
  by destruct (match partialPass _ _ _ _ with Some _ => _ | None => _ end).
Qed.

(** C4. In a plan built with the request-order strategy, let a
    candidate of the order fail to fit the budget that is left when the
    loop has gone through the candidates before it.  Then every fully
    included index stands before it in the order; so, the order being a
    permutation, neither it nor any candidate after it is fully included,
    whatever its size. *)
Theorem request_order_stops_at_first_miss
    candidates order plan pre index post candidate before :
  buildPlan RequestOrder order candidates = Ok plan ->
  order = pre ++ index :: post ->
  fullPass RequestOrder candidates pre fullPassStart = Ok before ->
  candidates !! index = Some candidate ->
  canFitSection before.(fp_state) candidate.(FileCandidate.fullMetrics) = false ->
  (forall j, j ∈ plan.(PackingPlan.fullIncluded) -> j ∈ pre) /\
  (NoDup order -> forall j, j ∈ index :: post -> j ∉ plan.(PackingPlan.fullIncluded)).
Proof.
  intros (full & Hfull & _ & Hinc & _)%buildPlan_fullPass -> Hpre Hcand Hmiss.
  rewrite Hinc.
  pose proof (fullPass_request_stops _ _ _ _ _ _ _ _ Hpre Hcand Hmiss Hfull) as ->.
  assert (forall j, j ∈ before.(fp_fullIncluded) -> j ∈ pre) as Hsub.
  { intros j Hj. destruct (fullPass_included _ _ _ _ _ Hpre j Hj) as [?|Hin]; [done|].
    cbn in Hin. by apply not_elem_of_empty in Hin. }
  split; [done|].
  intros Hnd j Hj Hin. apply NoDup_app in Hnd as (_ & Hdisj & _).
  by apply (Hdisj j (Hsub j Hin)).
Qed.

(** *** The partial pass *)

Lemma shrinkToFit_fits attempts candidate body remainingLines remainingBytes
    maxBodyLines maxBodyBytes text :
  shrinkToFit attempts candidate body remainingLines remainingBytes
    maxBodyLines maxBodyBytes = Some text ->
  (measureText text).(lines) <= remainingLines /\
  (measureText text).(bytes) <= remainingBytes.
Proof.
  revert maxBodyLines maxBodyBytes.
  induction attempts as [|attempts IH]; intros maxBodyLines maxBodyBytes;
    cbn [shrinkToFit]; [discriminate|].
  destruct (falsy _); [discriminate|]. cbn zeta.
  destruct (_ && _) eqn:Hfit at 1.
  - intros [= <-]. apply andb_true_iff in Hfit as [?%Z.leb_le ?%Z.leb_le]. done.
  - apply IH.
Qed.

Lemma buildPartialSection_fits candidate remainingLines remainingBytes text :
  buildPartialSection candidate remainingLines remainingBytes = Some text ->
  (measureText text).(lines) <= remainingLines /\
  (measureText text).(bytes) <= remainingBytes.
Proof.
  unfold buildPartialSection. destruct (falsy _); [discriminate|].
  destruct (_ || _); [discriminate|]. apply shrinkToFit_fits.
Qed.

(** What the partial pass returns, when it returns a section. *)
Lemma partialPass_Some state fullIncluded index rest section :
  partialPass state fullIncluded index rest = Some section ->
  section.(PackedSection.metrics) = measureText section.(PackedSection.text) /\
  (index <= section.(PackedSection.index) < index + length rest)%nat /\
  (section.(PackedSection.index) ∉ fullIncluded) /\
  section.(PackedSection.metrics).(bytes)
    <= DEFAULT_MAX_BYTES - state.(PackState.usedBytes) - sepBytesOf state /\
  section.(PackedSection.metrics).(lines)
    <= DEFAULT_MAX_LINES - state.(PackState.usedLines) - sepLinesOf state.
Proof.
  revert index. induction rest as [|candidate rest IH]; intros index;
    cbn [partialPass]; [discriminate|].
  pose proof (IH (S index)) as Hnext. cbn [length].
  destruct (bool_decide (index ∈ fullIncluded)) eqn:Hin.
  { intros (? & ? & ?)%Hnext. split; [done|]. split; [lia|done]. }
  apply bool_decide_eq_false in Hin.
  destruct (_ || _); [discriminate|].
  destruct (buildPartialSection _ _ _) as [[|c text]|] eqn:Hpartial; cbn [falsy].
  1,3: intros (? & ? & ?)%Hnext; (split; [done|]); (split; [lia|done]).
  apply buildPartialSection_fits in Hpartial as [Hl Hb].
  intros [= <-]. cbn. split; [done|]. split; [lia|]. done.
Qed.

(** C5. Every plan holds at most one partial section: the partial pass
    adds one section to those of the full pass, or none.  When it adds one,
    the section is that of a candidate that is not fully included, its
    metrics are those of its text, and they do not exceed the bytes and
    lines that are left of the ceilings after the full pass and the
    separator. *)
Theorem at_most_one_partial_within_budget strategy order candidates plan :
  buildPlan strategy order candidates = Ok plan ->
  exists full,
    fullPass strategy candidates order fullPassStart = Ok full /\
    match plan.(PackingPlan.partialSection) with
    | None =>
        plan.(PackingPlan.sectionCount) = full.(fp_state).(PackState.sectionCount)
    | Some section =>
        plan.(PackingPlan.sectionCount) = full.(fp_state).(PackState.sectionCount) + 1 /\
        (section.(PackedSection.index) < length candidates)%nat /\
        (section.(PackedSection.index) ∉ plan.(PackingPlan.fullIncluded)) /\
        section.(PackedSection.metrics) = measureText section.(PackedSection.text) /\
        (measureText section.(PackedSection.text)).(bytes)
          <= DEFAULT_MAX_BYTES - full.(fp_state).(PackState.usedBytes)
             - sepBytesOf full.(fp_state) /\
        (measureText section.(PackedSection.text)).(lines)
          <= DEFAULT_MAX_LINES - full.(fp_state).(PackState.usedLines)
             - sepLinesOf full.(fp_state)
    end.
Proof.
  intros (full & Hfull & _ & Hinc & _ & _ & Hpartial & _ & Hstate)%buildPlan_fullPass.
  exists full. split; [done|]. rewrite Hinc.
  destruct (PackingPlan.partialSection plan) as [section|].
  - symmetry in Hpartial.
    apply partialPass_Some in Hpartial as (Hm & Hidx & Hnin & Hb & Hl).
    injection Hstate as _ _ ->. rewrite <- Hm.
    split; [done|]. split; [lia|]. done.
  - by apply (f_equal PackState.sectionCount) in Hstate.
Qed.

End PlannerProperties.

(** ** The planner's accounting *)

Lemma sumIncluded_nonneg weight included index rest :
  (forall c, 0 <= weight c) -> 0 <= sumIncluded weight included index rest.
Proof.
  intros Hw. revert index. induction rest as [|c rest IH]; intros index; cbn [sumIncluded];
    [lia|].
  specialize (IH (S index)). specialize (Hw c). destruct (bool_decide _); lia.
Qed.

Lemma sumIncluded_insert_before weight included j index rest :
  (j < index)%nat ->
  sumIncluded weight ({[ j ]} ∪ included) index rest = sumIncluded weight included index rest.
Proof.
  revert index. induction rest as [|c rest IH]; intros index Hj; cbn [sumIncluded]; [done|].
  rewrite IH by lia. f_equal.
  rewrite (bool_decide_ext (index ∈ {[ j ]} ∪ included) (index ∈ included)); [done|].
  rewrite elem_of_union, elem_of_singleton. intuition lia.
Qed.

Lemma sumIncluded_insert weight included index rest k candidate :
  rest !! k = Some candidate -> (index + k)%nat ∉ included ->
  sumIncluded weight ({[ (index + k)%nat ]} ∪ included) index rest
  = weight candidate + sumIncluded weight included index rest.
Proof.
  revert index k. induction rest as [|c rest IH]; intros index [|k] Hk Hnin;
    cbn [sumIncluded]; try done.
  - injection Hk as ->. rewrite Nat.add_0_r in *.
    rewrite sumIncluded_insert_before by lia.
    rewrite bool_decide_eq_true_2 by (apply elem_of_union; left; by apply elem_of_singleton).
    by rewrite bool_decide_eq_false_2.
  - replace (index + S k)%nat with (S index + k)%nat in * by lia.
    rewrite (IH (S index) k) by done.
    rewrite (bool_decide_ext (index ∈ {[ (S index + k)%nat ]} ∪ included) (index ∈ included));
      [lia|].
    rewrite elem_of_union, elem_of_singleton. intuition lia.
Qed.

Lemma sumIncluded_ext weight weight' included index rest :
  Forall (fun c => weight c = weight' c) rest ->
  sumIncluded weight included index rest = sumIncluded weight' included index rest.
Proof.
  intros Hall. revert index. induction Hall as [|c rest Hc _ IH]; intros index;
    cbn [sumIncluded]; [done|].
  by rewrite Hc, IH.
Qed.

Section AccountingProperties.
Context `{Host}.

(** Adding a section keeps the books: one more section, its metrics,
    and one more separator unless it is the first. *)
Lemma addSection_books state metrics totalBytes totalLines :
  0 <= state.(PackState.sectionCount) ->
  state.(PackState.usedBytes) = totalBytes + 2 * separators state.(PackState.sectionCount) ->
  state.(PackState.usedLines) = totalLines + separators state.(PackState.sectionCount) ->
  let state' := addSection state metrics in
  state'.(PackState.sectionCount) = state.(PackState.sectionCount) + 1 /\
  state'.(PackState.usedBytes)
    = totalBytes + metrics.(bytes) + 2 * separators state'.(PackState.sectionCount) /\
  state'.(PackState.usedLines)
    = totalLines + metrics.(lines) + separators state'.(PackState.sectionCount) /\
  state'.(PackState.usedBytes)
    = state.(PackState.usedBytes) + sepBytesOf state + metrics.(bytes) /\
  state'.(PackState.usedLines)
    = state.(PackState.usedLines) + sepLinesOf state + metrics.(lines).
Proof.
  intros Hcount Hb Hl. unfold addSection, sepBytesOf, sepLinesOf, separators in *. cbn.
  destruct (Z.gtb_spec (PackState.sectionCount state) 0); lia.
Qed.

Lemma Accounted_start candidates : Accounted candidates fullPassStart.
Proof.
  assert (forall weight, sumIncluded weight ∅ 0 candidates = 0) as Hzero.
  { intros weight. generalize 0%nat.
    induction candidates as [|c cs IH]; intros index; cbn [sumIncluded]; [done|].
    rewrite IH. by rewrite bool_decide_eq_false_2 by apply not_elem_of_empty. }
  split; cbn; rewrite ?Hzero; unfold separators; lia.
Qed.

(** The full-block pass keeps the books whenever no index comes twice. *)
Lemma fullPass_accounted strategy candidates order acc acc' :
  NoDup order ->
  (forall j, j ∈ order -> j ∉ acc.(fp_fullIncluded)) ->
  Accounted candidates acc ->
  fullPass strategy candidates order acc = Ok acc' ->
  Accounted candidates acc'.
Proof.
  revert acc. induction order as [|index order IH]; intros acc Hnd Hfresh Hacc;
    cbn [fullPass].
  - by intros [= <-].
  - apply NoDup_cons in Hnd as [Hindex Hnd].
    destruct (candidates !! index) as [candidate|] eqn:Hcand; [|discriminate].
    assert (forall j, j ∈ order -> j ∉ fp_fullIncluded acc) as Hfresh'
      by (intros j Hj; apply Hfresh; by right).
    destruct (canFitSection (fp_state acc) _) eqn:Hfit.
    2:{ destruct (decide (strategy = RequestOrder)); [by intros [= <-]|by apply IH]. }
    apply IH; [done| |].
    { intros j Hj. cbn. rewrite elem_of_union, elem_of_singleton.
      intros [->|Hin]; [done|by apply (Hfresh' j)]. }
    destruct Hacc as [Hcount Hbytes Hlines Hsuccess].
    assert (index ∉ fp_fullIncluded acc) as Hnew by (apply Hfresh; by left).
    assert (forall weight,
      sumIncluded weight ({[ index ]} ∪ fp_fullIncluded acc) 0 candidates
      = weight candidate + sumIncluded weight (fp_fullIncluded acc) 0 candidates) as Hsum
      by (intros weight; by apply (sumIncluded_insert weight _ 0 candidates index)).
    assert (0 <= PackState.sectionCount (fp_state acc)) as Hnonneg
      by (rewrite Hcount; by apply sumIncluded_nonneg).
    destruct (addSection_books (fp_state acc) (FileCandidate.fullMetrics candidate)
                _ _ Hnonneg Hbytes Hlines) as (Hc' & Hb' & Hl' & Hub & Hul).
    split; cbn [fp_state fp_fullIncluded fp_fullSuccessCount]; rewrite ?Hsum.
    + rewrite Hc'. lia.
    + rewrite Hb'. lia.
    + rewrite Hl'. lia.
    + rewrite Hsuccess. destruct (FileCandidate.ok candidate); lia.
Qed.

(** The full-block pass stays within the ceilings. *)
Lemma fullPass_within strategy candidates order acc acc' :
  acc.(fp_state).(PackState.usedBytes) <= DEFAULT_MAX_BYTES ->
  acc.(fp_state).(PackState.usedLines) <= DEFAULT_MAX_LINES ->
  fullPass strategy candidates order acc = Ok acc' ->
  acc'.(fp_state).(PackState.usedBytes) <= DEFAULT_MAX_BYTES /\
  acc'.(fp_state).(PackState.usedLines) <= DEFAULT_MAX_LINES.
Proof.
  revert acc. induction order as [|index order IH]; intros acc Hb Hl; cbn [fullPass].
  - by intros [= <-].
  - destruct (candidates !! index) as [candidate|]; [|discriminate].
    destruct (canFitSection (fp_state acc) _) eqn:Hfit.
    2:{ destruct (decide (strategy = RequestOrder)); [by intros [= <-]|by apply IH]. }
    unfold canFitSection in Hfit.
    apply andb_true_iff in Hfit as [Hfb%Z.leb_le Hfl%Z.leb_le].
    apply IH; cbn; lia.
Qed.

End AccountingProperties.

(** ** The assembled text *)

Lemma sumList_cons measure text texts :
  sumList measure (text :: texts) = measure text + sumList measure texts.
Proof. done. Qed.

Lemma sumList_count_nonneg texts : 0 <= sumList (fun _ => 1) texts.
Proof. unfold sumList. induction texts as [|t texts IH]; cbn [foldr]; lia. Qed.

Lemma sumList_count_pos texts : texts <> [] -> 0 < sumList (fun _ => 1) texts.
Proof.
  destruct texts as [|t texts]; [done|]. intros _.
  pose proof (sumList_count_nonneg texts). unfold sumList in *. cbn [foldr]. lia.
Qed.

(** Joining sections with blank lines: the bytes and the lines of the
    sections, and two bytes and one line for every separator. *)
Lemma join_metrics texts :
  texts <> [] ->
  byteLength (join [LF; LF] texts)
    = sumList byteLength texts + 2 * separators (sumList (fun _ => 1) texts) /\
  lineCount (join [LF; LF] texts)
    = sumList lineCount texts + separators (sumList (fun _ => 1) texts).
Proof.
  induction texts as [|x texts IH]; [done|]. intros _.
  destruct texts as [|y texts].
  - cbn [join sumList foldr]. unfold separators. split; lia.
  - destruct IH as [IHb IHl]; [done|].
    pose proof (sumList_count_pos (y :: texts) ltac:(done)) as Hpos.
    rewrite join_cons_cons.
    change (x ++ [LF; LF] ++ join [LF; LF] (y :: texts))
      with (x ++ LF :: ([] ++ LF :: join [LF; LF] (y :: texts))).
    unfold lineCount in *. rewrite !byteLength_app_LF, !split_app_sep, !length_app, IHb.
    rewrite !Nat2Z.inj_add, IHl.
    unfold sumList in *. cbn [foldr] in *. unfold separators in *.
    cbn [split length byteLength utf8From].
    split; lia.
Qed.

(** The rendered sections of a plan without a partial section ahead sum
    to the full texts of the included candidates. *)
Lemma renderSections_sum_full measure plan index rest :
  (forall section, plan.(PackingPlan.partialSection) = Some section ->
     (section.(PackedSection.index) < index)%nat) ->
  sumList measure (renderSections plan index rest)
  = sumIncluded (fun c => measure c.(FileCandidate.fullText))
      plan.(PackingPlan.fullIncluded) index rest.
Proof.
  revert index. induction rest as [|c rest IH]; intros index Hpartial;
    cbn [renderSections sumIncluded]; [done|].
  assert (sumList measure (renderSections plan (S index) rest)
          = sumIncluded (fun c => measure c.(FileCandidate.fullText))
              plan.(PackingPlan.fullIncluded) (S index) rest) as Hrest.
  { apply IH. intros section Hs. specialize (Hpartial section Hs). lia. }
  destruct (bool_decide (index ∈ _)); [by rewrite sumList_cons, Hrest|].
  destruct (PackingPlan.partialSection plan) as [section|]; [|by rewrite Hrest].
  specialize (Hpartial section eq_refl).
  rewrite bool_decide_eq_false_2 by lia. by rewrite Hrest.
Qed.

(** With the partial section ahead, its text comes on top. *)
Lemma renderSections_sum_partial measure plan index rest section :
  plan.(PackingPlan.partialSection) = Some section ->
  section.(PackedSection.index) ∉ plan.(PackingPlan.fullIncluded) ->
  (index <= section.(PackedSection.index) < index + length rest)%nat ->
  sumList measure (renderSections plan index rest)
  = sumIncluded (fun c => measure c.(FileCandidate.fullText))
      plan.(PackingPlan.fullIncluded) index rest
    + measure section.(PackedSection.text).
Proof.
  intros Hsection Hnin. revert index.
  induction rest as [|c rest IH]; intros index Hrange; cbn [length] in Hrange; [lia|].
  cbn [renderSections sumIncluded]. rewrite Hsection.
  destruct (bool_decide (index ∈ _)) eqn:Hin.
  - apply bool_decide_eq_true in Hin.
    assert (PackedSection.index section <> index) by congruence.
    rewrite sumList_cons, IH by lia. lia.
  - destruct (bool_decide (PackedSection.index section = index)) eqn:Hhere.
    + apply bool_decide_eq_true in Hhere.
      rewrite sumList_cons, renderSections_sum_full; [lia|].
      intros s Hs. rewrite Hsection in Hs. injection Hs as <-. lia.
    + apply bool_decide_eq_false in Hhere. rewrite IH by lia. lia.
Qed.

Section AssemblyProperties.
Context `{Host}.

(** The books of a whole plan: its counters are the sums over the
    sections the rendering loop emits, plus the separators; and the count
    of successful full inclusions is what its name says. *)
Lemma buildPlan_books strategy order candidates plan :
  NoDup order -> Forall measured candidates ->
  buildPlan strategy order candidates = Ok plan ->
  let texts := renderSections plan 0 candidates in
  plan.(PackingPlan.sectionCount) = sumList (fun _ => 1) texts /\
  plan.(PackingPlan.usedBytes)
    = sumList byteLength texts + 2 * separators plan.(PackingPlan.sectionCount) /\
  plan.(PackingPlan.usedLines)
    = sumList lineCount texts + separators plan.(PackingPlan.sectionCount).
Proof.
  intros Hnd Hmeasured Hplan texts.
  pose proof Hplan as
    (full & Hfull & _ & Hinc & Hsucc & _ & Hpartial & _ & Hstate)%buildPlan_fullPass.
  assert (Accounted candidates full) as [Hcount Hbytes Hlines Hsuccess].
  { eapply fullPass_accounted; [exact Hnd| |by apply Accounted_start|exact Hfull].
    intros j _. apply not_elem_of_empty. }
  assert (0 <= PackState.sectionCount (fp_state full)) as Hnonneg
    by (rewrite Hcount; by apply sumIncluded_nonneg).
  assert (sumIncluded (fun c => bytes (FileCandidate.fullMetrics c))
            (fp_fullIncluded full) 0 candidates
          = sumIncluded (fun c => byteLength (FileCandidate.fullText c))
            (fp_fullIncluded full) 0 candidates) as HextB.
  { apply sumIncluded_ext. eapply Forall_impl; [exact Hmeasured|].
    intros c Hc. unfold measured in Hc. by rewrite Hc. }
  assert (sumIncluded (fun c => lines (FileCandidate.fullMetrics c))
            (fp_fullIncluded full) 0 candidates
          = sumIncluded (fun c => lineCount (FileCandidate.fullText c))
            (fp_fullIncluded full) 0 candidates) as HextL.
  { apply sumIncluded_ext. eapply Forall_impl; [exact Hmeasured|].
    intros c Hc. unfold measured in Hc. by rewrite Hc. }
  subst texts.
  destruct (PackingPlan.partialSection plan) as [section|] eqn:Hsection.
  - symmetry in Hpartial.
    apply partialPass_Some in Hpartial as (Hm & Hidx & Hnin & Hb & Hl).
    rewrite <- Hinc in Hnin.
    rewrite !(renderSections_sum_partial _ plan 0 candidates section) by (done || lia).
    rewrite Hinc, <- HextB, <- HextL, <- Hcount.
    destruct (addSection_books (fp_state full) (PackedSection.metrics section)
                _ _ Hnonneg Hbytes Hlines) as (Hc' & Hb' & Hl' & Hub & Hul).
    rewrite <- Hstate in Hc', Hb', Hl', Hub, Hul. cbn in Hc', Hb', Hl', Hub, Hul.
    rewrite Hm in Hb', Hl'. cbn in Hb', Hl'. unfold lineCount.
    repeat split; lia.
  - rewrite !(renderSections_sum_full _ plan 0 candidates)
      by (intros s Hs; by rewrite Hsection in Hs).
    rewrite <- Hstate in Hcount, Hbytes, Hlines, Hnonneg.
    cbn in Hcount, Hbytes, Hlines, Hnonneg.
    rewrite Hinc, <- HextB, <- HextL, <- Hcount.
    repeat split; lia.
Qed.

(** The count of successful full inclusions is what its name says. *)
Lemma buildPlan_successCount strategy order candidates plan :
  NoDup order ->
  buildPlan strategy order candidates = Ok plan ->
  plan.(PackingPlan.fullSuccessCount) = successfulFullCount plan candidates.
Proof.
  intros Hnd (full & Hfull & _ & Hinc & Hsucc & _)%buildPlan_fullPass.
  assert (Accounted candidates full) as [_ _ _ Hsuccess].
  { eapply fullPass_accounted; [exact Hnd| |by apply Accounted_start|exact Hfull].
    intros j _. apply not_elem_of_empty. }
  unfold successfulFullCount. by rewrite Hinc, Hsucc.
Qed.

(** A plan stays within the ceilings. *)
Lemma buildPlan_within strategy order candidates plan :
  0 <= DEFAULT_MAX_BYTES -> 0 <= DEFAULT_MAX_LINES ->
  buildPlan strategy order candidates = Ok plan ->
  plan.(PackingPlan.usedBytes) <= DEFAULT_MAX_BYTES /\
  plan.(PackingPlan.usedLines) <= DEFAULT_MAX_LINES.
Proof.
  intros HmaxB HmaxL (full & Hfull & _ & _ & _ & _ & Hpartial & _ & Hstate)%buildPlan_fullPass.
  destruct (fullPass_within _ _ _ fullPassStart _ HmaxB HmaxL Hfull) as [Hwb Hwl].
  destruct (PackingPlan.partialSection plan) as [section|].
  - symmetry in Hpartial.
    apply partialPass_Some in Hpartial as (_ & _ & _ & Hb & Hl).
    injection Hstate as -> -> _. lia.
  - rewrite <- Hstate in Hwb, Hwl. done.
Qed.

(** The assembled text of a plan with at least one section measures what
    the plan has counted; that of a plan without sections is empty. *)
Lemma buildPlan_assembled strategy order candidates plan :
  NoDup order -> Forall measured candidates ->
  buildPlan strategy order candidates = Ok plan ->
  (0 < plan.(PackingPlan.sectionCount) ->
     measureText (plannedOutputTextOf plan candidates)
     = {| bytes := plan.(PackingPlan.usedBytes); lines := plan.(PackingPlan.usedLines) |}) /\
  (plan.(PackingPlan.sectionCount) = 0 -> plannedOutputTextOf plan candidates = []) /\
  0 <= plan.(PackingPlan.sectionCount).
Proof.
  intros Hnd Hmeasured Hplan.
  destruct (buildPlan_books _ _ _ _ Hnd Hmeasured Hplan) as (Hcount & Hbytes & Hlines).
  unfold plannedOutputTextOf.
  destruct (renderSections plan 0 candidates) as [|t texts] eqn:Htexts.
  - cbn in Hcount. split; [lia|]. split; [done|lia].
  - split; [|split; [|rewrite Hcount; apply sumList_count_nonneg]].
    + intros _. destruct (join_metrics (t :: texts) ltac:(done)) as [Hb Hl].
      unfold measureText. fold (lineCount (join [LF; LF] (t :: texts))).
      rewrite Hb, Hl, Hbytes, Hlines, Hcount. done.
    + pose proof (sumList_count_pos (t :: texts) ltac:(done)). lia.
Qed.

End AssemblyProperties.

(** ** Rendering *)

Lemma join_app_cons sep before x after :
  join sep (before ++ x :: after)
  = mjoin ((fun text => text ++ sep) <$> before) ++ join sep (x :: after).
Proof.
  induction before as [|b before IH]; [done|].
  transitivity (b ++ sep ++ join sep (before ++ x :: after)); [by destruct before|].
  rewrite IH. cbn [fmap list_fmap mjoin list_join]. by rewrite <- !app_assoc.
Qed.

Lemma join_cons sep x after :
  exists rest, join sep (x :: after) = x ++ rest
    /\ (after <> [] -> rest = sep ++ join sep after).
Proof.
  destruct after as [|y after].
  - exists []. by rewrite app_nil_r.
  - exists (sep ++ join sep (y :: after)). done.
Qed.

(** The rendering loop emits, position by position, what [sectionText]
    says. *)
Lemma renderSections_sectionText plan before rest :
  renderSections plan (length before) rest
  = omap (sectionText plan (before ++ rest)) (seq (length before) (length rest)).
Proof.
  revert before. induction rest as [|candidate rest IH]; intros before; [done|].
  cbn [renderSections length seq omap list_omap].
  specialize (IH (before ++ [candidate])).
  rewrite length_app, Nat.add_1_r, <- app_assoc in IH. cbn [app] in IH.
  unfold sectionText at 1. rewrite list_lookup_middle by done. cbn [mbind option_bind].
  destruct (bool_decide (length before ∈ _)); [by rewrite IH|].
  destruct (PackingPlan.partialSection plan) as [section|]; cbn [mbind option_bind];
    [|by rewrite IH].
  destruct (bool_decide (PackedSection.index section = length before)); by rewrite IH.
Qed.

Lemma sectionText_lt plan candidates i text :
  sectionText plan candidates i = Some text -> (i < length candidates)%nat.
Proof.
  unfold sectionText. destruct (candidates !! i) eqn:Hi; [|discriminate].
  intros _. by eapply lookup_lt_Some.
Qed.

(** Whatever the plan, the rendering loop emits the sections in request
    order: position by position, the full block of a fully included file,
    the partial text at the partial index, nothing for an omitted file.  So
    for included positions [i < j] the assembled text is the sections of
    the files before [i], the section of [i], a blank line, the sections of
    the files between the two, the section of [j], and the rest. *)
Lemma plannedOutputTextOf_in_order (plan : PackingPlan.t)
    (candidates : list FileCandidate.t) (i j : nat) (ti tj : jsstring) :
  (i < j)%nat ->
  sectionText plan candidates i = Some ti ->
  sectionText plan candidates j = Some tj ->
  renderSections plan 0 candidates
    = omap (sectionText plan candidates) (seq 0 (length candidates))
  /\ exists post,
       plannedOutputTextOf plan candidates
       = sectionsWithSeparator plan candidates (seq 0 i)
         ++ ti ++ [LF; LF]
         ++ sectionsWithSeparator plan candidates (seq (S i) (j - S i))
         ++ tj ++ post.
Proof.
  intros Hij Hi Hj.
  pose proof (renderSections_sectionText plan [] candidates) as Hrender.
  cbn [app length] in Hrender. split; [done|].
  pose proof (sectionText_lt _ _ _ _ Hj) as Hjn.
  unfold plannedOutputTextOf, sectionsWithSeparator. rewrite Hrender.
  replace (length candidates) with (i + (1 + ((j - S i) + (1 + (length candidates - S j)))))%nat
    by lia.
  rewrite !seq_app, !omap_app. cbn [seq omap list_omap Nat.add].
  replace (i + 1 + (j - S i))%nat with j by lia.
  rewrite Nat.add_1_r, Hi, Hj. cbn [app].
  rewrite join_app_cons.
  destruct (join_cons [LF; LF] ti
              (omap (sectionText plan candidates) (seq (S i) (j - S i))
               ++ tj :: omap (sectionText plan candidates) (seq (j + 1) (length candidates - S j))))
    as (rest & -> & Hrest).
  rewrite Hrest by (by destruct (omap _ (seq (S i) _))).
  rewrite join_app_cons.
  destruct (join_cons [LF; LF] tj
              (omap (sectionText plan candidates) (seq (j + 1) (length candidates - S j))))
    as (post & -> & _).
  by exists post.
Qed.

(** ** The orchestrator *)

Lemma insertBy_Permutation {A} (compare : A -> A -> Z) x sorted :
  insertBy compare x sorted ≡ₚ x :: sorted.
Proof.
  induction sorted as [|y sorted IH]; cbn [insertBy]; [done|].
  destruct (compare x y <=? 0); [done|]. rewrite IH. apply Permutation_swap.
Qed.

Lemma sortBy_Permutation {A} (compare : A -> A -> Z) array :
  sortBy compare array ≡ₚ array.
Proof.
  unfold sortBy. induction array as [|x array IH]; cbn [foldr]; [done|].
  by rewrite insertBy_Permutation, IH.
Qed.

Lemma requestOrderOf_NoDup candidates : NoDup (requestOrderOf candidates).
Proof. apply NoDup_seq. Qed.

Lemma smallestFirstOrderOf_NoDup candidates : NoDup (smallestFirstOrderOf candidates).
Proof.
  unfold smallestFirstOrderOf. rewrite sortBy_Permutation. apply requestOrderOf_NoDup.
Qed.

Lemma requestOrderOf_range candidates j :
  j ∈ requestOrderOf candidates -> (j < length candidates)%nat.
Proof. unfold requestOrderOf. intros ?%elem_of_seq. lia. Qed.

Lemma smallestFirstOrderOf_range candidates j :
  j ∈ smallestFirstOrderOf candidates -> (j < length candidates)%nat.
Proof.
  unfold smallestFirstOrderOf. rewrite sortBy_Permutation. apply requestOrderOf_range.
Qed.

Lemma mapM_pathAt_Ok candidates indexes :
  (forall j, j ∈ indexes -> (j < length candidates)%nat) ->
  exists paths, mapM (pathAt candidates) indexes = Ok paths.
Proof.
  induction indexes as [|j indexes IH]; intros Hrange; cbn [mapM]; [by eexists|].
  destruct IH as [paths ->]; [intros i Hi; apply Hrange; by right|].
  unfold pathAt at 1.
  destruct (lookup_lt_is_Some_2 candidates j (Hrange j ltac:(by left))) as [c ->].
  cbn. by eexists.
Qed.

Section OrchestratorProperties.
Context `{Host}.

Lemma fullPass_Ok strategy candidates order acc :
  (forall j, j ∈ order -> (j < length candidates)%nat) ->
  exists acc', fullPass strategy candidates order acc = Ok acc'.
Proof.
  revert acc. induction order as [|index order IH]; intros acc Hrange; cbn [fullPass];
    [by eexists|].
  destruct (lookup_lt_is_Some_2 candidates index (Hrange index ltac:(by left))) as [c ->].
  assert (forall j, j ∈ order -> (j < length candidates)%nat) as Hrange'
    by (intros j Hj; apply Hrange; by right).
  destruct (canFitSection _ _); [by apply IH|].
  destruct (decide (strategy = RequestOrder)); [by eexists|by apply IH].
Qed.

Lemma buildPlan_Ok strategy order candidates :
  (forall j, j ∈ order -> (j < length candidates)%nat) ->
  exists plan, buildPlan strategy order candidates = Ok plan.
Proof.
  intros Hrange. unfold buildPlan.
  destruct (fullPass_Ok strategy candidates order fullPassStart Hrange) as [full ->].
  cbn. by eexists.
Qed.

Lemma omitted_range fullIncluded partialSection count j :
  j ∈ omitted fullIncluded partialSection count -> (j < count)%nat.
Proof. unfold omitted. intros [_ ?%elem_of_seq]%list_elem_of_filter. lia. Qed.

Section Run.
Context (readTool : ReadTool) (aborted : AbortSignal).

(** What [packAndRender] returns, field by field. *)
Lemma packAndRender_inv loop result :
  packAndRender loop = Ok result ->
  exists requestPlan smallestPlan,
    buildPlan RequestOrder (requestOrderOf loop.(candidates)) loop.(candidates)
      = Ok requestPlan /\
    buildPlan SmallestFirst (smallestFirstOrderOf loop.(candidates)) loop.(candidates)
      = Ok smallestPlan /\
    let switched := (choosePlan requestPlan smallestPlan).1 in
    let plan := (choosePlan requestPlan smallestPlan).2 in
    let outputTruncation :=
      truncateHead (plannedOutputTextOf plan loop.(candidates))
        DEFAULT_MAX_LINES DEFAULT_MAX_BYTES in
    result.(ReadManyResult.text) = outputTruncation.(TruncationResult.content) /\
    result.(ReadManyResult.details).(ReadManyDetails.combinedTruncation)
      = (if outputTruncation.(TruncationResult.truncated)
         then Some outputTruncation else None) /\
    result.(ReadManyResult.details).(ReadManyDetails.processedCount)
      = length loop.(fileDetails) /\
    result.(ReadManyResult.details).(ReadManyDetails.files) = loop.(fileDetails) /\
    result.(ReadManyResult.details).(ReadManyDetails.successCount)
      = length (filter (fun f => f.(ReadManyFileDetail.ok) = true) loop.(fileDetails)) /\
    result.(ReadManyResult.details).(ReadManyDetails.errorCount)
      = length (filter (fun f => f.(ReadManyFileDetail.ok) = false) loop.(fileDetails)) /\
    result.(ReadManyResult.details).(ReadManyDetails.packing).(Packing.strategy)
      = plan.(PackingPlan.strategy) /\
    result.(ReadManyResult.details).(ReadManyDetails.packing).(Packing.switchedForCoverage)
      = switched /\
    result.(ReadManyResult.details).(ReadManyDetails.packing).(Packing.fullIncludedSuccessCount)
      = plan.(PackingPlan.fullSuccessCount) /\
    result.(ReadManyResult.details).(ReadManyDetails.packing).(Packing.fullIncludedCount)
      = plan.(PackingPlan.fullCount).
Proof.
  unfold packAndRender.
  destruct (buildPlan RequestOrder _ _) as [requestPlan|]; [|discriminate].
  destruct (buildPlan SmallestFirst _ _) as [smallestPlan|]; [|discriminate].
  cbn [mbind Result_bind].
  destruct (choosePlan requestPlan smallestPlan) as [switched plan] eqn:Hchoose.
  destruct (mapM _ _) as [omittedPaths|]; [|discriminate].
  cbn [mbind Result_bind]. intros [= <-].
  exists requestPlan, smallestPlan. rewrite Hchoose. cbn. repeat split; done.
Qed.

(** [packAndRender] never throws. *)
Lemma packAndRender_Ok loop : exists result, packAndRender loop = Ok result.
Proof.
  unfold packAndRender.
  destruct (buildPlan_Ok RequestOrder (requestOrderOf loop.(candidates)) loop.(candidates)
              (requestOrderOf_range _)) as [requestPlan Hr].
  destruct (buildPlan_Ok SmallestFirst (smallestFirstOrderOf loop.(candidates))
              loop.(candidates) (smallestFirstOrderOf_range _)) as [smallestPlan Hs].
  rewrite Hr, Hs. cbn [mbind Result_bind].
  destruct (choosePlan requestPlan smallestPlan) as [switched plan] eqn:Hchoose.
  assert (exists paths,
            mapM (pathAt loop.(candidates)) plan.(PackingPlan.omittedIndexes) = Ok paths)
    as [paths ->].
  { apply mapM_pathAt_Ok. intros j Hj.
    assert (plan = requestPlan \/ plan = smallestPlan) as Hplan.
    { unfold choosePlan in Hchoose. injection Hchoose as _ <-.
      destruct (_ >? _); auto. }
    destruct Hplan as [->| ->];
      [apply buildPlan_fullPass in Hr as (? & _ & _ & _ & _ & _ & _ & Hom & _)
      |apply buildPlan_fullPass in Hs as (? & _ & _ & _ & _ & _ & _ & Hom & _)];
      rewrite Hom in Hj; by apply omitted_range in Hj. }
  cbn. by eexists.
Qed.

(** The read loop only appends, one candidate and one detail record
    per read file, and every candidate it appends is measured. *)
Lemma readFiles_measured stopOnError i rest loop loop' :
  readFiles readTool aborted stopOnError i rest loop = Ok loop' ->
  Forall measured loop.(candidates) -> Forall measured loop'.(candidates).
Proof.
  revert i loop. induction rest as [|request rest IH]; intros i loop; cbn [readFiles].
  - by intros [= <-].
  - destruct (aborted i); [discriminate|].
    destruct (readTool i (inputOf request)) as [result|message].
    + intros Hrest Hall. apply (IH _ _ Hrest). cbn.
      apply Forall_app. split; [done|]. by repeat constructor.
    + destruct (default false stopOnError).
      * intros [= <-] Hall. cbn. apply Forall_app. split; [done|]. by repeat constructor.
      * intros Hrest Hall. apply (IH _ _ Hrest). cbn.
        apply Forall_app. split; [done|]. by repeat constructor.
Qed.

Lemma execute_inv params trace result :
  execute readTool aborted params = Ok (trace, result) ->
  exists loop,
    readFiles readTool aborted params.(ReadManyInput.stopOnError) 0
      params.(ReadManyInput.files) startLoop = Ok loop /\
    packAndRender loop = Ok result /\
    trace = loop.(reads) /\
    Forall measured loop.(candidates).
Proof.
  unfold execute.
  destruct (readFiles _ _ _ _ _ _) as [loop|] eqn:Hloop; [|discriminate].
  cbn [mbind Result_bind].
  destruct (packAndRender loop) as [r|] eqn:Hr; [|discriminate].
  cbn [mbind Result_bind]. intros [= <- <-]. exists loop.
  repeat split; try done. eapply readFiles_measured; [exact Hloop|]. constructor.
Qed.

(** The read loop returns unless it finds the signal aborted. *)
Lemma readFiles_Ok stopOnError i rest loop :
  (forall j, aborted j = false) ->
  exists loop', readFiles readTool aborted stopOnError i rest loop = Ok loop'.
Proof.
  intros Hlive. revert i loop.
  induction rest as [|request rest IH]; intros i loop; cbn [readFiles]; [by eexists|].
  rewrite Hlive. destruct (readTool i (inputOf request)); [apply IH|].
  destruct (default false stopOnError); [by eexists|apply IH].
Qed.

(** [execute] returns whenever the signal is never aborted: a failed read
    is not a failure of [execute]. *)
Lemma execute_returns params :
  (forall j, aborted j = false) ->
  exists trace result, execute readTool aborted params = Ok (trace, result).
Proof.
  intros Hlive. unfold execute.
  destruct (readFiles_Ok params.(ReadManyInput.stopOnError) 0
              params.(ReadManyInput.files) startLoop Hlive) as [loop ->].
  cbn [mbind Result_bind].
  destruct (packAndRender_Ok loop) as [result ->]. cbn. by eexists _, _.
Qed.

End Run.
End OrchestratorProperties.

(** ** What the specification says of [execute] *)

Section ExecuteClaims.
Context `{Host}.
Context (readTool : ReadTool) (aborted : AbortSignal).

Lemma choosePlan_cases requestPlan smallestPlan :
  (PackingPlan.fullSuccessCount smallestPlan > PackingPlan.fullSuccessCount requestPlan
   /\ choosePlan requestPlan smallestPlan = (true, smallestPlan))
  \/ (PackingPlan.fullSuccessCount smallestPlan <= PackingPlan.fullSuccessCount requestPlan
      /\ choosePlan requestPlan smallestPlan = (false, requestPlan)).
Proof.
  unfold choosePlan.
  destruct (Z.gtb_spec (PackingPlan.fullSuccessCount smallestPlan)
              (PackingPlan.fullSuccessCount requestPlan)); [left|right]; split; done || lia.
Qed.

(** C3. Whenever [execute] returns, the plan it reports and renders is
    the smallest-first plan if and only if that plan fully includes
    strictly more successful blocks than the request-order plan; on a tie
    or a regression it is the request-order plan. *)
Theorem strategy_switch_iff (params : ReadManyInput.t)
    (trace : list (nat * ReadToolInput.t)) (result : ReadManyResult.t) :
  execute readTool aborted params = Ok (trace, result) ->
  exists loop requestPlan smallestPlan,
    readFiles readTool aborted params.(ReadManyInput.stopOnError) 0
      params.(ReadManyInput.files) startLoop = Ok loop /\
    buildPlan RequestOrder (requestOrderOf loop.(candidates)) loop.(candidates)
      = Ok requestPlan /\
    buildPlan SmallestFirst (smallestFirstOrderOf loop.(candidates)) loop.(candidates)
      = Ok smallestPlan /\
    let packing := result.(ReadManyResult.details).(ReadManyDetails.packing) in
    let more :=
      successfulFullCount smallestPlan loop.(candidates)
      > successfulFullCount requestPlan loop.(candidates) in
    let plan := (choosePlan requestPlan smallestPlan).2 in
    (packing.(Packing.switchedForCoverage) = true <-> more) /\
    (packing.(Packing.strategy) = SmallestFirst <-> more) /\
    (packing.(Packing.strategy) = RequestOrder <-> ~ more) /\
    (more -> plan = smallestPlan) /\
    (~ more -> plan = requestPlan) /\
    packing.(Packing.fullIncludedSuccessCount) = successfulFullCount plan loop.(candidates) /\
    result.(ReadManyResult.text)
      = (truncateHead (plannedOutputTextOf plan loop.(candidates))
           DEFAULT_MAX_LINES DEFAULT_MAX_BYTES).(TruncationResult.content).
Proof.
  intros (loop & Hloop & Hrender & _ & _)%execute_inv.
  apply packAndRender_inv in Hrender
    as (requestPlan & smallestPlan & Hr & Hs & Htext & _ & _ & _ & _ & _
        & Hstrategy & Hswitched & Hcount & _).
  exists loop, requestPlan, smallestPlan. do 3 (split; [done|]). cbn zeta.
  rewrite Hswitched, Hstrategy, Hcount.
  pose proof (buildPlan_successCount _ _ _ _ (requestOrderOf_NoDup _) Hr) as Hrc.
  pose proof (buildPlan_successCount _ _ _ _ (smallestFirstOrderOf_NoDup _) Hs) as Hsc.
  apply buildPlan_fullPass in Hr as (_ & _ & Hrs & _).
  apply buildPlan_fullPass in Hs as (_ & _ & Hss & _).
  rewrite <- Hrc, <- Hsc.
  destruct (choosePlan_cases requestPlan smallestPlan) as [[Hmore Hc]|[Hless Hc]];
    rewrite Hc in *; cbn [fst snd] in *; rewrite ?Hrs, ?Hss, ?Hrc, ?Hsc.
  - repeat split; try done; try lia.
  - repeat split; try done; try lia; try (intros; exfalso; lia).
Qed.

(** C8. Let the read of the file at position [k] be the first to fail,
    with [stopOnError] set and the signal not aborted up to there.  Then
    [execute] returns; the read calls it made are those for the positions
    [0] to [k], in order, and no other; and it reports [k + 1] processed
    files, the last of them the failed one. *)
Theorem stop_on_error_halts (files : list FileRequest.t) (k : nat)
    (request : FileRequest.t) (message : jsstring) :
  files !! k = Some request ->
  (forall i earlier, (i < k)%nat -> files !! i = Some earlier ->
     exists result, readTool i (inputOf earlier) = Ok result) ->
  readTool k (inputOf request) = Throw message ->
  (forall i, (i <= k)%nat -> aborted i = false) ->
  exists trace result,
    execute readTool aborted
      {| ReadManyInput.files := files; ReadManyInput.stopOnError := Some true |}
      = Ok (trace, result) /\
    trace = imap (fun i earlier => (i, inputOf earlier)) (take (S k) files) /\
    let details := result.(ReadManyResult.details) in
    details.(ReadManyDetails.processedCount) = S k /\
    length details.(ReadManyDetails.files) = S k /\
    (ReadManyFileDetail.ok <$> details.(ReadManyDetails.files))
      = replicate k true ++ [false] /\
    details.(ReadManyDetails.successCount) = k /\
    details.(ReadManyDetails.errorCount) = 1%nat.
Proof.
  intros Hk Hearlier Hfail Hsignal.
  assert (forall (pre post : list FileRequest.t) (i : nat) (loop : ReadLoop),
    (forall j earlier, (j < length pre)%nat -> pre !! j = Some earlier ->
       exists result, readTool (i + j)%nat (inputOf earlier) = Ok result) ->
    readTool (i + length pre)%nat (inputOf request) = Throw message ->
    (forall j, (j <= length pre)%nat -> aborted (i + j)%nat = false) ->
    exists loop',
      readFiles readTool aborted (Some true) i (pre ++ request :: post) loop = Ok loop' /\
      reads loop' = reads loop
        ++ imap (fun j earlier => (i + j, inputOf earlier))%nat (pre ++ [request]) /\
      (ReadManyFileDetail.ok <$> fileDetails loop')
        = (ReadManyFileDetail.ok <$> fileDetails loop)
          ++ replicate (length pre) true ++ [false]) as Hloop.
  { induction pre as [|r pre IH]; intros post i loop Hpre Hthrow Hlive.
    - cbn [app readFiles length] in *. rewrite Nat.add_0_r in Hthrow.
      pose proof (Hlive 0%nat ltac:(lia)) as H0. rewrite Nat.add_0_r in H0.
      rewrite H0, Hthrow.
      cbn. eexists. split; [done|]. split; [by rewrite Nat.add_0_r|].
      cbn [recordFailure fileDetails]. by rewrite fmap_app.
    - cbn [app readFiles].
      pose proof (Hlive 0%nat ltac:(cbn; lia)) as H0. rewrite Nat.add_0_r in H0.
      rewrite H0.
      destruct (Hpre 0%nat r ltac:(cbn; lia) eq_refl) as [res Hres].
      rewrite Nat.add_0_r in Hres. rewrite Hres.
      edestruct (IH post (S i)) as (loop' & -> & Hreads & Hok).
      + intros j earlier Hj Hlook.
        replace (S i + j)%nat with (i + S j)%nat by lia.
        apply Hpre; [cbn; lia|done].
      + replace (S i + length pre)%nat with (i + length (r :: pre))%nat by (cbn; lia).
        exact Hthrow.
      + intros j Hj. replace (S i + j)%nat with (i + S j)%nat by lia.
        apply Hlive. cbn. lia.
      + eexists. split; [done|]. split.
        * rewrite Hreads. cbn [recordSuccess reads imap app].
          rewrite <- app_assoc. cbn [app]. rewrite Nat.add_0_r. do 2 f_equal.
          apply imap_ext. intros j x _. cbn. f_equal. lia.
        * rewrite Hok. cbn [recordSuccess fileDetails length replicate].
          rewrite fmap_app, <- app_assoc. done. }
  pose proof (take_drop_middle files k request Hk) as Hsplit.
  assert (length (take k files) = k) as Hlen
    by (rewrite length_take; apply lookup_lt_Some in Hk; lia).
  destruct (Hloop (take k files) (drop (S k) files) 0%nat startLoop)
    as (loop & Hread & Hreads & Hok).
  { intros j earlier Hj Hlook. rewrite Hlen in Hj. cbn [Nat.add].
    eapply Hearlier; [done|]. by rewrite lookup_take_lt in Hlook. }
  { by rewrite Hlen. }
  { intros j Hj. apply Hsignal. cbn. lia. }
  rewrite Hsplit in Hread.
  destruct (packAndRender_Ok loop) as [result Hresult].
  exists (reads loop), result. unfold execute. cbn [ReadManyInput.files ReadManyInput.stopOnError].
  rewrite Hread. cbn [mbind Result_bind]. rewrite Hresult. cbn [mbind Result_bind].
  split; [done|]. split.
  { rewrite Hreads. cbn [startLoop reads app]. f_equal.
    by rewrite (take_S_r _ _ _ Hk). }
  apply packAndRender_inv in Hresult
    as (_ & _ & _ & _ & _ & _ & Hprocessed & Hfiles & Hsuccess & Herror & _).
  cbn zeta. cbn [startLoop fileDetails fmap list_fmap app] in Hok. rewrite Hlen in Hok.
  assert (length (fileDetails loop) = S k) as Hcount.
  { rewrite <- (length_fmap ReadManyFileDetail.ok), Hok, length_app, length_replicate.
    cbn. lia. }
  rewrite Hprocessed, Hfiles, Hsuccess, Herror.
  do 3 (split; [done|]).
  assert (forall (b : bool) (l : list ReadManyFileDetail.t),
            length (filter (fun f => ReadManyFileDetail.ok f = b) l)
            = length (filter (fun x => x = b) (ReadManyFileDetail.ok <$> l))) as Hfilter.
  { intros b l. induction l as [|f l IH]; [done|].
    rewrite fmap_cons, !filter_cons.
    destruct (decide (ReadManyFileDetail.ok f = b)); cbn [length]; by rewrite IH. }
  rewrite !Hfilter, Hok, !filter_app, !length_app.
  assert (forall n, filter (fun x => x = true) (replicate n true) = replicate n true
                    /\ filter (fun x => x = false) (replicate n true) = []) as Hrep.
  { induction n as [|n [IH1 IH2]]; [done|]. cbn [replicate].
    rewrite !filter_cons, IH1, IH2. done. }
  destruct (Hrep k) as [-> ->]. rewrite length_replicate, !filter_cons, !filter_nil.
  destruct (decide (false = true)); [done|].
  destruct (decide (false = false)); [|done]. cbn [length]. lia.
Qed.

End ExecuteClaims.

Lemma truncateHeadByLines_within text maxLines maxBytes :
  (measureText text).(lines) <= maxLines ->
  (measureText text).(bytes) <= maxBytes ->
  truncateHeadByLines text maxLines maxBytes
  = {| TruncationResult.content := text; TruncationResult.truncated := false |}.
Proof.
  cbn [measureText lines bytes]. intros Hl%Z.leb_le Hb%Z.leb_le.
  unfold truncateHeadByLines. by rewrite Hl, Hb.
Qed.

Lemma piHost_laws : @HostLaws piHost.
Proof. split; [done|done|apply truncateHeadByLines_within]. Qed.

Lemma smallHost_laws : @HostLaws smallHost.
Proof. split; [done|done|apply truncateHeadByLines_within]. Qed.

Section AccountingClaim.
Context `{Host} {laws : HostLaws}.
Context (readTool : ReadTool) (aborted : AbortSignal).

(** C7, as amended.  Whenever [execute] returns, both plans are within
    the ceilings; the text assembled from a plan with at least one section
    has exactly the bytes and lines the plan has counted; a plan without
    sections has counted nothing and its text is empty; and the final
    truncation returns the assembled text of the chosen plan as it is, so
    that [combinedTruncation] is absent. *)
Theorem planner_accounting (params : ReadManyInput.t)
    (trace : list (nat * ReadToolInput.t)) (result : ReadManyResult.t) :
  execute readTool aborted params = Ok (trace, result) ->
  exists loop requestPlan smallestPlan,
    readFiles readTool aborted params.(ReadManyInput.stopOnError) 0
      params.(ReadManyInput.files) startLoop = Ok loop /\
    buildPlan RequestOrder (requestOrderOf loop.(candidates)) loop.(candidates)
      = Ok requestPlan /\
    buildPlan SmallestFirst (smallestFirstOrderOf loop.(candidates)) loop.(candidates)
      = Ok smallestPlan /\
    (forall plan, plan = requestPlan \/ plan = smallestPlan ->
       plan.(PackingPlan.usedBytes) <= DEFAULT_MAX_BYTES /\
       plan.(PackingPlan.usedLines) <= DEFAULT_MAX_LINES /\
       (0 < plan.(PackingPlan.sectionCount) ->
          measureText (plannedOutputTextOf plan loop.(candidates))
          = {| bytes := plan.(PackingPlan.usedBytes);
               lines := plan.(PackingPlan.usedLines) |}) /\
       (plan.(PackingPlan.sectionCount) <= 0 ->
          plannedOutputTextOf plan loop.(candidates) = [] /\
          plan.(PackingPlan.usedBytes) = 0 /\ plan.(PackingPlan.usedLines) = 0)) /\
    result.(ReadManyResult.text)
      = plannedOutputTextOf (choosePlan requestPlan smallestPlan).2 loop.(candidates) /\
    result.(ReadManyResult.details).(ReadManyDetails.combinedTruncation) = None.
Proof.
  intros (loop & Hloop & Hrender & _ & Hmeasured)%execute_inv.
  apply packAndRender_inv in Hrender
    as (requestPlan & smallestPlan & Hr & Hs & Htext & Htrunc & _).
  exists loop, requestPlan, smallestPlan. do 3 (split; [done|]).
  pose proof max_bytes_nonneg as HmaxB. pose proof max_lines_pos as HmaxL.
  assert (0 <= DEFAULT_MAX_LINES) as HmaxL0 by lia.
  assert (forall plan, plan = requestPlan \/ plan = smallestPlan ->
            exists strategy order, NoDup order /\
              buildPlan strategy order loop.(candidates) = Ok plan) as Hbuilt.
  { intros plan [->| ->]; eexists _, _; (split; [|eassumption]);
      [apply requestOrderOf_NoDup|apply smallestFirstOrderOf_NoDup]. }
  assert (forall plan, plan = requestPlan \/ plan = smallestPlan ->
            plan.(PackingPlan.usedBytes) <= DEFAULT_MAX_BYTES /\
            plan.(PackingPlan.usedLines) <= DEFAULT_MAX_LINES /\
            (0 < plan.(PackingPlan.sectionCount) ->
               measureText (plannedOutputTextOf plan loop.(candidates))
               = {| bytes := plan.(PackingPlan.usedBytes);
                    lines := plan.(PackingPlan.usedLines) |}) /\
            (plan.(PackingPlan.sectionCount) <= 0 ->
               plannedOutputTextOf plan loop.(candidates) = [] /\
               plan.(PackingPlan.usedBytes) = 0 /\ plan.(PackingPlan.usedLines) = 0))
    as Hplans.
  { intros plan (strategy & order & Hnd & Hplan)%Hbuilt.
    destruct (buildPlan_within _ _ _ _ HmaxB HmaxL0 Hplan) as [Hwb Hwl].
    destruct (buildPlan_assembled _ _ _ _ Hnd Hmeasured Hplan) as (Hpos & Hzero & Hnonneg).
    destruct (buildPlan_books _ _ _ _ Hnd Hmeasured Hplan) as (Hcount & Hbytes & Hlines).
    do 3 (split; [done|]). intros Hle.
    assert (PackingPlan.sectionCount plan = 0) as Hz by lia.
    specialize (Hzero Hz). split; [done|].
    unfold plannedOutputTextOf in Hzero. cbn zeta in *.
    destruct (renderSections plan 0 (candidates loop)) as [|t ts] eqn:Htexts.
    - rewrite Hbytes, Hlines, Hz. done.
    - pose proof (sumList_count_pos (t :: ts) ltac:(done)). lia. }
  split; [exact Hplans|].
  set (plan := (choosePlan requestPlan smallestPlan).2) in *.
  assert (plan = requestPlan \/ plan = smallestPlan) as Hchosen.
  { subst plan. destruct (choosePlan_cases requestPlan smallestPlan) as [[_ ->]|[_ ->]]; auto. }
  clearbody plan.
  destruct (Hplans plan Hchosen) as (Hwb & Hwl & Hpos & Hzero).
  assert (truncateHead (plannedOutputTextOf plan loop.(candidates))
            DEFAULT_MAX_LINES DEFAULT_MAX_BYTES
          = {| TruncationResult.content := plannedOutputTextOf plan loop.(candidates);
               TruncationResult.truncated := false |}) as Hnoop.
  { apply truncateHead_within.
    - destruct (Z.lt_ge_cases 0 (PackingPlan.sectionCount plan)) as [Hp|Hz].
      + rewrite (Hpos Hp). cbn. lia.
      + destruct (Hzero ltac:(lia)) as (-> & _). cbn. lia.
    - destruct (Z.lt_ge_cases 0 (PackingPlan.sectionCount plan)) as [Hp|Hz].
      + rewrite (Hpos Hp). cbn. lia.
      + destruct (Hzero ltac:(lia)) as (-> & _). cbn. lia. }
  cbn zeta in Htext, Htrunc. rewrite Hnoop in Htext, Htrunc. done.
Qed.

End AccountingClaim.


(** ** The plan without sections *)

Lemma length_split_replicate n b :
  LF ∉ b -> length (split LF (replicate n LF ++ b)) = S n.
Proof.
  intros Hb. induction n as [|n IH]; cbn [replicate app].
  - by rewrite split_single.
  - cbn [split]. rewrite N.eqb_refl. cbn [length]. by rewrite IH.
Qed.

(** On every host there is a run that leaves both plans without a
    section: a single read that fails with a message of as many line feeds
    as the line ceiling.  The plan has then counted 0 lines, and the text
    assembled from no section has 1. *)
Lemma empty_plan_on_every_host `{Host} (strategy : PackingStrategy) :
  0 <= DEFAULT_MAX_LINES ->
  let failing : ReadTool := fun _ _ => Throw (replicate (Z.to_nat DEFAULT_MAX_LINES) LF) in
  exists loop plan,
    readFiles failing neverAborted None 0 [requestFor "/bad"] startLoop = Ok loop /\
    requestOrderOf loop.(candidates) = [0%nat] /\
    smallestFirstOrderOf loop.(candidates) = [0%nat] /\
    buildPlan strategy [0%nat] loop.(candidates) = Ok plan /\
    plan.(PackingPlan.sectionCount) = 0 /\
    plan.(PackingPlan.usedLines) = 0 /\
    (measureText (plannedOutputTextOf plan loop.(candidates))).(lines) = 1.
Proof.
  intros Hmax failing.
  set (body := js "[Error: " ++ replicate (Z.to_nat DEFAULT_MAX_LINES) LF ++ js "]").
  set (block := formatContentBlock (js "/bad") body (Z.of_nat 0 + 1)).
  set (candidate :=
         {| FileCandidate.index := 0; FileCandidate.path := js "/bad";
            FileCandidate.ok := false; FileCandidate.fullText := block;
            FileCandidate.fullMetrics := measureText block;
            FileCandidate.body := None |}).
  assert (DEFAULT_MAX_LINES < lines (measureText block)) as Hlines.
  { cbn [measureText lines]. subst block. rewrite formatContentBlock_lines.
    rewrite !length_app.
    assert (length (split LF body) = S (Z.to_nat DEFAULT_MAX_LINES)) as ->.
    { subst body. destruct (Z.to_nat DEFAULT_MAX_LINES) as [|n].
      - by vm_compute.
      - cbn [replicate app]. rewrite split_app_sep, length_app.
        rewrite (split_single LF (js "[Error: ")) by (by apply (no_LF_js "[Error: ")).
        rewrite length_split_replicate by (by apply (no_LF_js "]")). cbn [length]. lia. }
    pose proof (split_nonempty LF (js "@" ++ js "/bad")) as Hne.
    destruct (split LF (js "@" ++ js "/bad")); [done|].
    cbn [length]. lia. }
  assert (fullPass strategy [candidate] [0%nat] fullPassStart = Ok fullPassStart) as Hfull.
  { cbn [fullPass lookup list_lookup]. fold candidate.
    assert (canFitSection (fp_state fullPassStart) (FileCandidate.fullMetrics candidate)
            = false) as ->.
    { unfold canFitSection. apply andb_false_iff. right. apply Z.leb_gt.
      cbn. cbn in Hlines. lia. }
    by destruct (decide (strategy = RequestOrder)). }
  assert (partialPass (fp_state fullPassStart) (fp_fullIncluded fullPassStart) 0 [candidate]
          = None) as Hpartial.
  { cbn [partialPass]. destruct (bool_decide _); [done|].
    destruct (_ || _); done. }
  exists {| candidates := [candidate];
            fileDetails :=
              [ {| ReadManyFileDetail.path := js "/bad";
                   ReadManyFileDetail.ok := false;
                   ReadManyFileDetail.error := Some (replicate (Z.to_nat DEFAULT_MAX_LINES) LF);
                   ReadManyFileDetail.imageCount := None;
                   ReadManyFileDetail.truncation := None |} ];
            reads := [(0%nat, inputOf (requestFor "/bad"))] |}.
  eexists. split; [reflexivity|]. split; [reflexivity|]. split; [reflexivity|].
  cbn [candidates]. unfold buildPlan. rewrite Hfull. cbn [mbind Result_bind].
  rewrite Hpartial. split; [reflexivity|]. by cbn.
Qed.

(** ** The order of the sections in what [execute] returns *)

Section RenderClaim.
Context `{Host} {laws : HostLaws}.
Context (readTool : ReadTool) (aborted : AbortSignal).

(** What [execute] returns is the text assembled from the chosen plan:
    the final truncation leaves it as it is. *)
Lemma execute_text_planned params trace result :
  execute readTool aborted params = Ok (trace, result) ->
  exists loop requestPlan smallestPlan,
    readFiles readTool aborted params.(ReadManyInput.stopOnError) 0
      params.(ReadManyInput.files) startLoop = Ok loop /\
    buildPlan RequestOrder (requestOrderOf loop.(candidates)) loop.(candidates)
      = Ok requestPlan /\
    buildPlan SmallestFirst (smallestFirstOrderOf loop.(candidates)) loop.(candidates)
      = Ok smallestPlan /\
    let plan := (choosePlan requestPlan smallestPlan).2 in
    (plan = requestPlan \/ plan = smallestPlan) /\
    result.(ReadManyResult.details).(ReadManyDetails.packing).(Packing.strategy)
      = plan.(PackingPlan.strategy) /\
    result.(ReadManyResult.text) = plannedOutputTextOf plan loop.(candidates).
Proof.
  intros (loop & Hloop & Hrender & _ & Hmeasured)%execute_inv.
  apply packAndRender_inv in Hrender
    as (requestPlan & smallestPlan & Hr & Hs & Htext & _ & _ & _ & _ & _ & Hstrategy & _).
  exists loop, requestPlan, smallestPlan. do 3 (split; [done|]). cbn zeta in *.
  set (plan := (choosePlan requestPlan smallestPlan).2) in *.
  assert (plan = requestPlan \/ plan = smallestPlan) as Hchosen.
  { subst plan. destruct (choosePlan_cases requestPlan smallestPlan) as [[_ ->]|[_ ->]]; auto. }
  do 2 (split; [done|]). rewrite Htext. clearbody plan.
  assert (exists strategy order, NoDup order /\
            buildPlan strategy order loop.(candidates) = Ok plan)
    as (strategy & order & Hnd & Hplan).
  { destruct Hchosen as [->| ->]; eexists _, _; (split; [|eassumption]);
      [apply requestOrderOf_NoDup|apply smallestFirstOrderOf_NoDup]. }
  pose proof max_bytes_nonneg as HmaxB. pose proof max_lines_pos as HmaxL.
  assert (0 <= DEFAULT_MAX_LINES) as HmaxL0 by lia.
  destruct (buildPlan_within _ _ _ _ HmaxB HmaxL0 Hplan) as [Hwb Hwl].
  destruct (buildPlan_assembled _ _ _ _ Hnd Hmeasured Hplan) as (Hpos & Hzero & Hnonneg).
  rewrite truncateHead_within; [done| |].
  - destruct (Z.lt_ge_cases 0 (PackingPlan.sectionCount plan)) as [Hp|Hz].
    + rewrite (Hpos Hp). cbn. lia.
    + rewrite Hzero by lia. cbn. lia.
  - destruct (Z.lt_ge_cases 0 (PackingPlan.sectionCount plan)) as [Hp|Hz].
    + rewrite (Hpos Hp). cbn. lia.
    + rewrite Hzero by lia. cbn. lia.
Qed.

(** C6. Whenever [execute] returns, on a host whose [truncateHead]
    returns a text within both limits unchanged, the text it returns is
    that of the plan that won, request-order or smallest-first, and it
    lists the sections of that plan in request order: it is the join, by
    blank lines, of what each position contributes, position by position
    (the full block of a fully included file, the partial text at the
    partial index, nothing for an omitted file).  So for included
    positions [i < j] the returned text is the sections of the files before
    [i], the section of [i], a blank line, the sections of the files
    between the two, the section of [j], and the rest. *)
Theorem output_in_request_order (params : ReadManyInput.t)
    (trace : list (nat * ReadToolInput.t)) (result : ReadManyResult.t) :
  execute readTool aborted params = Ok (trace, result) ->
  exists loop requestPlan smallestPlan,
    readFiles readTool aborted params.(ReadManyInput.stopOnError) 0
      params.(ReadManyInput.files) startLoop = Ok loop /\
    buildPlan RequestOrder (requestOrderOf loop.(candidates)) loop.(candidates)
      = Ok requestPlan /\
    buildPlan SmallestFirst (smallestFirstOrderOf loop.(candidates)) loop.(candidates)
      = Ok smallestPlan /\
    let plan := (choosePlan requestPlan smallestPlan).2 in
    let candidates := loop.(candidates) in
    (plan = requestPlan \/ plan = smallestPlan) /\
    result.(ReadManyResult.details).(ReadManyDetails.packing).(Packing.strategy)
      = plan.(PackingPlan.strategy) /\
    result.(ReadManyResult.text)
      = join [LF; LF] (omap (sectionText plan candidates) (seq 0 (length candidates))) /\
    forall (i j : nat) (ti tj : jsstring),
      (i < j)%nat ->
      sectionText plan candidates i = Some ti ->
      sectionText plan candidates j = Some tj ->
      exists post,
        result.(ReadManyResult.text)
        = sectionsWithSeparator plan candidates (seq 0 i)
          ++ ti ++ [LF; LF]
          ++ sectionsWithSeparator plan candidates (seq (S i) (j - S i))
          ++ tj ++ post.
Proof.
  intros (loop & requestPlan & smallestPlan & Hloop & Hr & Hs & Hchosen & Hstrategy
          & Htext)%execute_text_planned.
  exists loop, requestPlan, smallestPlan. do 3 (split; [done|]). cbn zeta in *.
  do 2 (split; [done|]). rewrite Htext. split.
  - unfold plannedOutputTextOf. f_equal.
    apply (renderSections_sectionText _ [] loop.(candidates)).
  - intros i j ti tj Hij Hi Hj.
    by destruct (plannedOutputTextOf_in_order _ _ i j ti tj Hij Hi Hj) as [_ Hpost].
Qed.

End RenderClaim.

(** ** The properties at concrete inputs *)

(** The test "uses strict request-order full packing", on the small host:
    the request-order plan stops at the large middle candidate, the
    smallest-first plan skips it. *)
Example request_order_stops_smallest_first_skips :
  match buildPlan (H := smallHost) RequestOrder [0; 1; 2]%nat threeCandidates,
        buildPlan (H := smallHost) SmallestFirst [0; 2; 1]%nat threeCandidates with
  | Ok requestPlan, Ok smallestPlan =>
      (fun i => bool_decide (i ∈ requestPlan.(PackingPlan.fullIncluded))) <$> [0; 1; 2]%nat
        = [true; false; false]
      /\ (fun i => bool_decide (i ∈ smallestPlan.(PackingPlan.fullIncluded))) <$> [0; 1; 2]%nat
        = [true; false; true]
  | _, _ => False
  end.
Proof. vm_compute. auto. Qed.

Lemma request_order_stops_at_first_miss_witness :
  match buildPlan (H := smallHost) RequestOrder [0; 1; 2]%nat threeCandidates with
  | Ok plan =>
      (forall j, j ∈ plan.(PackingPlan.fullIncluded) -> j ∈ [0%nat]) /\
      (NoDup [0; 1; 2]%nat ->
       forall j, j ∈ [1; 2]%nat -> j ∉ plan.(PackingPlan.fullIncluded))
  | Throw _ => False
  end.
Proof.
  destruct (buildPlan (H := smallHost) RequestOrder [0; 1; 2]%nat threeCandidates)
    as [plan|] eqn:Hplan; [|vm_compute in Hplan; discriminate].
  destruct (fullPass (H := smallHost) RequestOrder threeCandidates [0%nat] fullPassStart)
    as [before|] eqn:Hbefore; [|vm_compute in Hbefore; discriminate].
  apply (request_order_stops_at_first_miss (H := smallHost)
           threeCandidates [0; 1; 2]%nat plan [0%nat] 1%nat [2%nat]
           (makeCandidate (js "/b") (replicate 200 72%N) true 1 None) before).
  - exact Hplan.
  - reflexivity.
  - exact Hbefore.
  - reflexivity.
  - vm_compute in Hbefore. injection Hbefore as <-. vm_compute. reflexivity.
Defined.

(** A file of thirty lines on the small host: nothing fits in full, and
    the partial section takes the twelve lines there are. *)
Example long_file_is_partially_included :
  match buildPlan (H := smallHost) RequestOrder [0%nat] longCandidate with
  | Ok plan =>
      (PackedSection.index <$> plan.(PackingPlan.partialSection)) = Some 0%nat
      /\ (PackedSection.metrics <$> plan.(PackingPlan.partialSection))
         = Some {| bytes := 56; lines := 12 |}
      /\ plan.(PackingPlan.sectionCount) = 1
  | Throw _ => False
  end.
Proof. vm_compute. auto. Qed.

Lemma at_most_one_partial_within_budget_witness :
  match buildPlan (H := smallHost) RequestOrder [0%nat] longCandidate with
  | Ok plan =>
      exists full,
        fullPass (H := smallHost) RequestOrder longCandidate [0%nat] fullPassStart = Ok full /\
        match plan.(PackingPlan.partialSection) with
        | None =>
            plan.(PackingPlan.sectionCount) = full.(fp_state).(PackState.sectionCount)
        | Some section =>
            plan.(PackingPlan.sectionCount) = full.(fp_state).(PackState.sectionCount) + 1 /\
            (section.(PackedSection.index) < length longCandidate)%nat /\
            (section.(PackedSection.index) ∉ plan.(PackingPlan.fullIncluded)) /\
            section.(PackedSection.metrics) = measureText section.(PackedSection.text) /\
            (measureText section.(PackedSection.text)).(bytes)
              <= 120 - full.(fp_state).(PackState.usedBytes) - sepBytesOf full.(fp_state) /\
            (measureText section.(PackedSection.text)).(lines)
              <= 12 - full.(fp_state).(PackState.usedLines) - sepLinesOf full.(fp_state)
        end
  | Throw _ => False
  end.
Proof.
  destruct (buildPlan (H := smallHost) RequestOrder [0%nat] longCandidate)
    as [plan|] eqn:Hplan; [|vm_compute in Hplan; discriminate].
  exact (at_most_one_partial_within_budget (H := smallHost)
           RequestOrder [0%nat] longCandidate plan Hplan).
Defined.

(** The sections of a plan that fully includes the positions 0 and 2
    of three candidates. *)
Example planZeroAndTwo_in_order :
  renderSections planZeroAndTwo 0 threeCandidates
    = omap (sectionText planZeroAndTwo threeCandidates) (seq 0 (length threeCandidates))
  /\ exists post,
       plannedOutputTextOf planZeroAndTwo threeCandidates
       = sectionsWithSeparator planZeroAndTwo threeCandidates (seq 0 0)
         ++ js "small-a" ++ [LF; LF]
         ++ sectionsWithSeparator planZeroAndTwo threeCandidates (seq 1 (2 - 1))
         ++ js "small-c" ++ post.
Proof.
  apply (plannedOutputTextOf_in_order planZeroAndTwo threeCandidates 0 2
           (js "small-a") (js "small-c")).
  - lia.
  - vm_compute. reflexivity.
  - vm_compute. reflexivity.
Qed.

Lemma output_in_request_order_witness :
  match execute (H := smallHost) largeThenSmall neverAborted largeThenSmallParams with
  | Ok (trace, result) =>
      result.(ReadManyResult.details).(ReadManyDetails.packing).(Packing.strategy)
        = SmallestFirst /\
      exists loop requestPlan smallestPlan,
        readFiles largeThenSmall neverAborted None 0
          largeThenSmallParams.(ReadManyInput.files) startLoop = Ok loop /\
        buildPlan (H := smallHost) RequestOrder (requestOrderOf loop.(candidates))
          loop.(candidates) = Ok requestPlan /\
        buildPlan (H := smallHost) SmallestFirst (smallestFirstOrderOf loop.(candidates))
          loop.(candidates) = Ok smallestPlan /\
        let plan := (choosePlan requestPlan smallestPlan).2 in
        sectionText plan loop.(candidates) 1
          = Some (formatContentBlock (js "/b") (js "small-b") 2) /\
        sectionText plan loop.(candidates) 2
          = Some (formatContentBlock (js "/c") (js "small-c") 3) /\
        exists post,
          result.(ReadManyResult.text)
          = sectionsWithSeparator plan loop.(candidates) (seq 0 1)
            ++ formatContentBlock (js "/b") (js "small-b") 2 ++ [LF; LF]
            ++ sectionsWithSeparator plan loop.(candidates) (seq 2 (2 - 2))
            ++ formatContentBlock (js "/c") (js "small-c") 3 ++ post
  | Throw _ => False
  end.
Proof.
  destruct (execute (H := smallHost) largeThenSmall neverAborted largeThenSmallParams)
    as [[trace result]|] eqn:Hexec; [|vm_compute in Hexec; discriminate].
  destruct (output_in_request_order (H := smallHost) (laws := smallHost_laws)
              largeThenSmall neverAborted largeThenSmallParams trace result Hexec)
    as (loop & requestPlan & smallestPlan & Hloop & Hr & Hs & _ & Hstrategy & _ & Horder).
  pose proof Hloop as Hrun. vm_compute in Hrun. injection Hrun as <-.
  pose proof Hr as Hrequest. vm_compute in Hrequest. injection Hrequest as <-.
  pose proof Hs as Hsmallest. vm_compute in Hsmallest. injection Hsmallest as <-.
  split; [rewrite Hstrategy; vm_compute; reflexivity|].
  eexists _, _, _. split; [exact Hloop|]. split; [exact Hr|]. split; [exact Hs|].
  cbn zeta in *.
  split; [vm_compute; reflexivity|]. split; [vm_compute; reflexivity|].
  apply Horder; [lia|vm_compute; reflexivity|vm_compute; reflexivity].
Defined.

(** The test "switches to smallest-first only when successful full
    coverage improves", on the small host. *)
Example large_then_small_switches :
  match execute (H := smallHost) largeThenSmall neverAborted largeThenSmallParams with
  | Ok (trace, result) =>
      let packing := result.(ReadManyResult.details).(ReadManyDetails.packing) in
      packing.(Packing.strategy) = SmallestFirst
      /\ packing.(Packing.switchedForCoverage) = true
      /\ packing.(Packing.fullIncludedSuccessCount) = 2
      /\ packing.(Packing.omittedPaths) = [js "/a"]
      /\ result.(ReadManyResult.details).(ReadManyDetails.combinedTruncation) = None
      /\ result.(ReadManyResult.text)
         = formatContentBlock (js "/b") (js "small-b") 2 ++ [LF; LF]
           ++ formatContentBlock (js "/c") (js "small-c") 3
  | Throw _ => False
  end.
Proof. vm_compute. repeat split. Qed.

(** The test "does not switch strategy when only error-block coverage
    improves", on the small host: the smallest-first plan fully includes
    the two error blocks, which are no successful blocks. *)
Example large_then_errors_keeps_request_order :
  match execute (H := smallHost) largeThenErrors neverAborted
          {| ReadManyInput.files := [requestFor "/a"; requestFor "/e1"; requestFor "/e2"];
             ReadManyInput.stopOnError := None |} with
  | Ok (trace, result) =>
      let packing := result.(ReadManyResult.details).(ReadManyDetails.packing) in
      packing.(Packing.strategy) = RequestOrder
      /\ packing.(Packing.switchedForCoverage) = false
      /\ packing.(Packing.fullIncludedSuccessCount) = 0
      /\ packing.(Packing.partialIncludedPath) = Some (js "/a")
      /\ result.(ReadManyResult.details).(ReadManyDetails.errorCount) = 2%nat
  | Throw _ => False
  end.
Proof. vm_compute. repeat split. Qed.

(** The test "summarizes image attachments in combined text output". *)
Example image_is_summarized :
  match execute (H := piHost) imageTool neverAborted
          {| ReadManyInput.files := [requestFor "/img"];
             ReadManyInput.stopOnError := None |} with
  | Ok (trace, result) =>
      result.(ReadManyResult.text)
      = formatContentBlock (js "/img")
          (js "Read image file [image/png]" ++ [LF]
           ++ js "[1 image attachment(s) omitted; use read on this file for image payload.]")
          1
      /\ (ReadManyFileDetail.imageCount <$> result.(ReadManyResult.details).(ReadManyDetails.files))
         = [Some 1]
  | Throw _ => False
  end.
Proof. vm_compute. repeat split. Qed.

(** The test "uses heredoc error framing and honors stopOnError". *)
Example error_is_framed :
  match execute (H := piHost) goodBadGood neverAborted
          {| ReadManyInput.files := [requestFor "/bad"; requestFor "/good"];
             ReadManyInput.stopOnError := Some true |} with
  | Ok (trace, result) =>
      result.(ReadManyResult.text) = formatContentBlock (js "/bad") (js "[Error: boom]") 1
      /\ result.(ReadManyResult.details).(ReadManyDetails.processedCount) = 1%nat
      /\ length trace = 1%nat
  | Throw _ => False
  end.
Proof. vm_compute. repeat split. Qed.

Lemma strategy_switch_iff_witness :
  match execute (H := smallHost) largeThenSmall neverAborted largeThenSmallParams with
  | Ok (trace, result) =>
      exists loop requestPlan smallestPlan,
        readFiles largeThenSmall neverAborted None 0
          largeThenSmallParams.(ReadManyInput.files) startLoop = Ok loop /\
        buildPlan (H := smallHost) RequestOrder (requestOrderOf loop.(candidates))
          loop.(candidates) = Ok requestPlan /\
        buildPlan (H := smallHost) SmallestFirst (smallestFirstOrderOf loop.(candidates))
          loop.(candidates) = Ok smallestPlan /\
        let packing := result.(ReadManyResult.details).(ReadManyDetails.packing) in
        let more :=
          successfulFullCount smallestPlan loop.(candidates)
          > successfulFullCount requestPlan loop.(candidates) in
        let plan := (choosePlan requestPlan smallestPlan).2 in
        (packing.(Packing.switchedForCoverage) = true <-> more) /\
        (packing.(Packing.strategy) = SmallestFirst <-> more) /\
        (packing.(Packing.strategy) = RequestOrder <-> ~ more) /\
        (more -> plan = smallestPlan) /\
        (~ more -> plan = requestPlan) /\
        packing.(Packing.fullIncludedSuccessCount)
          = successfulFullCount plan loop.(candidates) /\
        result.(ReadManyResult.text)
          = (truncateHeadByLines (plannedOutputTextOf plan loop.(candidates))
               12 120).(TruncationResult.content)
  | Throw _ => False
  end.
Proof.
  destruct (execute (H := smallHost) largeThenSmall neverAborted largeThenSmallParams)
    as [[trace result]|] eqn:Hexec; [|vm_compute in Hexec; discriminate].
  exact (strategy_switch_iff (H := smallHost) largeThenSmall neverAborted
           largeThenSmallParams trace result Hexec).
Defined.

Lemma stop_on_error_halts_witness :
  exists trace result,
    execute (H := smallHost) goodBadGood neverAborted
      {| ReadManyInput.files := goodBadGoodFiles; ReadManyInput.stopOnError := Some true |}
      = Ok (trace, result) /\
    trace = imap (fun i earlier => (i, inputOf earlier)) (take 2 goodBadGoodFiles) /\
    let details := result.(ReadManyResult.details) in
    details.(ReadManyDetails.processedCount) = 2%nat /\
    length details.(ReadManyDetails.files) = 2%nat /\
    (ReadManyFileDetail.ok <$> details.(ReadManyDetails.files))
      = replicate 1 true ++ [false] /\
    details.(ReadManyDetails.successCount) = 1%nat /\
    details.(ReadManyDetails.errorCount) = 1%nat.
Proof.
  apply (stop_on_error_halts (H := smallHost) goodBadGood neverAborted
           goodBadGoodFiles 1 (requestFor "/bad") (js "boom")).
  - reflexivity.
  - intros i earlier Hi Hlook. assert (i = 0%nat) as -> by lia.
    injection Hlook as <-. eexists. vm_compute. reflexivity.
  - vm_compute. reflexivity.
  - intros i _. reflexivity.
Defined.

Lemma planner_accounting_witness :
  match execute (H := smallHost) largeThenSmall neverAborted largeThenSmallParams with
  | Ok (trace, result) =>
      exists loop requestPlan smallestPlan,
        readFiles largeThenSmall neverAborted None 0
          largeThenSmallParams.(ReadManyInput.files) startLoop = Ok loop /\
        buildPlan (H := smallHost) RequestOrder (requestOrderOf loop.(candidates))
          loop.(candidates) = Ok requestPlan /\
        buildPlan (H := smallHost) SmallestFirst (smallestFirstOrderOf loop.(candidates))
          loop.(candidates) = Ok smallestPlan /\
        (forall plan, plan = requestPlan \/ plan = smallestPlan ->
           plan.(PackingPlan.usedBytes) <= 120 /\
           plan.(PackingPlan.usedLines) <= 12 /\
           (0 < plan.(PackingPlan.sectionCount) ->
              measureText (plannedOutputTextOf plan loop.(candidates))
              = {| bytes := plan.(PackingPlan.usedBytes);
                   lines := plan.(PackingPlan.usedLines) |}) /\
           (plan.(PackingPlan.sectionCount) <= 0 ->
              plannedOutputTextOf plan loop.(candidates) = [] /\
              plan.(PackingPlan.usedBytes) = 0 /\ plan.(PackingPlan.usedLines) = 0)) /\
        result.(ReadManyResult.text)
          = plannedOutputTextOf (choosePlan requestPlan smallestPlan).2 loop.(candidates) /\
        result.(ReadManyResult.details).(ReadManyDetails.combinedTruncation) = None
  | Throw _ => False
  end.
Proof.
  destruct (execute (H := smallHost) largeThenSmall neverAborted largeThenSmallParams)
    as [[trace result]|] eqn:Hexec; [|vm_compute in Hexec; discriminate].
  exact (planner_accounting (H := smallHost) (laws := smallHost_laws)
           largeThenSmall neverAborted largeThenSmallParams trace result Hexec).
Defined.

(** C7 as stated fails on a plan without sections.  On the pi host, let
    the only requested file fail with a message of two thousand line
    feeds: its error block has more than 2000 lines, so it is not fully
    included, and having no body it is not partially included either.  Both
    plans have counted 0 lines, but the text assembled from no section is
    the empty string, which [measureText] counts as 1 line.  The final
    truncation is a no-op all the same. *)
Lemma planner_accounting_fails_on_empty_plan :
  match readFiles longErrorTool neverAborted None 0
          longErrorParams.(ReadManyInput.files) startLoop with
  | Ok loop =>
      match buildPlan (H := piHost) RequestOrder (requestOrderOf loop.(candidates))
              loop.(candidates),
            buildPlan (H := piHost) SmallestFirst (smallestFirstOrderOf loop.(candidates))
              loop.(candidates),
            execute (H := piHost) longErrorTool neverAborted longErrorParams with
      | Ok requestPlan, Ok smallestPlan, Ok (trace, result) =>
          requestPlan.(PackingPlan.usedLines) = 0
          /\ (measureText (plannedOutputTextOf requestPlan loop.(candidates))).(lines) = 1
          /\ smallestPlan.(PackingPlan.usedLines) = 0
          /\ (measureText (plannedOutputTextOf smallestPlan loop.(candidates))).(lines) = 1
          /\ result.(ReadManyResult.text) = []
          /\ result.(ReadManyResult.details).(ReadManyDetails.combinedTruncation) = None
      | _, _, _ => False
      end
  | Throw _ => False
  end.
Proof. vm_compute. repeat split. Qed.

(** * Further properties of the code *)

(** ** measureText *)

Lemma length_split_countLF text : length (split LF text) = S (countLF text).
Proof.
  unfold countLF. induction text as [|c text IH]; [done|].
  cbn [split]. rewrite filter_cons.
  destruct (N.eqb_spec c LF) as [->|Hne].
  - destruct (decide (LF = LF)); [|done]. cbn [length]. by rewrite IH.
  - destruct (decide (c = LF)); [done|].
    destruct (split LF text) as [|l ls] eqn:Hs; [by apply split_nonempty in Hs|].
    cbn [length] in *. done.
Qed.

(** Two texts joined by a blank line: 2 bytes and 1 line on top of
    theirs. *)
Lemma measureText_join_two (a b : jsstring) :
  measureText (a ++ [LF; LF] ++ b)
  = {| bytes := (measureText a).(bytes) + 2 + (measureText b).(bytes);
       lines := (measureText a).(lines) + 1 + (measureText b).(lines) |}.
Proof.
  unfold measureText. cbn [bytes lines].
  change (a ++ [LF; LF] ++ b) with (a ++ LF :: ([] ++ LF :: b)).
  rewrite !byteLength_app_LF, !split_app_sep, !length_app.
  cbn [split length byteLength utf8From]. f_equal; lia.
Qed.

Section SeparatorCost.
Context `{Host}.

(** X1. [measureText] counts one line more than the text has line feeds,
    so at least one; and two texts joined by a blank line measure the sum
    of their bytes plus 2 and the sum of their lines plus 1.  This is the
    separator cost that [canFitSection] and [addSection] charge: on a
    state that has counted the text [a] in one section or more,
    [canFitSection] accepts the metrics of [b] exactly when [a], a blank
    line and [b] measure within the ceilings, and [addSection] moves the
    counters to the measure of that text; on the state that has counted
    nothing no separator is charged. *)
Theorem measureText_blank_line (a b : jsstring) :
  (measureText a).(lines) = 1 + Z.of_nat (countLF a) /\
  measureText (a ++ [LF; LF] ++ b)
  = {| bytes := (measureText a).(bytes) + 2 + (measureText b).(bytes);
       lines := (measureText a).(lines) + 1 + (measureText b).(lines) |} /\
  (forall state : PackState.t,
     state.(PackState.usedBytes) = (measureText a).(bytes) ->
     state.(PackState.usedLines) = (measureText a).(lines) ->
     0 < state.(PackState.sectionCount) ->
     (canFitSection state (measureText b) = true <->
      (measureText (a ++ [LF; LF] ++ b)).(bytes) <= DEFAULT_MAX_BYTES /\
      (measureText (a ++ [LF; LF] ++ b)).(lines) <= DEFAULT_MAX_LINES) /\
     addSection state (measureText b)
     = {| PackState.usedBytes := (measureText (a ++ [LF; LF] ++ b)).(bytes);
          PackState.usedLines := (measureText (a ++ [LF; LF] ++ b)).(lines);
          PackState.sectionCount := state.(PackState.sectionCount) + 1 |}) /\
  (forall state : PackState.t,
     state.(PackState.usedBytes) = 0 ->
     state.(PackState.usedLines) = 0 ->
     state.(PackState.sectionCount) = 0 ->
     (canFitSection state (measureText b) = true <->
      (measureText b).(bytes) <= DEFAULT_MAX_BYTES /\
      (measureText b).(lines) <= DEFAULT_MAX_LINES) /\
     addSection state (measureText b)
     = {| PackState.usedBytes := (measureText b).(bytes);
          PackState.usedLines := (measureText b).(lines);
          PackState.sectionCount := 1 |}).
Proof.
  split; [cbn [measureText lines]; rewrite length_split_countLF; lia|].
  split; [apply measureText_join_two|].
  split.
  - intros state Hbytes Hlines Hcount. rewrite measureText_join_two. cbn [bytes lines].
    unfold canFitSection, addSection, sepBytesOf, sepLinesOf.
    destruct (Z.gtb_spec state.(PackState.sectionCount) 0); [|lia].
    rewrite Hbytes, Hlines, andb_true_iff, !Z.leb_le. split; [done|].
    f_equal; lia.
  - intros state Hbytes Hlines Hcount.
    unfold canFitSection, addSection, sepBytesOf, sepLinesOf.
    destruct (Z.gtb_spec state.(PackState.sectionCount) 0); [lia|].
    rewrite Hbytes, Hlines, Hcount, andb_true_iff, !Z.leb_le. done.
Qed.

End SeparatorCost.

(** The second of two one-line sections on the small host. *)
Lemma measureText_blank_line_witness :
  canFitSection (H := smallHost)
    {| PackState.usedBytes := 7; PackState.usedLines := 1; PackState.sectionCount := 1 |}
    (measureText (js "small-c")) = true /\
  addSection
    {| PackState.usedBytes := 7; PackState.usedLines := 1; PackState.sectionCount := 1 |}
    (measureText (js "small-c"))
  = {| PackState.usedBytes := 16; PackState.usedLines := 3;
       PackState.sectionCount := 2 |}.
Proof.
  destruct (measureText_blank_line (H := smallHost) (js "small-a") (js "small-c"))
    as (_ & _ & Hnext & _).
  destruct (Hnext {| PackState.usedBytes := 7; PackState.usedLines := 1;
                     PackState.sectionCount := 1 |} eq_refl eq_refl ltac:(done))
    as [Hfit Hadd].
  split; [apply Hfit; vm_compute; split; discriminate|].
  rewrite Hadd. vm_compute. reflexivity.
Defined.

(** ** createPathHash *)

Lemma upperHex_padAndCut digits :
  Forall isUpperHexDigit digits ->
  Forall isUpperHexDigit (take 6 (padStart0 6 digits)).
Proof.
  intros Hd. unfold padStart0. apply Forall_take, Forall_app. split; [|done].
  apply Forall_replicate. unfold isUpperHexDigit. lia.
Qed.

(** X2. Whatever the path, [createPathHash] returns exactly six
    characters, each of them one of [0-9A-F]. *)
Theorem createPathHash_six_hex_digits (path : jsstring) :
  length (createPathHash path) = 6%nat /\
  Forall isUpperHexDigit (createPathHash path).
Proof.
  split; [apply createPathHash_length|].
  unfold createPathHash. apply upperHex_padAndCut.
  pose proof (rollingHash_range path) as Hrange. rewrite hashLoop_spec.
  destruct (upperHexOf_toString (Z.to_N (rollingHash path))) as (Hall & _). done.
Qed.

(** ** pickDelimiter *)

(** What [pickDelimiter] returns, case by case. *)
Lemma pickDelimiterFuel_cases fuel path index content d :
  pickDelimiterFuel fuel path index content = Some d ->
  let lineSet := buildLineSet content in
  let base := delimiterBase path index in
  let fallback := delimiterFallback path index content in
  ((base ∉ lineSet) /\ d = base)
  \/ (base ∈ lineSet /\
      exists k : nat, (k < 256)%nat /\ d = suffixed base (1 + Z.of_nat k) /\
        (d ∉ lineSet) /\
        forall i : nat, (i < k)%nat -> suffixed base (1 + Z.of_nat i) ∈ lineSet)
  \/ (base ∈ lineSet /\
      (forall i : nat, (i < 256)%nat -> suffixed base (1 + Z.of_nat i) ∈ lineSet) /\
      (((fallback ∉ lineSet) /\ d = fallback)
       \/ (fallback ∈ lineSet /\
           exists k : nat, d = suffixed fallback (1 + Z.of_nat k) /\
             (d ∉ lineSet) /\
             forall i : nat, (i < k)%nat ->
               suffixed fallback (1 + Z.of_nat i) ∈ lineSet))).
Proof.
  unfold pickDelimiterFuel. fold (delimiterWord index). fold (delimiterBase path index).
  fold (delimiterFallback path index content). cbn zeta.
  destruct (has (buildLineSet content) (delimiterBase path index)) eqn:Hbase; cbn [negb].
  2:{ intros [= <-]. left. split; [by apply has_false|done]. }
  apply has_true in Hbase.
  destruct (probeSuffixes 256 _ _ 1) as [c|] eqn:H256.
  { intros [= <-]. right. left. split; [done|].
    apply probeSuffixes_Some in H256 as (k & Hk & -> & Hfree & Hbusy). by exists k. }
  intros Hd. right. right. split; [done|].
  split; [exact (probeSuffixes_None _ _ _ _ H256)|]. revert Hd.
  destruct (has (buildLineSet content) (delimiterFallback path index content)) eqn:Hfb;
    cbn [negb].
  2:{ intros [= <-]. left. split; [by apply has_false|done]. }
  apply has_true in Hfb. intros (k & _ & -> & Hfree & Hbusy)%probeSuffixes_Some.
  right. split; [done|]. by exists k.
Qed.

(** X3. [pickDelimiter] returns the first free token of the sequence
    base, base_1 ... base_256, fallback, fallback_1, fallback_2, ...: the
    base [<word>_<index>_<hash>] when no content line equals it; else the
    base with the least suffix from 1 to 256 that is free; else, all of
    these being lines, the fallback [<base>_<length in base 36>] when free;
    else the fallback with the least free suffix.  "Free" is: not a line of
    the content once a trailing carriage return is dropped. *)
Theorem pickDelimiter_first_free (path : jsstring) (index : Z) (content : jsstring) :
  let lineSet := buildLineSet content in
  let base := delimiterBase path index in
  let fallback := delimiterFallback path index content in
  let d := pickDelimiter path index content in
  ((base ∉ lineSet) /\ d = base)
  \/ (base ∈ lineSet /\
      exists k : nat, (k < 256)%nat /\ d = suffixed base (1 + Z.of_nat k) /\
        (d ∉ lineSet) /\
        forall i : nat, (i < k)%nat -> suffixed base (1 + Z.of_nat i) ∈ lineSet)
  \/ (base ∈ lineSet /\
      (forall i : nat, (i < 256)%nat -> suffixed base (1 + Z.of_nat i) ∈ lineSet) /\
      (((fallback ∉ lineSet) /\ d = fallback)
       \/ (fallback ∈ lineSet /\
           exists k : nat, d = suffixed fallback (1 + Z.of_nat k) /\
             (d ∉ lineSet) /\
             forall i : nat, (i < k)%nat ->
               suffixed fallback (1 + Z.of_nat i) ∈ lineSet))).
Proof.
  apply (pickDelimiterFuel_cases (S (size (buildLineSet content)) + 0)).
  apply pickDelimiter_fuel.
Qed.

(** Every delimiter starts with the word of its position and an
    underscore. *)
Lemma pickDelimiter_word path index content :
  exists rest, pickDelimiter path index content = delimiterWord index ++ js "_" ++ rest.
Proof.
  destruct (pickDelimiterFuel_cases _ _ _ _ _ (pickDelimiter_fuel 0 path index content))
    as [[_ ->]|[(_ & k & _ & -> & _)|(_ & _ & [[_ ->]|(_ & k & -> & _)])]];
    unfold suffixed, delimiterFallback, delimiterBase; rewrite <- ?app_assoc; by eexists.
Qed.

Lemma toStringRadix_digits radix n : Forall (fun c => 48 <= c)%N (toStringRadix radix n).
Proof.
  unfold toStringRadix. apply Forall_fmap, Forall_forall. intros d _. apply digitChar_ge.
Qed.

Lemma toStringRadix_not_nil radix n : toStringRadix radix n <> [].
Proof.
  unfold toStringRadix. intros H%fmap_nil_inv.
  apply (f_equal reverse) in H. rewrite reverse_involutive in H.
  by apply digitsLE_nonempty in H.
Qed.

(** The decimal rendering tells integers apart, negative ones included. *)
Lemma numberToString_inj_Z x y : numberToString x = numberToString y -> x = y.
Proof.
  unfold numberToString.
  assert (forall n m, js "-" ++ toStringRadix 10 n <> toStringRadix 10 m) as Hsign.
  { intros n m Heq. pose proof (toStringRadix_digits 10 m) as Hm.
    rewrite <- Heq in Hm. apply Forall_cons in Hm as [Hm _]. cbn in Hm. lia. }
  destruct (Z.ltb_spec x 0), (Z.ltb_spec y 0); intros Heq.
  - apply app_inv_head, toStringRadix_inj in Heq; lia.
  - by apply Hsign in Heq.
  - symmetry in Heq. by apply Hsign in Heq.
  - apply toStringRadix_inj in Heq; lia.
Qed.

Lemma numberToString_no_underscore z : 95%N ∉ numberToString z.
Proof.
  assert (forall n, 95%N ∉ toStringRadix 10 n) as Hdigits.
  { intros n. unfold toStringRadix. intros (d & Hd & Hin)%list_elem_of_fmap.
    rewrite elem_of_reverse in Hin.
    apply digitsLE_bound in Hin; [|lia]. unfold digitChar in Hd.
    destruct (N.ltb_spec d 10); lia. }
  unfold numberToString. destruct (z <? 0); [|done].
  rewrite elem_of_app. intros [Hin|Hin]; [|by apply Hdigits in Hin].
  apply list_elem_of_singleton in Hin. done.
Qed.

Lemma delimiterWord_no_underscore index : 95%N ∉ delimiterWord index.
Proof.
  unfold delimiterWord. destruct (arrayGet DELIMITER_WORDS (index - 1)) as [w|] eqn:Hw.
  - assert (Forall (fun w => 95%N ∉ w) DELIMITER_WORDS) as Hall
      by (apply (bool_decide_eq_true (Forall (fun w => 95%N ∉ w) DELIMITER_WORDS));
          vm_compute; reflexivity).
    rewrite Forall_forall in Hall. apply Hall.
    unfold arrayGet in Hw. destruct (index - 1 <? 0); [discriminate|].
    by eapply list_elem_of_lookup_2.
  - rewrite elem_of_app. intros [Hin|Hin]; [|by apply numberToString_no_underscore in Hin].
    revert Hin. apply (bool_decide_eq_true (95%N ∉ js "FILE")). vm_compute. reflexivity.
Qed.

(** The word tells positions apart. *)
Lemma delimiterWord_inj i j : delimiterWord i = delimiterWord j -> i = j.
Proof.
  assert (NoDup DELIMITER_WORDS) as Hnd
    by (apply (bool_decide_eq_true (NoDup DELIMITER_WORDS)); vm_compute; reflexivity).
  assert (Forall (fun w => take 4 w <> js "FILE") DELIMITER_WORDS) as Hfile
    by (apply (bool_decide_eq_true (Forall (fun w => take 4 w <> js "FILE") DELIMITER_WORDS));
        vm_compute; reflexivity).
  rewrite Forall_forall in Hfile.
  assert (forall k w z, arrayGet DELIMITER_WORDS (k - 1) = Some w ->
            w <> js "FILE" ++ numberToString z) as Hmixed.
  { intros k w z Hw ->. unfold arrayGet in Hw. destruct (k - 1 <? 0); [discriminate|].
    apply list_elem_of_lookup_2, Hfile in Hw. by apply Hw. }
  unfold delimiterWord.
  destruct (arrayGet DELIMITER_WORDS (i - 1)) as [w|] eqn:Hi,
           (arrayGet DELIMITER_WORDS (j - 1)) as [w'|] eqn:Hj; intros Heq.
  - subst w'. unfold arrayGet in Hi, Hj.
    destruct (Z.ltb_spec (i - 1) 0); [discriminate|].
    destruct (Z.ltb_spec (j - 1) 0); [discriminate|].
    pose proof (NoDup_lookup _ _ _ _ Hnd Hi Hj). lia.
  - by apply (Hmixed i w j) in Hi.
  - symmetry in Heq. by apply (Hmixed j w' i) in Hj.
  - by apply app_inv_head, numberToString_inj_Z in Heq.
Qed.

Lemma first_segment_eq (w w' t t' : jsstring) :
  95%N ∉ w -> 95%N ∉ w' -> w ++ 95%N :: t = w' ++ 95%N :: t' -> w = w'.
Proof.
  revert w'. induction w as [|c w IH]; intros [|c' w'] Hw Hw' Heq; cbn in Heq.
  - done.
  - injection Heq as <- _. exfalso. apply Hw'. by left.
  - injection Heq as -> _. exfalso. apply Hw. by left.
  - injection Heq as <- Heq. f_equal.
    apply not_elem_of_cons in Hw as [_ Hw]. apply not_elem_of_cons in Hw' as [_ Hw'].
    by apply IH.
Qed.

(** X4. Blocks at different positions never share a delimiter, whatever
    their paths and contents: the delimiter starts with the word of the
    position, and the words of different positions differ. *)
Theorem pickDelimiter_positions_differ (path path' : jsstring) (index index' : Z)
    (content content' : jsstring) :
  index <> index' ->
  pickDelimiter path index content <> pickDelimiter path' index' content'.
Proof.
  intros Hne Heq.
  destruct (pickDelimiter_word path index content) as [rest Hd].
  destruct (pickDelimiter_word path' index' content') as [rest' Hd'].
  rewrite Hd, Hd' in Heq. apply Hne, delimiterWord_inj.
  eapply (first_segment_eq _ _ rest rest');
    [apply delimiterWord_no_underscore|apply delimiterWord_no_underscore|exact Heq].
Qed.

Lemma pickDelimiter_positions_differ_witness :
  pickDelimiter (js "/a") 1 (js "x") <> pickDelimiter (js "/a") 27 (js "x").
Proof. apply pickDelimiter_positions_differ. lia. Defined.

(** ** formatContentBlock *)

Lemma byteLength_ascii s : asciiChars s -> byteLength s = Z.of_nat (length s).
Proof.
  intros Hs. unfold byteLength. generalize false.
  induction Hs as [|c s Hc _ IH]; intros pendingHigh; cbn [utf8From length]; [done|].
  unfold isLowSurrogate. destruct (N.leb_spec 56320 c); [lia|]. rewrite andb_false_r.
  destruct (N.ltb_spec c 128); [|lia]. rewrite IH. lia.
Qed.

Lemma asciiChars_app s t : asciiChars s -> asciiChars t -> asciiChars (s ++ t).
Proof. apply Forall_app_2. Qed.

Lemma asciiChars_js (s : string) : bool_decide (asciiChars (js s)) = true -> asciiChars (js s).
Proof. intros H. by apply bool_decide_eq_true in H. Qed.

Lemma asciiChars_toStringRadix radix n :
  (0 < radix <= 36)%N -> asciiChars (toStringRadix radix n).
Proof.
  intros Hr. unfold asciiChars, toStringRadix. apply Forall_fmap, Forall_forall.
  intros d Hd. rewrite elem_of_reverse in Hd. apply digitsLE_bound in Hd; [|lia].
  unfold compose, digitChar. destruct (N.ltb d 10); lia.
Qed.

Lemma asciiChars_toUpperCase s : asciiChars s -> asciiChars (toUpperCase s).
Proof.
  unfold asciiChars, toUpperCase. intros H. apply Forall_fmap.
  eapply Forall_impl; [exact H|]. intros c Hc. unfold compose. cbn beta in *.
  destruct (_ && _); lia.
Qed.

Lemma asciiChars_numberToString z : asciiChars (numberToString z).
Proof.
  unfold numberToString. destruct (z <? 0); [apply asciiChars_app|];
    try (apply asciiChars_toStringRadix; lia).
  by apply (asciiChars_js "-").
Qed.

Lemma asciiChars_delimiterBase path index : asciiChars (delimiterBase path index).
Proof.
  unfold delimiterBase. repeat apply asciiChars_app;
    try apply asciiChars_numberToString; try (by apply (asciiChars_js "_")).
  - unfold delimiterWord. destruct (arrayGet DELIMITER_WORDS (index - 1)) as [w|] eqn:Hw.
    + assert (Forall asciiChars DELIMITER_WORDS) as Hall
        by (apply (bool_decide_eq_true (Forall asciiChars DELIMITER_WORDS));
            vm_compute; reflexivity).
      rewrite Forall_forall in Hall. apply Hall.
      unfold arrayGet in Hw. destruct (index - 1 <? 0); [discriminate|].
      by eapply list_elem_of_lookup_2.
    + apply asciiChars_app; [by apply (asciiChars_js "FILE")|apply asciiChars_numberToString].
  - unfold createPathHash, padStart0. apply Forall_take, Forall_app. split.
    + apply Forall_replicate. lia.
    + apply asciiChars_toUpperCase, asciiChars_toStringRadix. lia.
Qed.

(** A delimiter is made of ASCII characters: it has as many bytes as
    characters. *)
Lemma asciiChars_pickDelimiter path index content :
  asciiChars (pickDelimiter path index content).
Proof.
  pose proof (asciiChars_delimiterBase path index) as Hbase.
  assert (asciiChars (js "_")) as Hus by (by apply (asciiChars_js "_")).
  assert (asciiChars (delimiterFallback path index content)) as Hfb.
  { unfold delimiterFallback. apply asciiChars_app; [done|].
    apply asciiChars_app; [done|].
    apply asciiChars_toUpperCase, asciiChars_toStringRadix. lia. }
  assert (forall b k, asciiChars b -> asciiChars (suffixed b k)) as Hsuffixed.
  { intros b k Hb. unfold suffixed. apply asciiChars_app; [done|].
    apply asciiChars_app; [done|]. apply asciiChars_numberToString. }
  destruct (pickDelimiterFuel_cases _ _ _ _ _ (pickDelimiter_fuel 0 path index content))
    as [[_ ->]|[(_ & k & _ & -> & _)|(_ & _ & [[_ ->]|(_ & k & -> & _)])]]; auto.
Qed.

(** The frame of a block costs exactly 8 bytes plus twice the length of
    the delimiter, and two lines besides those of the header. *)
Lemma formatContentBlock_measure (path body : jsstring) (index : Z) :
  measureText (formatContentBlock path body index)
  = {| bytes := byteLength path + byteLength body
                + 2 * Z.of_nat (length (pickDelimiter path index body)) + 8;
       lines := (measureText path).(lines) + (measureText body).(lines) + 2 |}.
Proof.
  unfold measureText. cbn [lines]. f_equal.
  - unfold formatContentBlock.
    pose proof (asciiChars_pickDelimiter path index body) as Hd.
    set (d := pickDelimiter path index body) in *.
    replace (js "@" ++ path ++ [LF] ++ js "<<'" ++ d ++ js "'" ++ [LF]
               ++ body ++ [LF] ++ d)
      with ((js "@" ++ path) ++ LF :: ((js "<<'" ++ d ++ js "'")
               ++ LF :: (body ++ LF :: d)))
      by (by rewrite <- !app_assoc).
    rewrite !byteLength_app_LF.
    rewrite (byteLength_ascii d) by done.
    rewrite (byteLength_ascii (js "<<'" ++ d ++ js "'")).
    2:{ apply asciiChars_app; [by apply (asciiChars_js "<<'")|].
        apply asciiChars_app; [done|by apply (asciiChars_js "'")]. }
    rewrite !length_app.
    change (byteLength (js "@" ++ path)) with (1 + byteLength path).
    cbn [length js fmap list_fmap list_ascii_of_string]. lia.
  - rewrite formatContentBlock_lines, !length_app.
    change (js "@" ++ path) with (64%N :: path).
    rewrite !length_split_countLF. unfold countLF. rewrite filter_cons.
    destruct (decide (64%N = LF)); [done|]. cbn [length]. lia.
Qed.

(** ** buildPartialSection *)

Section PartialSectionProperties.
Context `{Host}.

(** The caps given to [truncateHead] never grow and stay at 1 or more;
    what the loop returns is the block of a non-empty truncation. *)
Lemma shrinkToFit_Some attempts candidate body remainingLines remainingBytes
    maxBodyLines maxBodyBytes text :
  1 <= maxBodyLines -> 1 <= maxBodyBytes ->
  shrinkToFit attempts candidate body remainingLines remainingBytes
    maxBodyLines maxBodyBytes = Some text ->
  exists capLines capBytes,
    1 <= capLines <= maxBodyLines /\ 1 <= capBytes <= maxBodyBytes /\
    let content := (truncateHead body capLines capBytes).(TruncationResult.content) in
    content <> [] /\
    text = formatContentBlock candidate.(FileCandidate.path) content
             (Z.of_nat candidate.(FileCandidate.index) + 1).
Proof.
  revert maxBodyLines maxBodyBytes.
  induction attempts as [|attempts IH]; intros maxBodyLines maxBodyBytes Hl Hb;
    cbn [shrinkToFit]; [discriminate|].
  destruct (TruncationResult.content (truncateHead body maxBodyLines maxBodyBytes))
    as [|c content] eqn:Hcontent; cbn [falsy]; [discriminate|]. cbn zeta.
  destruct (_ && _) at 1.
  - intros [= <-]. exists maxBodyLines, maxBodyBytes.
    split; [lia|]. split; [lia|]. cbn zeta. rewrite Hcontent. done.
  - intros (capLines & capBytes & Hcl & Hcb & Hrest)%IH.
    + exists capLines, capBytes. split; [|split; [|done]]; case_gtb; lia.
    + case_gtb; lia.
    + case_gtb; lia.
Qed.

(** What a returned partial text is. *)
Lemma buildPartialSection_Some (candidate : FileCandidate.t)
    (remainingLines remainingBytes : Z) (text : jsstring) :
  buildPartialSection candidate remainingLines remainingBytes = Some text ->
  exists body capLines capBytes,
    candidate.(FileCandidate.body) = Some body /\ body <> [] /\
    4 <= remainingLines /\ 32 <= remainingBytes /\
    1 <= capLines <= remainingLines - 3 /\
    1 <= capBytes <= Z.max 1 (remainingBytes - 96) /\
    let content := (truncateHead body capLines capBytes).(TruncationResult.content) in
    content <> [] /\
    text = formatContentBlock candidate.(FileCandidate.path) content
             (Z.of_nat candidate.(FileCandidate.index) + 1) /\
    (measureText text).(lines) <= remainingLines /\
    (measureText text).(bytes) <= remainingBytes.
Proof.
  intros Hbuild. pose proof (buildPartialSection_fits _ _ _ _ Hbuild) as [Hfl Hfb].
  revert Hbuild. unfold buildPartialSection.
  destruct (FileCandidate.body candidate) as [[|c body]|]; cbn [falsy default];
    [discriminate| |discriminate].
  destruct (Z.ltb_spec (remainingLines - 3) 1); [discriminate|].
  destruct (Z.ltb_spec remainingBytes 32); [discriminate|]. cbn [orb].
  intros (capLines & capBytes & Hcl & Hcb & Hcontent & ->)%shrinkToFit_Some; [|lia|lia].
  exists (c :: body), capLines, capBytes. repeat split; try done; lia.
Qed.

(** X6. [buildPartialSection] returns a text only for a candidate with
    a non-empty body, at least 4 remaining lines and at least 32 remaining
    bytes; the text is then the block, at the candidate's path and position,
    of a non-empty head truncation of the body, cut with caps between 1 and
    [remainingLines - 3] lines and between 1 and the larger of 1 and
    [remainingBytes - 96] bytes; and it fits the remaining lines and
    bytes. *)
Theorem buildPartialSection_result (candidate : FileCandidate.t)
    (remainingLines remainingBytes : Z) (text : jsstring) :
  buildPartialSection candidate remainingLines remainingBytes = Some text ->
  exists body capLines capBytes,
    candidate.(FileCandidate.body) = Some body /\ body <> [] /\
    4 <= remainingLines /\ 32 <= remainingBytes /\
    1 <= capLines <= remainingLines - 3 /\
    1 <= capBytes <= Z.max 1 (remainingBytes - 96) /\
    let content := (truncateHead body capLines capBytes).(TruncationResult.content) in
    content <> [] /\
    text = formatContentBlock candidate.(FileCandidate.path) content
             (Z.of_nat candidate.(FileCandidate.index) + 1) /\
    (measureText text).(lines) <= remainingLines /\
    (measureText text).(bytes) <= remainingBytes.
Proof. apply buildPartialSection_Some. Qed.

(** A partial text is never empty: it starts with the header. *)
Lemma buildPartialSection_truthy candidate remainingLines remainingBytes :
  falsy (buildPartialSection candidate remainingLines remainingBytes) = true ->
  buildPartialSection candidate remainingLines remainingBytes = None.
Proof.
  destruct (buildPartialSection _ _ _) as [text|] eqn:Hbuild; [|done].
  apply buildPartialSection_Some in Hbuild as (? & ? & ? & _ & _ & _ & _ & _ & _ & _ & -> & _).
  discriminate.
Qed.

(** X5. The frame of a block costs exactly 8 bytes plus twice the
    length of the delimiter, and two lines besides those of the header:
    [measureText] of a block is the bytes of path and body plus
    [2 * delimiter.length + 8], and the lines of path and body plus 2.
    For a path of one line the frame is 3 lines, the "3 structural lines"
    that [buildPartialSection] reserves: the text it returns for a
    candidate with such a path is the block of a truncation of the body
    with a line cap of at most [remainingLines - 3], it has 3 lines more
    than that truncation, and the truncation has at most
    [remainingLines - 3] lines. *)
Theorem formatContentBlock_overhead (path body : jsstring) (index : Z) :
  measureText (formatContentBlock path body index)
  = {| bytes := byteLength path + byteLength body
                + 2 * Z.of_nat (length (pickDelimiter path index body)) + 8;
       lines := (measureText path).(lines) + (measureText body).(lines) + 2 |} /\
  ((measureText path).(lines) = 1 ->
   (measureText (formatContentBlock path body index)).(lines)
   = (measureText body).(lines) + 3) /\
  forall (candidate : FileCandidate.t) (remainingLines remainingBytes : Z)
         (text : jsstring),
    (measureText candidate.(FileCandidate.path)).(lines) = 1 ->
    buildPartialSection candidate remainingLines remainingBytes = Some text ->
    exists candidateBody capLines capBytes,
      candidate.(FileCandidate.body) = Some candidateBody /\
      1 <= capLines <= remainingLines - 3 /\
      let content :=
        (truncateHead candidateBody capLines capBytes).(TruncationResult.content) in
      text = formatContentBlock candidate.(FileCandidate.path) content
               (Z.of_nat candidate.(FileCandidate.index) + 1) /\
      (measureText text).(lines) = (measureText content).(lines) + 3 /\
      (measureText content).(lines) <= remainingLines - 3.
Proof.
  split; [apply formatContentBlock_measure|]. split.
  - intros Hpath. rewrite formatContentBlock_measure. cbn [lines]. lia.
  - intros candidate remainingLines remainingBytes text Hpath Hbuild.
    apply buildPartialSection_Some in Hbuild
      as (candidateBody & capLines & capBytes & Hbody & _ & _ & _ & Hcap & _ & Hcontent).
    cbn zeta in Hcontent. destruct Hcontent as (_ & -> & Hfits & _).
    exists candidateBody, capLines, capBytes. split; [done|]. split; [done|]. cbn zeta.
    rewrite formatContentBlock_measure in Hfits |- *. cbn [lines] in Hfits |- *.
    repeat split; lia.
Qed.

End PartialSectionProperties.

Lemma formatContentBlock_overhead_witness :
  match buildPartialSection (H := smallHost)
          (makeCandidate (js "/long") (js "") true 0 (Some (manyLines 30))) 12 120 with
  | Some text =>
      exists candidateBody capLines capBytes,
        Some (manyLines 30) = Some candidateBody /\
        1 <= capLines <= 12 - 3 /\
        let content :=
          (truncateHeadByLines candidateBody capLines capBytes).(TruncationResult.content) in
        text = formatContentBlock (js "/long") content (Z.of_nat 0 + 1) /\
        (measureText text).(lines) = (measureText content).(lines) + 3 /\
        (measureText content).(lines) <= 12 - 3
  | None => False
  end.
Proof.
  destruct (buildPartialSection (H := smallHost)
              (makeCandidate (js "/long") (js "") true 0 (Some (manyLines 30))) 12 120)
    as [text|] eqn:Hbuild; [|vm_compute in Hbuild; discriminate].
  destruct (formatContentBlock_overhead (H := smallHost) (js "/long") (manyLines 30) 1)
    as (_ & _ & Hpartial).
  exact (Hpartial (makeCandidate (js "/long") (js "") true 0 (Some (manyLines 30)))
           12 120 text eq_refl Hbuild).
Defined.

Lemma buildPartialSection_result_witness :
  match buildPartialSection (H := smallHost)
          (makeCandidate (js "/long") (js "") true 0 (Some (manyLines 30))) 12 120 with
  | Some text =>
      exists body capLines capBytes,
        Some (manyLines 30) = Some body /\ body <> [] /\
        4 <= 12 /\ 32 <= 120 /\
        1 <= capLines <= 12 - 3 /\
        1 <= capBytes <= Z.max 1 (120 - 96) /\
        let content :=
          (truncateHeadByLines body capLines capBytes).(TruncationResult.content) in
        content <> [] /\
        text = formatContentBlock (js "/long") content (Z.of_nat 0 + 1) /\
        (measureText text).(lines) <= 12 /\
        (measureText text).(bytes) <= 120
  | None => False
  end.
Proof.
  destruct (buildPartialSection (H := smallHost)
              (makeCandidate (js "/long") (js "") true 0 (Some (manyLines 30))) 12 120)
    as [text|] eqn:Hbuild; [|vm_compute in Hbuild; discriminate].
  exact (buildPartialSection_result (H := smallHost) _ 12 120 text Hbuild).
Defined.

(** ** The plan *)

Section PlanProperties.
Context `{Host}.

Implicit Types (candidates : list FileCandidate.t) (order : list nat).

(** The partial pass stops at the first candidate, not fully included,
    for which a partial text can be built; it gives up at once when no
    byte or no line is left. *)
Lemma partialPass_first state fullIncluded index rest :
  let remainingBytes :=
    DEFAULT_MAX_BYTES - state.(PackState.usedBytes) - sepBytesOf state in
  let remainingLines :=
    DEFAULT_MAX_LINES - state.(PackState.usedLines) - sepLinesOf state in
  match partialPass state fullIncluded index rest with
  | Some section =>
      exists k candidate,
        rest !! k = Some candidate /\
        section.(PackedSection.index) = (index + k)%nat /\
        ((index + k)%nat ∉ fullIncluded) /\
        0 < remainingBytes /\ 0 < remainingLines /\
        buildPartialSection candidate remainingLines remainingBytes
          = Some section.(PackedSection.text) /\
        forall j other, (j < k)%nat -> rest !! j = Some other ->
          (index + j)%nat ∉ fullIncluded ->
          buildPartialSection other remainingLines remainingBytes = None
  | None =>
      forall j other, rest !! j = Some other -> (index + j)%nat ∉ fullIncluded ->
        remainingBytes <= 0 \/ remainingLines <= 0 \/
        buildPartialSection other remainingLines remainingBytes = None
  end.
Proof.
  intros remainingBytes remainingLines. revert index.
  induction rest as [|candidate rest IH]; intros index; cbn [partialPass]; [done|].
  specialize (IH (S index)).
  destruct (bool_decide (index ∈ fullIncluded)) eqn:Hin.
  { apply bool_decide_eq_true in Hin.
    destruct (partialPass state fullIncluded (S index) rest) as [section|].
    - destruct IH as (k & c & Hk & Hidx & Hout & Hb & Hl & Hbuild & Hfirst).
      exists (S k), c. split; [done|]. split; [lia|].
      split; [by replace (index + S k)%nat with (S index + k)%nat by lia|].
      do 3 (split; [done|]).
      intros [|j] other Hj Hlook Hnin.
      + by rewrite Nat.add_0_r in Hnin.
      + apply (Hfirst j other); [lia|done|]. by replace (S index + j)%nat with (index + S j)%nat by lia.
    - intros [|j] other Hlook Hnin.
      + by rewrite Nat.add_0_r in Hnin.
      + apply (IH j other Hlook). by replace (S index + j)%nat with (index + S j)%nat by lia. }
  fold remainingBytes remainingLines.
  destruct (Z.leb_spec remainingBytes 0) as [Hb|Hb]; cbn [orb].
  { intros j other _ _. by left. }
  destruct (Z.leb_spec remainingLines 0) as [Hl|Hl].
  { intros j other _ _. right. by left. }
  destruct (falsy (buildPartialSection candidate remainingLines remainingBytes)) eqn:Hfalsy.
  { apply buildPartialSection_truthy in Hfalsy.
    destruct (partialPass state fullIncluded (S index) rest) as [section|].
    - destruct IH as (k & c & Hk & Hidx & Hout & _ & _ & Hbuild & Hfirst).
      exists (S k), c. split; [done|]. split; [lia|].
      split; [by replace (index + S k)%nat with (S index + k)%nat by lia|].
      do 3 (split; [done|]).
      intros [|j] other Hj Hlook Hnin.
      + by injection Hlook as <-.
      + apply (Hfirst j other); [lia|done|]. by replace (S index + j)%nat with (index + S j)%nat by lia.
    - intros [|j] other Hlook Hnin.
      + injection Hlook as <-. right. by right.
      + apply (IH j other Hlook). by replace (S index + j)%nat with (index + S j)%nat by lia. }
  destruct (buildPartialSection candidate remainingLines remainingBytes) as [text|] eqn:Hbuild;
    [|done].
  apply bool_decide_eq_false in Hin.
  exists 0%nat, candidate. cbn. rewrite Nat.add_0_r. repeat split; try done; lia.
Qed.

(** X7. The partial section of a plan goes to the first candidate, in
    request order, that is not fully included and for which a partial text
    can be built from what the full pass left of the ceilings after the
    separator; that candidate has a non-empty body, so a failed read is never
    included in part.  Without a partial section, either no byte or no line
    is left or a partial text can be built for no candidate outside the full pass. *)
Theorem partial_section_goes_to_first_possible strategy order candidates plan :
  buildPlan strategy order candidates = Ok plan ->
  exists full,
    fullPass strategy candidates order fullPassStart = Ok full /\
    let remainingBytes :=
      DEFAULT_MAX_BYTES - full.(fp_state).(PackState.usedBytes)
      - sepBytesOf full.(fp_state) in
    let remainingLines :=
      DEFAULT_MAX_LINES - full.(fp_state).(PackState.usedLines)
      - sepLinesOf full.(fp_state) in
    match plan.(PackingPlan.partialSection) with
    | Some section =>
        exists candidate body,
          candidates !! section.(PackedSection.index) = Some candidate /\
          (section.(PackedSection.index) ∉ plan.(PackingPlan.fullIncluded)) /\
          candidate.(FileCandidate.body) = Some body /\ body <> [] /\
          0 < remainingBytes /\ 0 < remainingLines /\
          buildPartialSection candidate remainingLines remainingBytes
            = Some section.(PackedSection.text) /\
          forall j other, (j < section.(PackedSection.index))%nat ->
            candidates !! j = Some other ->
            j ∉ plan.(PackingPlan.fullIncluded) ->
            buildPartialSection other remainingLines remainingBytes = None
    | None =>
        forall j other, candidates !! j = Some other ->
          j ∉ plan.(PackingPlan.fullIncluded) ->
          remainingBytes <= 0 \/ remainingLines <= 0 \/
          buildPartialSection other remainingLines remainingBytes = None
    end.
Proof.
  intros (full & Hfull & _ & Hinc & _ & _ & Hpartial & _)%buildPlan_fullPass.
  exists full. split; [done|]. intros remainingBytes remainingLines.
  pose proof (partialPass_first full.(fp_state) full.(fp_fullIncluded) 0 candidates)
    as Hfirst.
  cbn zeta in Hfirst. fold remainingBytes remainingLines in Hfirst.
  rewrite Hpartial, Hinc. destruct (partialPass _ _ _ _) as [section|].
  - destruct Hfirst as (k & candidate & Hk & Hidx & Hout & Hb & Hl & Hbuild & Hbefore).
    cbn in Hidx, Hout. rewrite Hidx.
    destruct (buildPartialSection_Some _ _ _ _ Hbuild)
      as (body & _ & _ & Hbody & Hne & _).
    exists candidate, body. repeat split; try done.
  - exact Hfirst.
Qed.

End PlanProperties.

(** On the small host the first candidate is fully included, the
    second, a failed read, neither fits nor has a body, and the third gets
    the partial section. *)
Lemma partial_section_goes_to_first_possible_witness :
  match buildPlan (H := smallHost) RequestOrder [0%nat; 1%nat; 2%nat] smallErrorLong with
  | Ok plan =>
      (PackedSection.index <$> plan.(PackingPlan.partialSection) = Some 2%nat /\
       plan.(PackingPlan.fullCount) = 1%nat /\
       plan.(PackingPlan.omittedIndexes) = [1%nat]) /\
      exists full,
        fullPass (H := smallHost) RequestOrder smallErrorLong [0%nat; 1%nat; 2%nat]
          fullPassStart = Ok full /\
        let remainingBytes :=
          120 - full.(fp_state).(PackState.usedBytes) - sepBytesOf full.(fp_state) in
        let remainingLines :=
          12 - full.(fp_state).(PackState.usedLines) - sepLinesOf full.(fp_state) in
        match plan.(PackingPlan.partialSection) with
        | Some section =>
            exists candidate body,
              smallErrorLong !! section.(PackedSection.index) = Some candidate /\
              (section.(PackedSection.index) ∉ plan.(PackingPlan.fullIncluded)) /\
              candidate.(FileCandidate.body) = Some body /\ body <> [] /\
              0 < remainingBytes /\ 0 < remainingLines /\
              buildPartialSection (H := smallHost) candidate remainingLines remainingBytes
                = Some section.(PackedSection.text) /\
              forall j other, (j < section.(PackedSection.index))%nat ->
                smallErrorLong !! j = Some other ->
                j ∉ plan.(PackingPlan.fullIncluded) ->
                buildPartialSection (H := smallHost) other remainingLines remainingBytes
                  = None
        | None =>
            forall j other, smallErrorLong !! j = Some other ->
              j ∉ plan.(PackingPlan.fullIncluded) ->
              remainingBytes <= 0 \/ remainingLines <= 0 \/
              buildPartialSection (H := smallHost) other remainingLines remainingBytes = None
        end
  | Throw _ => False
  end.
Proof.
  destruct (buildPlan (H := smallHost) RequestOrder [0%nat; 1%nat; 2%nat] smallErrorLong)
    as [plan|] eqn:Hplan; [|vm_compute in Hplan; discriminate].
  split.
  - pose proof Hplan as Hrun. vm_compute in Hrun. injection Hrun as <-.
    vm_compute. repeat split.
  - exact (partial_section_goes_to_first_possible (H := smallHost)
             RequestOrder [0%nat; 1%nat; 2%nat] smallErrorLong plan Hplan).
Defined.

(** ** The shape of a plan *)

Lemma StronglySorted_seq start count : StronglySorted lt (seq start count).
Proof.
  revert start. induction count as [|count IH]; intros start; cbn [seq]; constructor.
  - apply IH.
  - apply Forall_forall. intros j Hj%elem_of_seq. lia.
Qed.

Lemma StronglySorted_filter {A} (R : relation A) (P : A -> Prop)
    `{!forall x, Decision (P x)} (l : list A) :
  StronglySorted R l -> StronglySorted R (filter P l).
Proof.
  induction 1 as [|x l Hsorted IH Hall]; [constructor|].
  rewrite filter_cons. destruct (decide (P x)); [|done].
  constructor; [done|]. apply Forall_forall. intros y [_ Hy]%list_elem_of_filter.
  by apply (proj1 (Forall_forall _ _) Hall).
Qed.

(** The positions that are neither omitted nor fully included are as
    many as there are partial sections. *)
Lemma length_omitted (fullIncluded : gset nat)
    (partialSection : option PackedSection.t) (count : nat) :
  (forall i, i ∈ fullIncluded -> (i < count)%nat) ->
  (forall section, partialSection = Some section ->
     (section.(PackedSection.index) < count)%nat /\
     section.(PackedSection.index) ∉ fullIncluded) ->
  (size fullIncluded + partialCount partialSection
   + length (omitted fullIncluded partialSection count) = count)%nat.
Proof.
  intros Hfull Hpartial. unfold omitted.
  set (kept := fun i => i ∈ fullIncluded \/ isPartialIndex partialSection i = true).
  pose proof (filter_app_complement kept (seq 0 count)) as Hsplit.
  apply Permutation_length in Hsplit. rewrite length_app, length_seq in Hsplit.
  enough (length (filter kept (seq 0 count))
          = (size fullIncluded + partialCount partialSection)%nat) as <- by done.
  transitivity (length (elements fullIncluded
                        ++ from_option (fun s => [s.(PackedSection.index)]) [] partialSection)).
  - apply Permutation_length, NoDup_Permutation.
    + apply NoDup_filter, NoDup_seq.
    + apply NoDup_app. split; [apply NoDup_elements|]. split.
      * intros i Hi%elem_of_elements Hin. destruct partialSection as [section|]; cbn in Hin.
        -- apply list_elem_of_singleton in Hin as ->.
           by destruct (Hpartial section eq_refl).
        -- by apply elem_of_nil in Hin.
      * destruct partialSection; cbn; [apply NoDup_singleton|apply NoDup_nil_2].
    + intros i. rewrite list_elem_of_filter, elem_of_seq, elem_of_app, elem_of_elements.
      unfold kept. split.
      * intros [[Hin|Hp] _]; [by left|right].
        destruct partialSection as [section|]; cbn in *; [|done].
        apply bool_decide_eq_true in Hp as ->. by left.
      * intros [Hin|Hin].
        -- split; [by left|]. specialize (Hfull i Hin). lia.
        -- destruct partialSection as [section|]; cbn in *; [|by apply elem_of_nil in Hin].
           apply list_elem_of_singleton in Hin as ->.
           destruct (Hpartial section eq_refl) as [Hlt _].
           split; [|lia]. right. by apply bool_decide_eq_true.
  - rewrite length_app. unfold size, set_size, partialCount. cbn. by destruct partialSection.
Qed.

Section PlanShape.
Context `{Host}.

Implicit Types (candidates : list FileCandidate.t) (order : list nat).

(** The full pass only includes positions of [candidates]. *)
Lemma fullPass_in_range strategy candidates order acc acc' :
  fullPass strategy candidates order acc = Ok acc' ->
  forall j, j ∈ acc'.(fp_fullIncluded) ->
    (j < length candidates)%nat \/ j ∈ acc.(fp_fullIncluded).
Proof.
  revert acc. induction order as [|index order IH]; intros acc; cbn [fullPass].
  - intros [= <-] j Hj. by right.
  - destruct (candidates !! index) as [candidate|] eqn:Hlook; [|discriminate].
    apply lookup_lt_Some in Hlook.
    destruct (canFitSection _ _).
    + intros Hpass j Hj. destruct (IH _ Hpass j Hj) as [Hin|Hin]; [by left|].
      cbn in Hin. apply elem_of_union in Hin as [->%elem_of_singleton|Hin];
        [by left | by right].
    + destruct (decide (strategy = RequestOrder)).
      * intros [= <-] j Hj. by right.
      * apply IH.
Qed.

(** X8. A plan sorts the positions of [candidates] into three disjoint
    groups: fully included, the partial section, and omitted.  Every
    position is in exactly one of them, [omittedIndexes] lists its group in
    increasing order, and [fullCount], one for a partial section, and the
    number of omitted positions add up to the number of candidates. *)
Theorem plan_partitions_positions strategy order candidates plan :
  buildPlan strategy order candidates = Ok plan ->
  let isFull i := i ∈ plan.(PackingPlan.fullIncluded) in
  let isPartial i := isPartialIndex plan.(PackingPlan.partialSection) i = true in
  let isOmitted i := i ∈ plan.(PackingPlan.omittedIndexes) in
  (forall i, isFull i \/ isPartial i \/ isOmitted i -> (i < length candidates)%nat) /\
  (forall i, (i < length candidates)%nat ->
     (isFull i /\ ~ isPartial i /\ ~ isOmitted i) \/
     (~ isFull i /\ isPartial i /\ ~ isOmitted i) \/
     (~ isFull i /\ ~ isPartial i /\ isOmitted i)) /\
  StronglySorted lt plan.(PackingPlan.omittedIndexes) /\
  (plan.(PackingPlan.fullCount)
   + partialCount plan.(PackingPlan.partialSection)
   + length plan.(PackingPlan.omittedIndexes) = length candidates)%nat.
Proof.
  intros (full & Hfull & _ & Hinc & _ & Hcount & Hpartial & Homitted & _)%buildPlan_fullPass.
  intros isFull isPartial isOmitted. subst isFull isPartial isOmitted. cbn beta.
  rewrite Homitted, Hcount, Hinc.
  assert (forall i, i ∈ full.(fp_fullIncluded) -> (i < length candidates)%nat) as Hrange.
  { intros i Hi. destruct (fullPass_in_range _ _ _ _ _ Hfull i Hi) as [?|Hin]; [done|].
    by apply not_elem_of_empty in Hin. }
  assert (forall section, plan.(PackingPlan.partialSection) = Some section ->
            (section.(PackedSection.index) < length candidates)%nat /\
            section.(PackedSection.index) ∉ full.(fp_fullIncluded)) as Hsection.
  { intros section Hsome. rewrite Hpartial in Hsome.
    apply partialPass_Some in Hsome as (_ & Hidx & Hnin & _). split; [lia|done]. }
  assert (forall i, isPartialIndex plan.(PackingPlan.partialSection) i = true ->
            (i < length candidates)%nat /\ i ∉ full.(fp_fullIncluded)) as Hp.
  { intros i Hi. destruct plan.(PackingPlan.partialSection) as [section|]; [|done].
    cbn in Hi. apply bool_decide_eq_true in Hi as <-. by apply Hsection. }
  repeat split.
  - intros i [Hi|[Hi|Hi]]; [by apply Hrange|by apply Hp|by apply omitted_range in Hi].
  - intros i Hi. unfold omitted. setoid_rewrite list_elem_of_filter.
    setoid_rewrite elem_of_seq.
    destruct (decide (i ∈ full.(fp_fullIncluded))) as [Hin|Hnin].
    { left. split; [done|]. split; [intros Hpi; by destruct (Hp i Hpi)|].
      intros [Hno _]. apply Hno. by left. }
    right. destruct (isPartialIndex _ i) eqn:Hpi.
    + left. split; [done|]. split; [done|]. intros [Hno _]. apply Hno. by right.
    + right. split; [done|]. split; [done|]. split; [|lia]. by intros [?|?].
  - apply StronglySorted_filter, StronglySorted_seq.
  - by apply length_omitted.
Qed.

End PlanShape.

Lemma plan_partitions_positions_witness :
  match buildPlan (H := smallHost) SmallestFirst [0%nat; 2%nat; 1%nat] threeCandidates with
  | Ok plan =>
      let isFull i := i ∈ plan.(PackingPlan.fullIncluded) in
      let isPartial i := isPartialIndex plan.(PackingPlan.partialSection) i = true in
      let isOmitted i := i ∈ plan.(PackingPlan.omittedIndexes) in
      (forall i, isFull i \/ isPartial i \/ isOmitted i -> (i < length threeCandidates)%nat) /\
      (forall i, (i < length threeCandidates)%nat ->
         (isFull i /\ ~ isPartial i /\ ~ isOmitted i) \/
         (~ isFull i /\ isPartial i /\ ~ isOmitted i) \/
         (~ isFull i /\ ~ isPartial i /\ isOmitted i)) /\
      StronglySorted lt plan.(PackingPlan.omittedIndexes) /\
      (plan.(PackingPlan.fullCount)
       + partialCount plan.(PackingPlan.partialSection)
       + length plan.(PackingPlan.omittedIndexes) = length threeCandidates)%nat
  | Throw _ => False
  end.
Proof.
  destruct (buildPlan (H := smallHost) SmallestFirst [0%nat; 2%nat; 1%nat] threeCandidates)
    as [plan|] eqn:Hplan; [|vm_compute in Hplan; discriminate].
  exact (plan_partitions_positions (H := smallHost)
           SmallestFirst [0%nat; 2%nat; 1%nat] threeCandidates plan Hplan).
Defined.

(** ** The two orders *)

Lemma compareSize_le candidates a b :
  compareSize candidates a b <= 0 <-> smallerOrEarlier candidates a b.
Proof.
  unfold compareSize, smallerOrEarlier. cbn zeta.
  destruct (Z.eqb_spec ((fullMetricsAt candidates a).(bytes)
                        - (fullMetricsAt candidates b).(bytes)) 0); cbn [negb]; [|lia].
  destruct (Z.eqb_spec ((fullMetricsAt candidates a).(lines)
                        - (fullMetricsAt candidates b).(lines)) 0); cbn [negb]; lia.
Qed.

Lemma smallerOrEarlier_trans candidates a b c :
  smallerOrEarlier candidates a b -> smallerOrEarlier candidates b c ->
  smallerOrEarlier candidates a c.
Proof. unfold smallerOrEarlier. cbn zeta. lia. Qed.

Lemma smallerOrEarlier_total candidates a b :
  smallerOrEarlier candidates a b \/ smallerOrEarlier candidates b a.
Proof. unfold smallerOrEarlier. cbn zeta. lia. Qed.

Lemma smallerOrEarlier_antisym candidates a b :
  smallerOrEarlier candidates a b -> smallerOrEarlier candidates b a -> a = b.
Proof. unfold smallerOrEarlier. cbn zeta. lia. Qed.

Lemma insertBy_sorted candidates x sorted :
  StronglySorted (smallerOrEarlier candidates) sorted ->
  StronglySorted (smallerOrEarlier candidates) (insertBy (compareSize candidates) x sorted).
Proof.
  induction 1 as [|y sorted Hsorted IH Hall]; cbn [insertBy].
  - by repeat constructor.
  - destruct (Z.leb_spec (compareSize candidates x y) 0) as [Hle|Hgt].
    + apply compareSize_le in Hle. constructor; [by constructor|].
      constructor; [done|]. eapply Forall_impl; [exact Hall|].
      intros z Hz. by eapply smallerOrEarlier_trans.
    + assert (smallerOrEarlier candidates y x) as Hyx.
      { destruct (smallerOrEarlier_total candidates x y) as [Hxy|Hyx]; [|done].
        apply compareSize_le in Hxy. lia. }
      constructor; [done|]. rewrite insertBy_Permutation. by constructor.
Qed.

(** Two sorted arrangements of the same positions are the same list. *)
Lemma sorted_unique candidates (l1 l2 : list nat) :
  StronglySorted (smallerOrEarlier candidates) l1 ->
  StronglySorted (smallerOrEarlier candidates) l2 ->
  l1 ≡ₚ l2 -> l1 = l2.
Proof.
  intros Hs1. revert l2. induction Hs1 as [|x l1 Hs1 IH Hall1]; intros l2 Hs2 Hperm.
  - by apply Permutation_nil_l in Hperm.
  - destruct Hs2 as [|y l2 Hs2 Hall2]; [by apply Permutation_nil_r in Hperm|].
    assert (x = y) as <-.
    { assert (x ∈ y :: l2) as Hx by (rewrite <- Hperm; by left).
      assert (y ∈ x :: l1) as Hy by (rewrite Hperm; by left).
      apply elem_of_cons in Hx as [?|Hx]; [done|].
      apply elem_of_cons in Hy as [?|Hy]; [done|].
      apply (smallerOrEarlier_antisym candidates).
      - by apply (proj1 (Forall_forall _ _) Hall1).
      - by apply (proj1 (Forall_forall _ _) Hall2). }
    f_equal. apply IH; [done|]. by apply Permutation_cons_inv in Hperm.
Qed.

(** X9. The smallest-first order holds every position of [candidates]
    once, sorted by bytes, then lines, then position; and it is the only
    such arrangement, so that it does not depend on how [sort] works. *)
Theorem smallestFirstOrderOf_sorted candidates :
  smallestFirstOrderOf candidates ≡ₚ requestOrderOf candidates /\
  StronglySorted (smallerOrEarlier candidates) (smallestFirstOrderOf candidates) /\
  forall order,
    order ≡ₚ requestOrderOf candidates ->
    StronglySorted (smallerOrEarlier candidates) order ->
    order = smallestFirstOrderOf candidates.
Proof.
  assert (StronglySorted (smallerOrEarlier candidates) (smallestFirstOrderOf candidates))
    as Hsorted.
  { unfold smallestFirstOrderOf, sortBy.
    induction (requestOrderOf candidates) as [|x array IH]; cbn [foldr]; [constructor|].
    by apply insertBy_sorted. }
  split; [apply sortBy_Permutation|]. split; [done|].
  intros order Hperm Hs. apply (sorted_unique candidates); [done..|].
  rewrite Hperm. symmetry. apply sortBy_Permutation.
Qed.

(** ** The full pass of the two strategies *)

Section FullPassProperties.
Context `{Host}.

Implicit Types (candidates : list FileCandidate.t) (order : list nat).

(** Over the positions [start], [start + 1], ... the request-order pass
    includes a run of positions and stops at the first that does not
    fit. *)
Lemma fullPass_request_prefix candidates count start acc final :
  (start + count = length candidates)%nat ->
  (forall i, i ∈ acc.(fp_fullIncluded) <-> (i < start)%nat) ->
  fullPass RequestOrder candidates (seq start count) acc = Ok final ->
  exists stop,
    (start <= stop <= length candidates)%nat /\
    (forall i, i ∈ final.(fp_fullIncluded) <-> (i < stop)%nat) /\
    forall candidate, candidates !! stop = Some candidate ->
      canFitSection final.(fp_state) candidate.(FileCandidate.fullMetrics) = false.
Proof.
  revert start acc. induction count as [|count IH]; intros start acc Hlen Hacc;
    cbn [seq fullPass].
  - intros [= <-]. exists start. split; [lia|]. split; [done|].
    intros candidate Hlook%lookup_lt_Some. lia.
  - destruct (candidates !! start) as [candidate|] eqn:Hlook; [|discriminate].
    destruct (canFitSection (fp_state acc) _) eqn:Hfit.
    + intros Hpass. apply IH in Hpass as (stop & Hstop & Hfinal); [|lia|].
      * exists stop. split; [lia|done].
      * intros i. cbn. rewrite elem_of_union, elem_of_singleton, Hacc. lia.
    + destruct (decide (RequestOrder = RequestOrder)); [|done]. intros [= <-].
      exists start. split; [lia|]. split; [done|]. intros c. rewrite Hlook. by intros [= <-].
Qed.

(** X10. The request-order plan that [execute] builds includes in full
    the files at the positions before [fullCount] and no other; the file at
    position [fullCount], if there is one, does not fit what these left
    of the ceilings. *)
Theorem request_plan_is_a_prefix candidates plan :
  buildPlan RequestOrder (requestOrderOf candidates) candidates = Ok plan ->
  (plan.(PackingPlan.fullCount) <= length candidates)%nat /\
  (forall i, i ∈ plan.(PackingPlan.fullIncluded) <-> (i < plan.(PackingPlan.fullCount))%nat) /\
  exists full,
    fullPass RequestOrder candidates (requestOrderOf candidates) fullPassStart = Ok full /\
    forall candidate, candidates !! plan.(PackingPlan.fullCount) = Some candidate ->
      canFitSection full.(fp_state) candidate.(FileCandidate.fullMetrics) = false.
Proof.
  intros (full & Hfull & _ & Hinc & _ & Hcount & _)%buildPlan_fullPass.
  destruct (fullPass_request_prefix candidates (length candidates) 0 fullPassStart full)
    as (stop & Hstop & Hfinal & Hmiss); [done| |done|].
  { intros i. cbn. split; [by intros ?%not_elem_of_empty|lia]. }
  assert (size full.(fp_fullIncluded) = stop) as Hsize.
  { assert (full.(fp_fullIncluded) = list_to_set (seq 0 stop)) as ->.
    { apply set_eq. intros i. rewrite Hfinal, elem_of_list_to_set, elem_of_seq. lia. }
    by rewrite size_list_to_set, length_seq by apply NoDup_seq. }
  rewrite Hcount, Hinc, Hsize. split; [lia|]. split; [done|]. by exists full.
Qed.

(** The counters of the budget only grow when a section of non-negative
    size is added, so what does not fit now will not fit later. *)
Lemma canFitSection_addSection state added metrics :
  0 <= added.(bytes) -> 0 <= added.(lines) -> 0 <= state.(PackState.sectionCount) ->
  canFitSection state metrics = false ->
  canFitSection (addSection state added) metrics = false.
Proof.
  unfold canFitSection, addSection, sepBytesOf, sepLinesOf. cbn.
  intros Hb Hl Hcount. rewrite !andb_false_iff, !Z.leb_gt.
  repeat match goal with |- context [?a >? ?b] => destruct (Z.gtb_spec a b) end; lia.
Qed.

Lemma fullPass_smallest_maximal candidates order acc final :
  Forall (fun c => 0 <= c.(FileCandidate.fullMetrics).(bytes)
                   /\ 0 <= c.(FileCandidate.fullMetrics).(lines)) candidates ->
  0 <= acc.(fp_state).(PackState.sectionCount) ->
  fullPass SmallestFirst candidates order acc = Ok final ->
  (forall j, j ∈ acc.(fp_fullIncluded) -> j ∈ final.(fp_fullIncluded)) /\
  (forall metrics, canFitSection acc.(fp_state) metrics = false ->
     canFitSection final.(fp_state) metrics = false) /\
  forall j candidate, j ∈ order -> candidates !! j = Some candidate ->
    j ∉ final.(fp_fullIncluded) ->
    canFitSection final.(fp_state) candidate.(FileCandidate.fullMetrics) = false.
Proof.
  intros Hsizes. revert acc. induction order as [|index order IH]; intros acc Hcount;
    cbn [fullPass].
  - intros [= <-]. split; [done|]. split; [done|]. intros j c Hj. by apply elem_of_nil in Hj.
  - destruct (candidates !! index) as [candidate|] eqn:Hlook; [|discriminate].
    destruct (proj1 (Forall_forall _ _) Hsizes candidate) as [Hb Hl];
      [by eapply list_elem_of_lookup_2|].
    destruct (canFitSection (fp_state acc) _) eqn:Hfit.
    + intros Hpass. apply IH in Hpass as (Hmono & Hkeep & Hrest);
        [|cbn; lia]. cbn in Hmono, Hkeep.
      split; [intros j Hj; apply Hmono, elem_of_union; by right|].
      split; [intros metrics Hno; by apply Hkeep, canFitSection_addSection|].
      intros j c [->|Hj]%elem_of_cons Hc Hnin; [|by apply (Hrest j)].
      destruct Hnin. apply Hmono, elem_of_union. left. by apply elem_of_singleton.
    + destruct (decide (SmallestFirst = RequestOrder)); [done|].
      intros Hpass. apply IH in Hpass as (Hmono & Hkeep & Hrest); [|done].
      split; [done|]. split; [done|].
      intros j c [->|Hj]%elem_of_cons Hc Hnin; [|by apply (Hrest j)].
      rewrite Hlook in Hc. injection Hc as <-. by apply Hkeep.
Qed.

(** X11. The smallest-first pass leaves out no candidate that would still
    fit: a candidate of the order that is not fully included does not fit
    what the fully included ones left of the ceilings.  The sizes are taken
    as non-negative, as those of measured texts are. *)
Theorem smallest_first_leaves_out_only_misfits order candidates plan :
  Forall (fun c => 0 <= c.(FileCandidate.fullMetrics).(bytes)
                   /\ 0 <= c.(FileCandidate.fullMetrics).(lines)) candidates ->
  buildPlan SmallestFirst order candidates = Ok plan ->
  exists full,
    fullPass SmallestFirst candidates order fullPassStart = Ok full /\
    forall j candidate, j ∈ order -> candidates !! j = Some candidate ->
      j ∉ plan.(PackingPlan.fullIncluded) ->
      canFitSection full.(fp_state) candidate.(FileCandidate.fullMetrics) = false.
Proof.
  intros Hsizes (full & Hfull & _ & Hinc & _)%buildPlan_fullPass.
  exists full. split; [done|]. rewrite Hinc.
  by apply (fullPass_smallest_maximal candidates order fullPassStart full).
Qed.

(** X12. [buildPlan] throws only over an order that names a position
    outside [candidates]: it returns a plan for every order within range,
    hence for the two orders [execute] builds; and with the
    smallest-first strategy, which never leaves its loop early, it returns a
    plan for no other order. *)
Theorem buildPlan_throws_only_out_of_range strategy order candidates :
  ((forall j, j ∈ order -> (j < length candidates)%nat) ->
   exists plan, buildPlan strategy order candidates = Ok plan) /\
  ((exists plan, buildPlan SmallestFirst order candidates = Ok plan) ->
   forall j, j ∈ order -> (j < length candidates)%nat) /\
  (exists plan,
     buildPlan RequestOrder (requestOrderOf candidates) candidates = Ok plan) /\
  (exists plan,
     buildPlan SmallestFirst (smallestFirstOrderOf candidates) candidates = Ok plan).
Proof.
  split; [apply buildPlan_Ok|]. split.
  - intros [plan (full & Hfull & _)%buildPlan_fullPass]. revert Hfull.
    generalize fullPassStart. induction order as [|index order IH]; intros acc;
      cbn [fullPass]; [intros _ j Hj; by apply elem_of_nil in Hj|].
    destruct (candidates !! index) as [candidate|] eqn:Hlook; [|discriminate].
    apply lookup_lt_Some in Hlook.
    destruct (canFitSection _ _).
    + intros Hpass j [->|Hj]%elem_of_cons; [done|]. by apply (IH _ Hpass).
    + destruct (decide (SmallestFirst = RequestOrder)); [done|].
      intros Hpass j [->|Hj]%elem_of_cons; [done|]. by apply (IH _ Hpass).
  - split; apply buildPlan_Ok;
      [apply requestOrderOf_range|apply smallestFirstOrderOf_range].
Qed.

End FullPassProperties.

Lemma request_plan_is_a_prefix_witness :
  match buildPlan (H := smallHost) RequestOrder (requestOrderOf threeCandidates)
          threeCandidates with
  | Ok plan =>
      (plan.(PackingPlan.fullCount) <= length threeCandidates)%nat /\
      (forall i, i ∈ plan.(PackingPlan.fullIncluded)
                 <-> (i < plan.(PackingPlan.fullCount))%nat) /\
      exists full,
        fullPass (H := smallHost) RequestOrder threeCandidates
          (requestOrderOf threeCandidates) fullPassStart = Ok full /\
        forall candidate, threeCandidates !! plan.(PackingPlan.fullCount) = Some candidate ->
          canFitSection (H := smallHost) full.(fp_state)
            candidate.(FileCandidate.fullMetrics) = false
  | Throw _ => False
  end.
Proof.
  destruct (buildPlan (H := smallHost) RequestOrder (requestOrderOf threeCandidates)
              threeCandidates) as [plan|] eqn:Hplan; [|vm_compute in Hplan; discriminate].
  exact (request_plan_is_a_prefix (H := smallHost) threeCandidates plan Hplan).
Defined.

Lemma smallest_first_leaves_out_only_misfits_witness :
  Forall (fun c => 0 <= c.(FileCandidate.fullMetrics).(bytes)
                   /\ 0 <= c.(FileCandidate.fullMetrics).(lines)) threeCandidates /\
  match buildPlan (H := smallHost) SmallestFirst (smallestFirstOrderOf threeCandidates)
          threeCandidates with
  | Ok plan =>
      exists full,
        fullPass (H := smallHost) SmallestFirst threeCandidates
          (smallestFirstOrderOf threeCandidates) fullPassStart = Ok full /\
        forall j candidate, j ∈ smallestFirstOrderOf threeCandidates ->
          threeCandidates !! j = Some candidate ->
          j ∉ plan.(PackingPlan.fullIncluded) ->
          canFitSection (H := smallHost) full.(fp_state)
            candidate.(FileCandidate.fullMetrics) = false
  | Throw _ => False
  end.
Proof.
  assert (Forall (fun c => 0 <= c.(FileCandidate.fullMetrics).(bytes)
                           /\ 0 <= c.(FileCandidate.fullMetrics).(lines)) threeCandidates)
    as Hsizes by (repeat constructor; vm_compute; discriminate).
  split; [exact Hsizes|].
  destruct (buildPlan (H := smallHost) SmallestFirst (smallestFirstOrderOf threeCandidates)
              threeCandidates) as [plan|] eqn:Hplan; [|vm_compute in Hplan; discriminate].
  exact (smallest_first_leaves_out_only_misfits (H := smallHost)
           (smallestFirstOrderOf threeCandidates) threeCandidates plan Hsizes Hplan).
Defined.

(** ** The read loop *)

Lemma imap_shift {A B} (f : nat -> A -> B) (i : nat) (x : A) (l : list A) :
  imap (fun j => f (i + j)%nat) (x :: l) = f i x :: imap (fun j => f (S i + j)%nat) l.
Proof.
  cbn [imap]. rewrite Nat.add_0_r. f_equal. apply imap_ext. intros j y _. cbn.
  f_equal. lia.
Qed.

Section ReadLoopProperties.
Context `{Host}.
Context (readTool : ReadTool) (aborted : AbortSignal).

(** What the read loop has added when it returns: the candidates, the
    detail records and the read calls of the first [k] of the files it was
    given, having found the signal live at each of them; it stops before the
    end only at a failed read with [stopOnError] set, and with
    [stopOnError] set no read before the last processed one has failed. *)
Lemma readFiles_records stopOnError i rest loop loop' :
  readFiles readTool aborted stopOnError i rest loop = Ok loop' ->
  exists k,
    (k <= length rest)%nat /\
    loop'.(candidates)
      = loop.(candidates) ++ imap (fun j => candidateOf readTool (i + j)) (take k rest) /\
    loop'.(fileDetails)
      = loop.(fileDetails) ++ imap (fun j => detailOf readTool (i + j)) (take k rest) /\
    loop'.(reads)
      = loop.(reads) ++ imap (fun j => readCallOf (i + j)) (take k rest) /\
    (forall j, (j < k)%nat -> aborted (i + j)%nat = false) /\
    (default false stopOnError = false -> k = length rest) /\
    (default false stopOnError = true ->
     forall j request, (S j < k)%nat -> rest !! j = Some request ->
       succeeded (readTool (i + j)%nat (inputOf request)) = true) /\
    ((k < length rest)%nat ->
     exists j request, k = S j /\ rest !! j = Some request /\
       succeeded (readTool (i + j)%nat (inputOf request)) = false).
Proof.
  revert i loop. induction rest as [|request rest IH]; intros i loop; cbn [readFiles].
  - intros [= <-]. exists 0%nat. cbn. rewrite !app_nil_r.
    repeat split; try done; intros; lia.
  - destruct (aborted i) eqn:Hlive; [discriminate|].
    assert (forall k, (forall j, (j < k)%nat -> aborted (S i + j)%nat = false) ->
              forall j, (j < S k)%nat -> aborted (i + j)%nat = false) as Hsignal.
    { intros k Hk [|j] Hj; [by rewrite Nat.add_0_r|].
      replace (i + S j)%nat with (S i + j)%nat by lia. apply Hk. lia. }
    destruct (readTool i (inputOf request)) as [result|message] eqn:Hread.
    + intros (k & Hk & Hc & Hd & Hr & Hlive' & Hall & Hgood & Hstop)%IH.
      exists (S k). split; [cbn; lia|].
      glue_records @imap_shift Hc Hd Hr Hread. split; [by apply Hsignal|].
      split; [intros Hno; cbn; by rewrite (Hall Hno)|]. split.
      * intros Hset [|j] r Hj Hlook.
        -- injection Hlook as <-. by rewrite Nat.add_0_r, Hread.
        -- replace (i + S j)%nat with (S i + j)%nat by lia.
           apply (Hgood Hset); [lia|done].
      * intros Hlt. destruct Hstop as (j & r & -> & Hlook & Hfail); [cbn in Hlt; lia|].
        exists (S j), r. split; [done|]. split; [done|].
        by replace (i + S j)%nat with (S i + j)%nat by lia.
    + destruct (default false stopOnError) eqn:Hset.
      * intros [= <-]. exists 1%nat. split; [cbn; lia|].
        cbn [take imap recordFailure candidates fileDetails reads].
        rewrite Nat.add_0_r. unfold candidateOf, detailOf, blockOf. rewrite Hread.
        do 3 (split; [done|]). split; [intros j Hj; by replace j with 0%nat by lia; rewrite Nat.add_0_r|].
        split; [done|]. split; [intros _ j r Hj; lia|].
        intros _. exists 0%nat, request. by rewrite Nat.add_0_r, Hread.
      * intros (k & Hk & Hc & Hd & Hr & Hlive' & Hall & Hgood & Hstop)%IH.
        exists (S k). split; [cbn; lia|].
        glue_records @imap_shift Hc Hd Hr Hread. split; [by apply Hsignal|].
        split; [intros Hno; cbn; by rewrite (Hall Hno)|]. split; [done|].
        intros Hlt. destruct Hstop as (j & r & -> & Hlook & Hfail); [cbn in Hlt; lia|].
        exists (S j), r. split; [done|]. split; [done|].
        by replace (i + S j)%nat with (S i + j)%nat by lia.
Qed.

End ReadLoopProperties.

(** ** What [execute] reports *)

Lemma byteLength_nonneg text : 0 <= byteLength text.
Proof.
  unfold byteLength. generalize false.
  induction text as [|c text IH]; intros pendingHigh; cbn [utf8From]; [done|].
  pose proof (IH false). pose proof (IH (isHighSurrogate c)).
  repeat match goal with |- context [if ?b then _ else _] => destruct b end; lia.
Qed.

Lemma length_filter_fmap {A} (f : A -> bool) (b : bool) (l : list A) :
  length (filter (fun x => f x = b) l) = length (filter (fun x => x = b) (f <$> l)).
Proof.
  induction l as [|x l IH]; [done|]. rewrite fmap_cons, !filter_cons.
  destruct (decide (f x = b)); cbn [length]; by rewrite IH.
Qed.

Lemma length_filter_bool (l : list bool) :
  (length (filter (fun x => x = true) l) + length (filter (fun x => x = false) l)
   = length l)%nat.
Proof.
  induction l as [|[] l IH]; [done| |]; rewrite !filter_cons; cbn [length];
    repeat match goal with |- context [decide ?P] => destruct (decide P); try done end;
    cbn [length]; lia.
Qed.

(** What [pathAt] maps a list of indexes to, when it throws for none. *)
Lemma mapM_pathAt_inv candidates indexes paths :
  mapM (pathAt candidates) indexes = Ok paths ->
  Forall2 (fun index path =>
             exists candidate, candidates !! index = Some candidate
                               /\ candidate.(FileCandidate.path) = path) indexes paths.
Proof.
  revert paths. induction indexes as [|index indexes IH]; intros paths; cbn [mapM].
  - cbn [mret Result_ret]. intros [= <-]. constructor.
  - destruct (pathAt candidates index) as [path|] eqn:Hpath;
      cbn [mbind Result_bind]; [|discriminate].
    unfold pathAt in Hpath.
    destruct (candidates !! index) as [candidate|] eqn:Hlook; [|discriminate].
    injection Hpath as Hpath.
    destruct (mapM (pathAt candidates) indexes) as [rest|]; cbn [mbind Result_bind mret Result_ret];
      [|discriminate].
    intros [= <-]. constructor; [by exists candidate|by apply IH].
Qed.

(** The success count of the full pass is at most the number of fully
    included positions, over an order without repetition. *)
Lemma fullPass_successCount_le `{Host} strategy candidates order acc final :
  NoDup order ->
  (forall j, j ∈ order -> j ∉ acc.(fp_fullIncluded)) ->
  0 <= acc.(fp_fullSuccessCount) <= Z.of_nat (size acc.(fp_fullIncluded)) ->
  fullPass strategy candidates order acc = Ok final ->
  0 <= final.(fp_fullSuccessCount) <= Z.of_nat (size final.(fp_fullIncluded)).
Proof.
  intros Hnd. revert acc. induction Hnd as [|index order Hindex Hnd IH];
    intros acc Hfresh Hle; cbn [fullPass]; [by intros [= <-]|].
  destruct (candidates !! index) as [candidate|]; [|discriminate].
  assert (forall j, j ∈ order -> j ∉ acc.(fp_fullIncluded)) as Hfresh'
    by (intros j Hj; apply Hfresh; by right).
  destruct (canFitSection _ _).
  - apply IH.
    + intros j Hj. cbn. rewrite elem_of_union, elem_of_singleton.
      intros [->|Hin]; [done|by apply (Hfresh' j)].
    + cbn. rewrite size_union, size_singleton
        by (apply disjoint_singleton_l, Hfresh; by left).
      destruct (FileCandidate.ok candidate); lia.
  - destruct (decide (strategy = RequestOrder)); [by intros [= <-]|by apply IH].
Qed.

(** Fewer included positions, a smaller sum. *)
Lemma sumIncluded_mono weight (included included' : gset nat) index rest :
  (forall c, 0 <= weight c) ->
  (forall j, j ∈ included -> j ∈ included') ->
  sumIncluded weight included index rest <= sumIncluded weight included' index rest.
Proof.
  intros Hweight Hsub. revert index.
  induction rest as [|c rest IH]; intros index; cbn [sumIncluded]; [done|].
  specialize (IH (S index)). specialize (Hweight c).
  destruct (bool_decide (index ∈ included)) eqn:Hin.
  - apply bool_decide_eq_true in Hin. rewrite bool_decide_eq_true_2 by by apply Hsub. lia.
  - destruct (bool_decide (index ∈ included')); lia.
Qed.

Section ExecuteProperties.
Context `{Host}.
Context (readTool : ReadTool) (aborted : AbortSignal).

(** [execute] in terms of the files it was given: what the read loop
    recorded, and what was made of it. *)
Lemma execute_records params trace result :
  execute readTool aborted params = Ok (trace, result) ->
  exists loop k,
    packAndRender loop = Ok result /\
    (k <= length params.(ReadManyInput.files))%nat /\
    loop.(candidates) = imap (candidateOf readTool) (take k params.(ReadManyInput.files)) /\
    loop.(fileDetails) = imap (detailOf readTool) (take k params.(ReadManyInput.files)) /\
    trace = imap readCallOf (take k params.(ReadManyInput.files)) /\
    (forall j, (j < k)%nat -> aborted j = false) /\
    (default false params.(ReadManyInput.stopOnError) = false ->
     k = length params.(ReadManyInput.files)) /\
    (default false params.(ReadManyInput.stopOnError) = true ->
     forall j request, (S j < k)%nat -> params.(ReadManyInput.files) !! j = Some request ->
       succeeded (readTool j (inputOf request)) = true) /\
    ((k < length params.(ReadManyInput.files))%nat ->
     exists j request, k = S j /\ params.(ReadManyInput.files) !! j = Some request /\
       succeeded (readTool j (inputOf request)) = false).
Proof.
  intros (loop & Hloop & Hrender & -> & _)%execute_inv.
  apply readFiles_records in Hloop
    as (k & Hk & Hc & Hd & Hr & Hlive & Hall & Hgood & Hstop).
  exists loop, k. by repeat split.
Qed.

(** X13. Whenever [execute] returns, it has processed the first
    [processedCount] of the requested files, each with the signal live: it
    made one read call for each of them, in order, with the path, offset
    and limit of the request, and [details.files] holds their detail
    records in the same order: the path, and either the image count and
    truncation of the read or the message of its failure.  Unless
    [stopOnError] is set these are all the files; if they are not all,
    the last processed read is one that failed. *)
Theorem execute_records_each_file params trace result :
  execute readTool aborted params = Ok (trace, result) ->
  let files := params.(ReadManyInput.files) in
  let details := result.(ReadManyResult.details) in
  let processed := details.(ReadManyDetails.processedCount) in
  (processed <= length files)%nat /\
  trace = imap readCallOf (take processed files) /\
  details.(ReadManyDetails.files) = imap (detailOf readTool) (take processed files) /\
  (forall j, (j < processed)%nat -> aborted j = false) /\
  (default false params.(ReadManyInput.stopOnError) = false -> processed = length files) /\
  ((processed < length files)%nat ->
   exists j request, processed = S j /\ files !! j = Some request /\
     succeeded (readTool j (inputOf request)) = false).
Proof.
  intros (loop & k & Hrender & Hk & Hc & Hd & Hr & Hlive & Hall & Hgood & Hstop)%execute_records.
  apply packAndRender_inv in Hrender
    as (_ & _ & _ & _ & _ & _ & Hprocessed & Hfiles & _).
  cbn zeta. rewrite Hprocessed, Hfiles, Hd, length_imap, length_take.
  replace (k `min` length (ReadManyInput.files params))%nat with k by lia.
  by repeat split.
Qed.

(** The abort point moves with the loop. *)
Lemma abortPoint_cons stopOnError i request rest :
  aborted i = false ->
  (default false stopOnError = true ->
   succeeded (readTool i (inputOf request)) = true) ->
  (exists k, abortPoint readTool aborted stopOnError (S i) rest k) <->
  (exists k, abortPoint readTool aborted stopOnError i (request :: rest) k).
Proof.
  intros Hlive Hgood. unfold abortPoint. split.
  - intros (k & Hk & Hstop & Hbefore & Hreads). exists (S k).
    split; [cbn; lia|]. split; [by replace (i + S k)%nat with (S i + k)%nat by lia|].
    split.
    + intros [|j] Hj; [by rewrite Nat.add_0_r|].
      replace (i + S j)%nat with (S i + j)%nat by lia. apply Hbefore. lia.
    + intros Hset [|j] r Hj Hlook.
      * injection Hlook as <-. rewrite Nat.add_0_r. by apply Hgood.
      * replace (i + S j)%nat with (S i + j)%nat by lia. apply (Hreads Hset); [lia|done].
  - intros ([|k] & Hk & Hstop & Hbefore & Hreads).
    { rewrite Nat.add_0_r in Hstop. congruence. }
    exists k. split; [cbn in Hk; lia|].
    split; [by replace (S i + k)%nat with (i + S k)%nat by lia|]. split.
    + intros j Hj. replace (S i + j)%nat with (i + S j)%nat by lia. apply Hbefore. lia.
    + intros Hset j r Hj Hlook. replace (S i + j)%nat with (i + S j)%nat by lia.
      apply (Hreads Hset); [lia|done].
Qed.

(** Where the read loop throws. *)
Lemma readFiles_Throw stopOnError i rest loop message :
  readFiles readTool aborted stopOnError i rest loop = Throw message <->
  message = js "Operation aborted" /\
  exists k, abortPoint readTool aborted stopOnError i rest k.
Proof.
  revert i loop. induction rest as [|request rest IH]; intros i loop; cbn [readFiles].
  - split; [discriminate|]. intros (_ & k & Hk & _). cbn in Hk. lia.
  - destruct (aborted i) eqn:Hlive.
    { split.
      - intros [= <-]. split; [done|]. exists 0%nat. unfold abortPoint.
        rewrite Nat.add_0_r. repeat split; try done; try (cbn; lia); intros; lia.
      - by intros (-> & _). }
    destruct (readTool i (inputOf request)) as [result|failure] eqn:Hread.
    + rewrite IH, (abortPoint_cons stopOnError i request rest Hlive); [done|].
      by rewrite Hread.
    + destruct (default false stopOnError) eqn:Hset.
      * split; [discriminate|]. intros (_ & [|k] & Hk & Hstop & Hbefore & Hreads).
        -- rewrite Nat.add_0_r in Hstop. congruence.
        -- specialize (Hreads Hset 0%nat request ltac:(lia) eq_refl).
           rewrite Nat.add_0_r, Hread in Hreads. discriminate.
      * rewrite IH, (abortPoint_cons stopOnError i request rest Hlive); [done|].
        by rewrite Hset.
Qed.

(** X14. [execute] throws in one case only, with the message
    "Operation aborted": when the read loop comes to a file and finds the
    signal aborted.  The loop comes to the file at position [k] when the
    signal was live at every file before it and, with [stopOnError] set,
    every read before it succeeded.  A failed read never makes [execute]
    throw. *)
Theorem execute_throws_iff_aborted params message :
  execute readTool aborted params = Throw message <->
  message = js "Operation aborted" /\
  exists k,
    abortPoint readTool aborted params.(ReadManyInput.stopOnError) 0
      params.(ReadManyInput.files) k.
Proof.
  rewrite <- readFiles_Throw with (loop := startLoop). unfold execute.
  destruct (readFiles _ _ _ _ _ _) as [loop|failure]; cbn [mbind Result_bind];
    [|split; by intros [= ->]].
  destruct (packAndRender_Ok loop) as [result ->]. cbn. split; discriminate.
Qed.

End ExecuteProperties.

Lemma sumIncluded_le_count (included : gset nat) index rest :
  sumIncluded (fun c => if c.(FileCandidate.ok) then 1 else 0) included index rest
  <= Z.of_nat (length (filter (fun c => c.(FileCandidate.ok) = true) rest)).
Proof.
  revert index. induction rest as [|c rest IH]; intros index; cbn [sumIncluded]; [done|].
  specialize (IH (S index)). rewrite filter_cons.
  destruct (bool_decide (index ∈ included)), (FileCandidate.ok c) eqn:Hok;
    destruct (decide (_ = true)); try done; cbn [length]; lia.
Qed.

Section ExecuteReports.
Context `{Host}.
Context (readTool : ReadTool) (aborted : AbortSignal).

(** The positions of a plan add up to the number of candidates. *)
Lemma buildPlan_counts strategy order candidates plan :
  buildPlan strategy order candidates = Ok plan ->
  (forall section, plan.(PackingPlan.partialSection) = Some section ->
     (section.(PackedSection.index) < length candidates)%nat) /\
  (forall i, i ∈ plan.(PackingPlan.omittedIndexes) -> (i < length candidates)%nat) /\
  StronglySorted lt plan.(PackingPlan.omittedIndexes) /\
  (plan.(PackingPlan.fullCount) + partialCount plan.(PackingPlan.partialSection)
   + length plan.(PackingPlan.omittedIndexes) = length candidates)%nat.
Proof.
  intros (full & Hfull & _ & Hinc & _ & Hcount & Hpartial & Homitted & _)%buildPlan_fullPass.
  assert (forall section, plan.(PackingPlan.partialSection) = Some section ->
            (section.(PackedSection.index) < length candidates)%nat /\
            section.(PackedSection.index) ∉ full.(fp_fullIncluded)) as Hsection.
  { intros section Hsome. rewrite Hpartial in Hsome.
    apply partialPass_Some in Hsome as (_ & Hidx & Hnin & _). split; [lia|done]. }
  rewrite Homitted, Hcount. repeat split.
  - intros section Hsome. by destruct (Hsection section Hsome).
  - intros i. apply omitted_range.
  - apply StronglySorted_filter, StronglySorted_seq.
  - apply length_omitted; [|done].
    intros i Hi. destruct (fullPass_in_range _ _ _ _ _ Hfull i Hi) as [?|Hin]; [done|].
    by apply not_elem_of_empty in Hin.
Qed.

(** The packing that [packAndRender] reports. *)
Lemma packAndRender_packing loop result :
  packAndRender loop = Ok result ->
  exists order plan,
    NoDup order /\
    buildPlan plan.(PackingPlan.strategy) order loop.(candidates) = Ok plan /\
    let packing := result.(ReadManyResult.details).(ReadManyDetails.packing) in
    packing.(Packing.fullIncludedCount) = plan.(PackingPlan.fullCount) /\
    packing.(Packing.fullIncludedSuccessCount) = plan.(PackingPlan.fullSuccessCount) /\
    packing.(Packing.partialIncludedPath)
      = (section ← plan.(PackingPlan.partialSection);
         FileCandidate.path <$> loop.(candidates) !! section.(PackedSection.index)) /\
    mapM (pathAt loop.(candidates)) plan.(PackingPlan.omittedIndexes)
      = Ok packing.(Packing.omittedPaths).
Proof.
  unfold packAndRender.
  destruct (buildPlan RequestOrder _ _) as [requestPlan|] eqn:Hr; [|discriminate].
  destruct (buildPlan SmallestFirst _ _) as [smallestPlan|] eqn:Hs; [|discriminate].
  cbn [mbind Result_bind].
  destruct (choosePlan requestPlan smallestPlan) as [switched plan] eqn:Hchoose.
  destruct (mapM _ _) as [omittedPaths|] eqn:Hpaths; [|discriminate].
  cbn [mbind Result_bind]. intros [= <-]. cbn.
  unfold choosePlan in Hchoose. injection Hchoose as _ <-.
  pose proof Hr as (_ & _ & Hrs & _)%buildPlan_fullPass.
  pose proof Hs as (_ & _ & Hss & _)%buildPlan_fullPass.
  destruct (_ >? _).
  - exists (smallestFirstOrderOf loop.(candidates)), smallestPlan.
    rewrite Hss. split; [apply smallestFirstOrderOf_NoDup|]. by repeat split.
  - exists (requestOrderOf loop.(candidates)), requestPlan.
    rewrite Hrs. split; [apply requestOrderOf_NoDup|]. by repeat split.
Qed.

(** X15. The counts that [execute] reports add up: every processed file is
    a success or an error, and it is fully included, the one partially
    included, or omitted; there were as many read calls as processed files;
    and the fully included successes are at most the fully included files
    and at most the successes. *)
Theorem execute_counts_add_up params trace result :
  execute readTool aborted params = Ok (trace, result) ->
  let details := result.(ReadManyResult.details) in
  let packing := details.(ReadManyDetails.packing) in
  let processed := details.(ReadManyDetails.processedCount) in
  (details.(ReadManyDetails.successCount) + details.(ReadManyDetails.errorCount)
   = processed)%nat /\
  length trace = processed /\
  length details.(ReadManyDetails.files) = processed /\
  (packing.(Packing.fullIncludedCount)
   + length (option_list packing.(Packing.partialIncludedPath))
   + length packing.(Packing.omittedPaths) = processed)%nat /\
  0 <= packing.(Packing.fullIncludedSuccessCount)
    <= Z.of_nat packing.(Packing.fullIncludedCount) /\
  packing.(Packing.fullIncludedSuccessCount)
    <= Z.of_nat details.(ReadManyDetails.successCount).
Proof.
  intros (loop & k & Hrender & Hk & Hc & Hd & Hr & _)%execute_records.
  pose proof Hrender as (order & plan & Hnd & Hplan & Hfc & Hfsc & Hpp & Hop)%packAndRender_packing.
  apply packAndRender_inv in Hrender
    as (_ & _ & _ & _ & _ & _ & Hprocessed & Hfiles & Hsuccess & Herror & _).
  cbn zeta in *. rewrite Hprocessed, Hfiles, Hsuccess, Herror, Hfc, Hfsc, Hpp, Hr.
  assert (length loop.(candidates) = length loop.(fileDetails)) as Hsame
    by (by rewrite Hc, Hd, !length_imap).
  assert (FileCandidate.ok <$> loop.(candidates)
          = ReadManyFileDetail.ok <$> loop.(fileDetails)) as Hoks.
  { rewrite Hc, Hd, !fmap_imap. apply imap_ext. intros i request _. cbn.
    unfold detailOf. by destruct (readTool i (inputOf request)). }
  destruct (buildPlan_counts _ _ _ _ Hplan) as (Hsection & _ & _ & Hcount).
  pose proof (buildPlan_successCount _ _ _ _ Hnd Hplan) as Hsc.
  pose proof Hplan as (full & Hfull & _ & Hinc & Hsucc & Hsize & _)%buildPlan_fullPass.
  assert (0 <= fullPassStart.(fp_fullSuccessCount)
          <= Z.of_nat (size fullPassStart.(fp_fullIncluded))) as Hstart
    by (cbn; rewrite size_empty; lia).
  pose proof (fullPass_successCount_le _ _ _ fullPassStart full Hnd
                (fun j _ => not_elem_of_empty j) Hstart Hfull) as Hbounds.
  repeat split.
  - rewrite (length_filter_fmap ReadManyFileDetail.ok true),
      (length_filter_fmap ReadManyFileDetail.ok false), length_filter_bool.
    by rewrite length_fmap.
  - rewrite Hd, !length_imap. done.
  - apply mapM_pathAt_inv, Forall2_length in Hop. rewrite <- Hsame, <- Hcount, <- Hop.
    f_equal. f_equal.
    destruct plan.(PackingPlan.partialSection) as [section|]; [|done]. cbn.
    destruct (lookup_lt_is_Some_2 loop.(candidates) section.(PackedSection.index)
                (Hsection section eq_refl)) as [c ->]. done.
  - rewrite Hsucc. apply Hbounds.
  - rewrite Hsucc, Hsize. apply Hbounds.
  - rewrite Hsc. unfold successfulFullCount.
    etransitivity; [apply sumIncluded_le_count|].
    by rewrite (length_filter_fmap FileCandidate.ok true),
      (length_filter_fmap ReadManyFileDetail.ok true), Hoks.
Qed.

(** X16. The paths of the packing report are paths of processed files:
    [partialIncludedPath] is that of a file whose read succeeded, and
    [omittedPaths] holds, in request order, the paths of the files at
    increasing positions. *)
Theorem packing_paths_name_processed_files params trace result :
  execute readTool aborted params = Ok (trace, result) ->
  let files := params.(ReadManyInput.files) in
  let details := result.(ReadManyResult.details) in
  let packing := details.(ReadManyDetails.packing) in
  let processed := details.(ReadManyDetails.processedCount) in
  (forall path, packing.(Packing.partialIncludedPath) = Some path ->
     exists i request,
       (i < processed)%nat /\ files !! i = Some request /\
       request.(FileRequest.path) = path /\
       succeeded (readTool i (inputOf request)) = true) /\
  exists positions,
    StronglySorted lt positions /\
    Forall2 (fun i path =>
               exists request,
                 (i < processed)%nat /\ files !! i = Some request /\
                 request.(FileRequest.path) = path)
      positions packing.(Packing.omittedPaths).
Proof.
  intros (loop & k & Hrender & Hk & Hc & Hd & Hr & _)%execute_records.
  pose proof Hrender as (order & plan & Hnd & Hplan & Hfc & Hfsc & Hpp & Hop)%packAndRender_packing.
  apply packAndRender_inv in Hrender as (_ & _ & _ & _ & _ & _ & Hprocessed & _).
  cbn zeta in *. rewrite Hprocessed, Hpp, Hd, length_imap, length_take.
  replace (k `min` length (ReadManyInput.files params))%nat with k by lia.
  assert (forall i candidate, loop.(candidates) !! i = Some candidate ->
            exists request,
              (i < k)%nat /\ params.(ReadManyInput.files) !! i = Some request /\
              candidate = candidateOf readTool i request) as Hcandidate.
  { intros i candidate. rewrite Hc, list_lookup_imap_Some.
    intros (request & [Hlook Hi]%lookup_take_Some & ->). by exists request. }
  destruct (buildPlan_counts _ _ _ _ Hplan) as (_ & _ & Hsorted & _).
  split.
  - intros path Hpath.
    destruct plan.(PackingPlan.partialSection) as [section|] eqn:Hsection; [|done].
    cbn in Hpath.
    destruct (loop.(candidates) !! section.(PackedSection.index)) as [candidate|] eqn:Hlook;
      [|done].
    injection Hpath as <-.
    destruct (Hcandidate _ _ Hlook) as (request & Hi & Hfile & Hcand).
    exists section.(PackedSection.index), request. do 3 (split; [by rewrite ?Hcand|]).
    pose proof Hplan as (full & _ & _ & _ & _ & _ & Hpartial & _)%buildPlan_fullPass.
    pose proof (partialPass_first full.(fp_state) full.(fp_fullIncluded) 0 loop.(candidates))
      as Hfirst.
    cbn zeta in Hfirst. rewrite <- Hpartial, Hsection in Hfirst.
    destruct Hfirst as (j & c & Hj & Hidx & _ & _ & _ & Hbuild & _).
    cbn in Hidx. rewrite <- Hidx, Hlook in Hj. injection Hj as <-.
    apply buildPartialSection_Some in Hbuild as (body & _ & _ & Hbody & _).
    rewrite Hcand in Hbody. cbn in Hbody.
    by destruct (readTool _ (inputOf request)).
  - exists plan.(PackingPlan.omittedIndexes). split; [done|].
    apply mapM_pathAt_inv in Hop. eapply Forall2_impl; [exact Hop|].
    intros i path (candidate & Hlook & <-).
    destruct (Hcandidate _ _ Hlook) as (request & Hi & Hfile & ->).
    by exists request.
Qed.

End ExecuteReports.

(** ** When everything fits *)

Lemma sumList_nonneg measure texts :
  (forall text, 0 <= measure text) -> 0 <= sumList measure texts.
Proof.
  intros Hmeasure. unfold sumList.
  induction texts as [|t texts IH]; cbn [foldr]; [done|]. specialize (Hmeasure t). lia.
Qed.

Lemma size_initial_segment (included : gset nat) (count : nat) :
  (forall i, i ∈ included <-> (i < count)%nat) -> size included = count.
Proof.
  intros Hall. assert (included = list_to_set (seq 0 count)) as ->.
  { apply set_eq. intros i. rewrite Hall, elem_of_list_to_set, elem_of_seq. lia. }
  by rewrite size_list_to_set, length_seq by apply NoDup_seq.
Qed.

Lemma renderSections_all plan index rest :
  (forall j, (index <= j < index + length rest)%nat -> j ∈ plan.(PackingPlan.fullIncluded)) ->
  renderSections plan index rest = FileCandidate.fullText <$> rest.
Proof.
  revert index. induction rest as [|c rest IH]; intros index Hall; [done|].
  cbn [renderSections fmap list_fmap length] in *.
  rewrite bool_decide_eq_true_2 by (apply Hall; lia).
  f_equal. apply IH. intros j Hj. apply Hall. lia.
Qed.

Section EverythingFits.
Context `{Host} {laws : HostLaws}.
Context (readTool : ReadTool) (aborted : AbortSignal).

(** With every position included the partial pass finds nothing to do. *)
Lemma partialPass_all_included state fullIncluded index rest :
  (forall j, (index <= j < index + length rest)%nat -> j ∈ fullIncluded) ->
  partialPass state fullIncluded index rest = None.
Proof.
  revert index. induction rest as [|c rest IH]; intros index Hall; [done|].
  cbn [partialPass length] in *.
  rewrite bool_decide_eq_true_2 by (apply Hall; lia).
  apply IH. intros j Hj. apply Hall. lia.
Qed.

(** The request-order pass includes every candidate when all of them,
    with the separators between them, fit what is left of the ceilings. *)
Lemma fullPass_request_all candidates rest start acc :
  (forall j c, rest !! j = Some c -> candidates !! (start + j)%nat = Some c) ->
  Forall measured rest ->
  0 <= acc.(fp_state).(PackState.sectionCount) ->
  (rest <> [] ->
   let texts := FileCandidate.fullText <$> rest in
   acc.(fp_state).(PackState.usedBytes) + sepBytesOf acc.(fp_state)
   + (sumList byteLength texts + 2 * separators (sumList (fun _ => 1) texts))
   <= DEFAULT_MAX_BYTES /\
   acc.(fp_state).(PackState.usedLines) + sepLinesOf acc.(fp_state)
   + (sumList lineCount texts + separators (sumList (fun _ => 1) texts))
   <= DEFAULT_MAX_LINES) ->
  exists final,
    fullPass RequestOrder candidates (seq start (length rest)) acc = Ok final /\
    forall i, i ∈ final.(fp_fullIncluded)
              <-> i ∈ acc.(fp_fullIncluded) \/ (start <= i < start + length rest)%nat.
Proof.
  revert start acc. induction rest as [|c rest IH]; intros start acc Hlook Hmeasured Hcount Hcost.
  { exists acc. split; [done|]. intros i. cbn. split; [by left|]. intros [?|?]; [done|lia]. }
  cbn [length seq fullPass].
  pose proof (Hlook 0%nat c eq_refl) as Hhere. rewrite Nat.add_0_r in Hhere. rewrite Hhere.
  apply Forall_cons in Hmeasured as [Hc Hmeasured].
  destruct (Hcost ltac:(done)) as [Hbytes Hlines]. cbn zeta in Hbytes, Hlines.
  rewrite fmap_cons, !sumList_cons in Hbytes, Hlines.
  pose proof (sumList_nonneg byteLength (FileCandidate.fullText <$> rest) byteLength_nonneg)
    as HnonnegB.
  pose proof (sumList_nonneg lineCount (FileCandidate.fullText <$> rest)
                ltac:(intros t; unfold lineCount; lia)) as HnonnegL.
  pose proof (sumList_count_nonneg (FileCandidate.fullText <$> rest)) as HnonnegC.
  unfold measured in Hc.
  assert (canFitSection acc.(fp_state) c.(FileCandidate.fullMetrics) = true) as ->.
  { unfold canFitSection. rewrite Hc. cbn [measureText bytes lines].
    fold (lineCount c.(FileCandidate.fullText)).
    apply andb_true_iff. rewrite !Z.leb_le. clear IH Hcost.
    unfold separators, sepBytesOf, sepLinesOf in *. case_gtb; lia. }
  destruct (IH (S start)
              {| fp_state := addSection acc.(fp_state) c.(FileCandidate.fullMetrics);
                 fp_fullIncluded := {[ start ]} ∪ acc.(fp_fullIncluded);
                 fp_fullSuccessCount :=
                   if c.(FileCandidate.ok) then acc.(fp_fullSuccessCount) + 1
                   else acc.(fp_fullSuccessCount) |}) as (final & Hfinal & Hall).
  - intros j c' Hj. replace (S start + j)%nat with (start + S j)%nat by lia. by apply Hlook.
  - done.
  - cbn. lia.
  - intros Hrest. cbn zeta.
    assert (0 < sumList (fun _ => 1) (FileCandidate.fullText <$> rest)) as Hpos.
    { apply sumList_count_pos. by destruct rest. }
    unfold sepBytesOf, sepLinesOf, addSection. cbn [fp_state PackState.sectionCount
      PackState.usedBytes PackState.usedLines].
    rewrite Hc. cbn [measureText bytes lines]. fold (lineCount c.(FileCandidate.fullText)).
    clear IH Hcost. unfold separators, sepBytesOf, sepLinesOf in *. case_gtb; lia.
  - exists final. split; [done|]. intros i. rewrite Hall. cbn.
    rewrite elem_of_union, elem_of_singleton. intuition lia.
Qed.

(** The request-order plan of candidates that fit all together. *)
Lemma buildPlan_request_all candidates :
  Forall measured candidates ->
  let text := join [LF; LF] (FileCandidate.fullText <$> candidates) in
  (measureText text).(bytes) <= DEFAULT_MAX_BYTES ->
  (measureText text).(lines) <= DEFAULT_MAX_LINES ->
  exists plan,
    buildPlan RequestOrder (requestOrderOf candidates) candidates = Ok plan /\
    (forall i, i ∈ plan.(PackingPlan.fullIncluded) <-> (i < length candidates)%nat) /\
    plan.(PackingPlan.strategy) = RequestOrder /\
    plan.(PackingPlan.partialSection) = None /\
    plan.(PackingPlan.omittedIndexes) = [] /\
    plan.(PackingPlan.fullCount) = length candidates.
Proof.
  intros Hmeasured text Hbytes Hlines.
  destruct (fullPass_request_all candidates candidates 0 fullPassStart)
    as (full & Hfull & Hall); [done|done|done| |].
  { intros Hne. cbn zeta.
    destruct (join_metrics (FileCandidate.fullText <$> candidates)) as [Hb Hl].
    { by destruct candidates. }
    subst text. cbn [measureText bytes lines] in Hbytes, Hlines.
    fold (lineCount (join [LF; LF] (FileCandidate.fullText <$> candidates))) in Hlines.
    rewrite Hb in Hbytes. rewrite Hl in Hlines. cbn. lia. }
  assert (forall i, i ∈ full.(fp_fullIncluded) <-> (i < length candidates)%nat) as Hiff.
  { intros i. rewrite Hall. cbn. rewrite elem_of_empty. lia. }
  unfold buildPlan, requestOrderOf. rewrite Hfull. cbn [mbind Result_bind].
  rewrite partialPass_all_included by (intros j Hj; apply Hiff; lia).
  eexists. split; [done|]. cbn. repeat split; try apply Hiff.
  - unfold omitted. apply elem_of_nil_inv.
    intros i [Hno Hin%elem_of_seq]%list_elem_of_filter. apply Hno. left. apply Hiff. lia.
  - by apply size_initial_segment.
Qed.

(** X17. When the blocks of all requested files, joined by blank lines,
    are within the byte and line ceilings, [execute] (not aborted, and
    without [stopOnError]) returns exactly that text: every file in full,
    in request order, failed reads as their error blocks.  It keeps the
    request-order strategy, omits nothing, includes nothing in part, and
    reports no truncation of the combined output.  The host is one whose
    [truncateHead] returns a text within both limits unchanged. *)
Theorem everything_fits_everything_included params :
  (forall j, aborted j = false) ->
  default false params.(ReadManyInput.stopOnError) = false ->
  let blocks := imap (blockOf readTool) params.(ReadManyInput.files) in
  (measureText (join [LF; LF] blocks)).(bytes) <= DEFAULT_MAX_BYTES ->
  (measureText (join [LF; LF] blocks)).(lines) <= DEFAULT_MAX_LINES ->
  exists trace result,
    execute readTool aborted params = Ok (trace, result) /\
    result.(ReadManyResult.text) = join [LF; LF] blocks /\
    let details := result.(ReadManyResult.details) in
    let packing := details.(ReadManyDetails.packing) in
    details.(ReadManyDetails.processedCount) = length params.(ReadManyInput.files) /\
    details.(ReadManyDetails.combinedTruncation) = None /\
    packing.(Packing.strategy) = RequestOrder /\
    packing.(Packing.switchedForCoverage) = false /\
    packing.(Packing.fullIncludedCount) = length params.(ReadManyInput.files) /\
    packing.(Packing.partialIncludedPath) = None /\
    packing.(Packing.omittedPaths) = [].
Proof.
  intros Hlive Hstop blocks Hbytes Hlines.
  destruct (readFiles_Ok readTool aborted params.(ReadManyInput.stopOnError) 0
              params.(ReadManyInput.files) startLoop Hlive) as [loop Hloop].
  pose proof (readFiles_measured _ _ _ _ _ _ _ Hloop ltac:(constructor)) as Hmeasured.
  pose proof Hloop as (k & _ & Hc & Hd & _ & _ & Hall & _)%readFiles_records.
  rewrite (Hall Hstop), firstn_all in Hc, Hd. cbn [startLoop candidates fileDetails app] in Hc, Hd.
  assert (FileCandidate.fullText <$> loop.(candidates) = blocks) as Htexts
    by (by rewrite Hc, fmap_imap).
  assert (length loop.(candidates) = length params.(ReadManyInput.files)) as Hlen
    by (by rewrite Hc, length_imap).
  destruct (buildPlan_request_all loop.(candidates) Hmeasured)
    as (requestPlan & Hr & Hincluded & Hstrategy & Hpartial & Homitted & Hcount);
    [by rewrite Htexts..|].
  destruct (buildPlan_Ok SmallestFirst (smallestFirstOrderOf loop.(candidates))
              loop.(candidates) (smallestFirstOrderOf_range _)) as [smallestPlan Hs].
  assert (smallestPlan.(PackingPlan.fullSuccessCount)
          <= requestPlan.(PackingPlan.fullSuccessCount)) as Hle.
  { rewrite (buildPlan_successCount _ _ _ _ (smallestFirstOrderOf_NoDup _) Hs),
      (buildPlan_successCount _ _ _ _ (requestOrderOf_NoDup _) Hr).
    apply sumIncluded_mono; [intros c; destruct (FileCandidate.ok c); lia|].
    intros j Hj. apply Hincluded.
    apply buildPlan_fullPass in Hs as (full & Hfull & _ & Hinc & _). rewrite Hinc in Hj.
    destruct (fullPass_in_range _ _ _ _ _ Hfull j Hj) as [?|Hin]; [done|].
    by apply not_elem_of_empty in Hin. }
  assert (plannedOutputTextOf requestPlan loop.(candidates) = join [LF; LF] blocks) as Htext.
  { unfold plannedOutputTextOf. rewrite renderSections_all, Htexts; [done|].
    intros j Hj. apply Hincluded. lia. }
  unfold execute. rewrite Hloop. cbn [mbind Result_bind]. unfold packAndRender.
  rewrite Hr, Hs. cbn [mbind Result_bind]. unfold choosePlan.
  destruct (Z.gtb_spec smallestPlan.(PackingPlan.fullSuccessCount)
              requestPlan.(PackingPlan.fullSuccessCount)) as [Hgt|_]; [lia|].
  rewrite Homitted, Htext, (truncateHead_within _ _ _ Hlines Hbytes), Hpartial.
  cbn. eexists _, _. split; [done|]. cbn. rewrite Hd, length_imap.
  repeat split; [exact Hstrategy|by rewrite Hcount].
Qed.

End EverythingFits.

(** ** The further properties on concrete runs *)

Lemma execute_records_each_file_witness :
  match execute (H := smallHost) largeThenSmall neverAborted largeThenSmallParams with
  | Ok (trace, result) =>
      let files := largeThenSmallParams.(ReadManyInput.files) in
      let details := result.(ReadManyResult.details) in
      let processed := details.(ReadManyDetails.processedCount) in
      (processed <= length files)%nat /\
      trace = imap readCallOf (take processed files) /\
      details.(ReadManyDetails.files) = imap (detailOf largeThenSmall) (take processed files) /\
      (forall j, (j < processed)%nat -> neverAborted j = false) /\
      (default false largeThenSmallParams.(ReadManyInput.stopOnError) = false ->
       processed = length files) /\
      ((processed < length files)%nat ->
       exists j request, processed = S j /\ files !! j = Some request /\
         succeeded (largeThenSmall j (inputOf request)) = false)
  | Throw _ => False
  end.
Proof.
  destruct (execute (H := smallHost) largeThenSmall neverAborted largeThenSmallParams)
    as [[trace result]|] eqn:Hexec; [|vm_compute in Hexec; discriminate].
  exact (execute_records_each_file (H := smallHost) largeThenSmall neverAborted
           largeThenSmallParams trace result Hexec).
Defined.

Lemma execute_counts_add_up_witness :
  match execute (H := smallHost) largeThenSmall neverAborted largeThenSmallParams with
  | Ok (trace, result) =>
      let details := result.(ReadManyResult.details) in
      let packing := details.(ReadManyDetails.packing) in
      let processed := details.(ReadManyDetails.processedCount) in
      (details.(ReadManyDetails.successCount) + details.(ReadManyDetails.errorCount)
       = processed)%nat /\
      length trace = processed /\
      length details.(ReadManyDetails.files) = processed /\
      (packing.(Packing.fullIncludedCount)
       + length (option_list packing.(Packing.partialIncludedPath))
       + length packing.(Packing.omittedPaths) = processed)%nat /\
      0 <= packing.(Packing.fullIncludedSuccessCount)
        <= Z.of_nat packing.(Packing.fullIncludedCount) /\
      packing.(Packing.fullIncludedSuccessCount)
        <= Z.of_nat details.(ReadManyDetails.successCount)
  | Throw _ => False
  end.
Proof.
  destruct (execute (H := smallHost) largeThenSmall neverAborted largeThenSmallParams)
    as [[trace result]|] eqn:Hexec; [|vm_compute in Hexec; discriminate].
  exact (execute_counts_add_up (H := smallHost) largeThenSmall neverAborted
           largeThenSmallParams trace result Hexec).
Defined.

(** A run on the small host with a partial section and two omitted
    files. *)
Lemma packing_paths_name_processed_files_witness :
  match execute (H := smallHost) smallThenLarge neverAborted smallThenLargeParams with
  | Ok (trace, result) =>
      let files := smallThenLargeParams.(ReadManyInput.files) in
      let details := result.(ReadManyResult.details) in
      let packing := details.(ReadManyDetails.packing) in
      let processed := details.(ReadManyDetails.processedCount) in
      (packing.(Packing.partialIncludedPath) = Some (js "/l") /\
       packing.(Packing.omittedPaths) = [js "/m"; js "/n"]) /\
      (forall path, packing.(Packing.partialIncludedPath) = Some path ->
         exists i request,
           (i < processed)%nat /\ files !! i = Some request /\
           request.(FileRequest.path) = path /\
           succeeded (smallThenLarge i (inputOf request)) = true) /\
      exists positions,
        StronglySorted lt positions /\
        Forall2 (fun i path =>
                   exists request,
                     (i < processed)%nat /\ files !! i = Some request /\
                     request.(FileRequest.path) = path)
          positions packing.(Packing.omittedPaths)
  | Throw _ => False
  end.
Proof.
  destruct (execute (H := smallHost) smallThenLarge neverAborted smallThenLargeParams)
    as [[trace result]|] eqn:Hexec; [|vm_compute in Hexec; discriminate].
  split.
  - pose proof Hexec as Hrun. vm_compute in Hrun. injection Hrun as <- <-.
    vm_compute. split; reflexivity.
  - exact (packing_paths_name_processed_files (H := smallHost) smallThenLarge neverAborted
             smallThenLargeParams trace result Hexec).
Defined.

Lemma everything_fits_everything_included_witness :
  exists trace result,
    execute (H := piHost) goodBadGood neverAborted goodBadGoodParams = Ok (trace, result) /\
    result.(ReadManyResult.text)
      = join [LF; LF] (imap (blockOf goodBadGood) goodBadGoodFiles) /\
    let details := result.(ReadManyResult.details) in
    let packing := details.(ReadManyDetails.packing) in
    details.(ReadManyDetails.processedCount) = length goodBadGoodFiles /\
    details.(ReadManyDetails.combinedTruncation) = None /\
    packing.(Packing.strategy) = RequestOrder /\
    packing.(Packing.switchedForCoverage) = false /\
    packing.(Packing.fullIncludedCount) = length goodBadGoodFiles /\
    packing.(Packing.partialIncludedPath) = None /\
    packing.(Packing.omittedPaths) = [].
Proof.
  apply (everything_fits_everything_included (H := piHost) (laws := piHost_laws)
           goodBadGood neverAborted goodBadGoodParams).
  - intros j. reflexivity.
  - reflexivity.
  - vm_compute. discriminate.
  - vm_compute. discriminate.
Defined.
